(** * Awair air-quality preprocessing: a shallow embedding of [preprocessing.py]

    The development follows the class [Awair] of [src/preprocessing.py]:
    the decimal rounding helper, the cleaning steps, the three aggregation
    stages (hourly, daily, monthly), the mutable object that holds the
    intermediate data frames, and the command-line driver with its fatal
    configuration errors.

    Conventions of the embedding.
    - A data frame is the list of its rows, in row order; one record type per
      frame layout.
    - The readings are binary64 numbers ([PrimFloat.float]), NaN for an
      empty cell.  The mean of an hourly group is the one pandas' grouped
      mean computes: the cells that are not NaN are added in row order, with
      Kahan's compensation of the round-off, and the sum is divided by their
      number, each operation rounded to binary64.  [str] of a float is the
      shortest decimal text that reads back as the same float.
    - An instant is a number on the time line ([Z]); a cell of a time column
      is an instant or [NaT] ([option Z], [None] for [NaT]).
    - The float columns of the daily and monthly stages are casts of
      [Decimal] integers and aggregates of them.  Binary64 holds such integers
      and their sums exactly (below 2^53), and the correctly rounded quotient
      of a mean lies on the same side of every half-integer as the exact one;
      these cells are kept as the exact rationals they stand for ([Q]).
    - A [decimal.Decimal] that [quantize(Decimal("1."))] returned has
      exponent 0 and is stored as the integer it denotes ([Z]).  The context
      precision (28 digits) is far above any PM10 concentration; the cells
      of the aggregated frames are finite numbers, and what is proved of a
      value computed from floats is proved where the float is finite. *)

From Stdlib Require Import ZArith QArith Qround Qabs Lia Lqa.
From Stdlib Require Import List Bool String Ascii DecimalString Permutation Sorted.
From Stdlib Require Import Floats.
Import ListNotations.

Set Warnings "-inexact-float".

Local Open Scope Z_scope.

(** ** Binary64 numbers *)

Module binary64.

Definition Qlt_bool (x y : Q) : bool := negb (Qle_bool y x).

(** The number a finite float is. *)
Definition SF2Q (f : spec_float) : Q :=
  match f with
  | S754_finite s m e =>
      let v := (inject_Z (Z.pos m) * Qpower (inject_Z 2) e)%Q in
      if s then Qopp v else v
  | _ => 0%Q
  end.

Definition to_Q (x : float) : Q := SF2Q (Prim2SF x).

Definition mantissa_even (x : float) : bool :=
  match Prim2SF x with
  | S754_finite _ m _ => Z.even (Z.pos m)
  | _ => true
  end.

(** [float(text) == x] for a positive finite [x]: the decimal [d] lies
    between the midpoints to the neighbours of [x]; a midpoint itself reads as
    the neighbour of even mantissa. *)
Definition reads_as (d : Q) (x : float) : bool :=
  let below := to_Q (next_down x) in
  let lo := ((below + to_Q x) / inject_Z 2)%Q in
  let hi :=
    if is_infinity (next_up x)
    then (to_Q x + (to_Q x - below) / inject_Z 2)%Q
    else ((to_Q x + to_Q (next_up x)) / inject_Z 2)%Q in
  if mantissa_even x
  then Qle_bool lo d && Qle_bool d hi
  else Qlt_bool lo d && Qlt_bool d hi.

(** The exponent [e] with [10^e <= q < 10^(e+1)], for a positive [q]. *)
Fixpoint decimal_exponent_from (fuel : nat) (e : Z) (q : Q) : Z :=
  match fuel with
  | O => e
  | S fuel' =>
      if Qlt_bool q (Qpower (inject_Z 10) e)
      then decimal_exponent_from fuel' (e - 1) q
      else if Qle_bool (Qpower (inject_Z 10) (e + 1)) q
           then decimal_exponent_from fuel' (e + 1) q
           else e
  end.

Definition decimal_exponent (q : Q) : Z := decimal_exponent_from 700 0 q.

(** The decimal of [k] significant digits that reads as [x], if there is
    one: of the two that enclose [q], the value of [x], the nearer. *)
Definition candidate (x : float) (q : Q) (E k : Z) : option Q :=
  let u := Qpower (inject_Z 10) (E - k + 1) in
  let n := Qfloor (q / u) in
  let lo := Qred (inject_Z n * u) in
  let hi := Qred (inject_Z (n + 1) * u) in
  match reads_as lo x, reads_as hi x with
  | true, true => Some (if Qle_bool (q - lo) (hi - q) then lo else hi)
  | true, false => Some lo
  | false, true => Some hi
  | false, false => None
  end.

Fixpoint shortest (fuel : nat) (x : float) (q : Q) (E k : Z) : Q :=
  match fuel with
  | O => q
  | S fuel' =>
      match candidate x q E k with
      | Some d => d
      | None => shortest fuel' x q E (k + 1)
      end
  end.

(** The number that [str(x)] writes: the decimal of fewest significant
    digits (at most 17) that reads back as [x]. *)
Definition repr_decimal (x : float) : Q :=
  let a := abs x in
  let q := to_Q a in
  if Qeq_bool q 0 then 0%Q
  else
    let d := shortest 17 a q (decimal_exponent q) 1 in
    if (x <? 0)%float then Qopp d else d.

(** [val == val]: the cell is not NaN. *)
Definition notna (val : float) : bool := (val =? val)%float.

(** One step of the running sum of pandas' [group_mean]: the sum so far and
    the compensation of its round-off (Kahan summation). *)
Definition add_compensated (acc : float * float) (val : float)
    : float * float :=
  let '(sumx, compensation) := acc in
  let y := (val - compensation)%float in
  let t := (sumx + y)%float in
  (t, (t - sumx - y)%float).

Definition sum (xs : list float) : float :=
  fst (fold_left add_compensated xs (0%float, 0%float)).

Definition of_count (n : nat) : float :=
  of_uint63 (Uint63.of_Z (Z.of_nat n)).

(** The grouped ['mean'] of a float column: the cells that are not NaN are
    counted and added in row order, and the sum is divided by their number;
    a group without such a cell has the mean NaN. *)
Definition mean (xs : list float) : float :=
  let cells := filter notna xs in
  match cells with
  | [] => nan
  | _ :: _ => (sum cells / of_count (List.length cells))%float
  end.



End binary64.

(** ** Python numbers held in a column *)

(** A cell of a numeric column: a float read from the input or computed from
    such floats ([PyFloat]), a float of the daily and monthly stages, kept as
    the rational it stands for ([PyFloatQ]), or a [Decimal] object. *)
Inductive pynum : Type :=
| PyFloat (x : float)
| PyFloatQ (x : Q)
| PyDecimal (n : Z).

(** [Decimal(str(value))]: the exact decimal number that the text of the
    value denotes. *)
Definition Decimal_of_str (value : pynum) : Q :=
  match value with
  | PyFloat x => binary64.repr_decimal x
  | PyFloatQ x => x
  | PyDecimal n => inject_Z n
  end.

(** [astype(float)] on a cell, as the number the float is. *)
Definition astype_float (value : pynum) : Q :=
  match value with
  | PyFloat x => binary64.to_Q x
  | PyFloatQ x => x
  | PyDecimal n => inject_Z n
  end.

(** ** [decimal]: quantize under ROUND_HALF_UP *)

Module decimal.

(** The digit that follows the last kept digit of a non-negative
    magnitude, when the number is cut at exponent 0. *)
Definition first_discarded_digit (mag : Q) : Z :=
  Qfloor (mag * inject_Z 10) mod 10.

(** [Decimal._round_half_up]: the magnitude goes up exactly when the first
    discarded digit is one of 5, 6, 7, 8, 9. *)
Definition _round_half_up (mag : Q) : Z :=
  if 5 <=? first_discarded_digit mag then Qfloor mag + 1 else Qfloor mag.

(** [Decimal.quantize(Decimal("1."))] with the context rounding set to
    [ROUND_HALF_UP] (line 12 of the source): the sign is kept and the
    magnitude is rounded. *)
Definition quantize (d : Q) : Z :=
  if Qle_bool 0 d then _round_half_up d else - _round_half_up (- d).

End decimal.

(** [Awair._round_values] with its default precision ["1."]. *)
Definition _round_values (value : pynum) : Z :=
  decimal.quantize (Decimal_of_str value).

(** The values for which [_round_values] returns a number.  For NaN
    [quantize] returns NaN, and it raises [InvalidOperation] for an
    infinity and for a result of more than 28 digits, the precision of the
    context. *)
Definition finite (value : pynum) : bool :=
  match value with
  | PyFloat x => is_finite x
  | PyFloatQ _ => true
  | PyDecimal _ => true
  end.

Definition quantizable (value : pynum) : bool :=
  finite value && (Z.abs (_round_values value) <? 10 ^ 28).

(** The rounding convention in the words of the specification: the result is
    a nearest integer, and of two nearest integers the one of larger
    magnitude. *)
Definition nearest_ties_away (x : Q) (n : Z) : Prop :=
  (Qabs (x - inject_Z n) <= 1 # 2)%Q /\
  (Qabs (x - inject_Z n) == 1 # 2 -> Qabs x < Qabs (inject_Z n))%Q.

(** *** Arithmetic of the rounding *)

Lemma round_half_up_floor (mag : Q) :
  decimal._round_half_up mag = Qfloor (mag + (1 # 2)).
Proof.
  destruct mag as [n d].
  unfold decimal._round_half_up, decimal.first_discarded_digit.
  cbn [Qfloor Qmult Qplus Qnum Qden inject_Z].
  rewrite Pos.mul_1_r.
  rewrite Z.mul_1_l, Pos2Z.inj_mul.
  set (D := Z.pos d).
  assert (HD : 0 < D) by (unfold D; lia).
  pose proof (Z.div_mod n D ltac:(lia)) as Hn.
  pose proof (Z.mod_pos_bound n D HD) as Hr.
  set (f := n / D) in *. set (r := n mod D) in *.
  assert (H10 : (n * 10) / D = 10 * f + (10 * r) / D).
  { replace (n * 10) with (10 * r + (10 * f) * D) by lia.
    rewrite Z.div_add by lia. lia. }
  assert (Hk : 0 <= (10 * r) / D <= 9).
  { split.
    - apply Z.div_pos; lia.
    - assert ((10 * r) / D < 10); [ apply Z.div_lt_upper_bound; lia | lia ]. }
  rewrite H10.
  replace ((10 * f + 10 * r / D) mod 10) with ((10 * r) / D).
  2:{ apply (Z.mod_unique _ 10 f); [left; lia | lia]. }
  assert (Hhalf : (n * 2 + D) / (D * 2) = f + (2 * r + D) / (D * 2)).
  { replace (n * 2 + D) with ((2 * r + D) + f * (D * 2)) by lia.
    rewrite Z.div_add by lia. lia. }
  rewrite Hhalf.
  destruct (Z.leb_spec 5 ((10 * r) / D)) as [H5 | H5].
  - assert (D <= 2 * r).
    { destruct (Z_le_gt_dec D (2 * r)); [assumption|].
      assert ((10 * r) / D < 5); [ apply Z.div_lt_upper_bound; lia | lia ]. }
    assert ((2 * r + D) / (D * 2) = 1).
    { symmetry. apply (Z.div_unique _ _ 1 (2 * r + D - D * 2)); lia. }
    lia.
  - assert (2 * r < D).
    { destruct (Z_lt_le_dec (2 * r) D); [assumption|].
      assert (5 <= (10 * r) / D); [ apply Z.div_le_lower_bound; lia | lia ]. }
    assert ((2 * r + D) / (D * 2) = 0) by (apply Z.div_small; lia).
    lia.
Qed.

Lemma Qfloor_bounds (x : Q) :
  (inject_Z (Qfloor x) <= x /\ x < inject_Z (Qfloor x) + 1)%Q.
Proof.
  split; [apply Qfloor_le|].
  pose proof (Qlt_floor x) as H.
  rewrite inject_Z_plus in H. exact H.
Qed.

Lemma Qfloor_unique (x : Q) (n : Z) :
  (inject_Z n <= x)%Q -> (x < inject_Z n + 1)%Q -> Qfloor x = n.
Proof.
  intros Hlo Hhi.
  destruct (Qfloor_bounds x) as [Flo Fhi].
  assert (H1 : (inject_Z n < inject_Z (Qfloor x + 1))%Q)
    by (rewrite inject_Z_plus; change (inject_Z 1) with 1%Q; lra).
  assert (H2 : (inject_Z (Qfloor x) < inject_Z (n + 1))%Q)
    by (rewrite inject_Z_plus; change (inject_Z 1) with 1%Q; lra).
  rewrite <- Zlt_Qlt in H1, H2. lia.
Qed.

Lemma quantize_nonneg (d : Q) :
  (0 <= d)%Q -> decimal.quantize d = Qfloor (d + (1 # 2)).
Proof.
  intros H. unfold decimal.quantize.
  apply Qle_bool_iff in H. rewrite H. apply round_half_up_floor.
Qed.

Lemma quantize_neg (d : Q) :
  (d < 0)%Q -> decimal.quantize d = - Qfloor (- d + (1 # 2)).
Proof.
  intros H. unfold decimal.quantize.
  destruct (Qle_bool 0 d) eqn:E.
  - apply Qle_bool_iff in E. lra.
  - now rewrite round_half_up_floor.
Qed.

#[global] Instance quantize_comp : Proper (Qeq ==> eq) decimal.quantize.
Proof.
  intros x y Hxy.
  destruct (Qlt_le_dec x 0) as [Hx | Hx].
  - rewrite (quantize_neg x Hx), (quantize_neg y) by lra.
    now rewrite Hxy.
  - rewrite (quantize_nonneg x Hx), (quantize_nonneg y) by lra.
    now rewrite Hxy.
Qed.

Lemma quantize_inject_Z (n : Z) : decimal.quantize (inject_Z n) = n.
Proof.
  destruct (Z_lt_le_dec n 0) as [Hn | Hn].
  - assert (Hq : (inject_Z n < 0)%Q)
      by (change 0%Q with (inject_Z 0); now rewrite <- Zlt_Qlt).
    rewrite (quantize_neg _ Hq).
    rewrite (Qfloor_unique _ (- n)); [lia | |];
      rewrite inject_Z_opp; lra.
  - assert (Hq : (0 <= inject_Z n)%Q)
      by (change 0%Q with (inject_Z 0); now rewrite <- Zle_Qle).
    rewrite (quantize_nonneg _ Hq).
    apply Qfloor_unique; lra.
Qed.

(** The value [quantize] returns, as two inequalities on the rationals. *)
Lemma quantize_bounds (x : Q) :
  ((0 <= x -> x - (1 # 2) < inject_Z (decimal.quantize x) <= x + (1 # 2)) /\
   (x < 0 -> x - (1 # 2) <= inject_Z (decimal.quantize x) < x + (1 # 2)))%Q.
Proof.
  split; intros Hx.
  - rewrite (quantize_nonneg x Hx).
    destruct (Qfloor_bounds (x + (1 # 2))); lra.
  - rewrite (quantize_neg x Hx), inject_Z_opp.
    destruct (Qfloor_bounds (- x + (1 # 2))); lra.
Qed.

Lemma quantize_sign (x : Q) :
  ((0 <= x -> 0 <= inject_Z (decimal.quantize x)) /\
   (x < 0 -> inject_Z (decimal.quantize x) <= 0))%Q.
Proof.
  split; intros Hx.
  - rewrite (quantize_nonneg x Hx).
    change 0%Q with (inject_Z 0). rewrite <- Zle_Qle.
    change 0 with (Qfloor 0). apply Qfloor_resp_le. lra.
  - rewrite (quantize_neg x Hx), inject_Z_opp.
    assert (0 <= Qfloor (- x + (1 # 2))).
    { change 0 with (Qfloor 0). apply Qfloor_resp_le. lra. }
    assert (H0 : (inject_Z 0 <= inject_Z (Qfloor (- x + (1 # 2))))%Q)
      by now rewrite <- Zle_Qle.
    change (inject_Z 0) with 0%Q in H0. lra.
Qed.


Lemma quantize_nearest (x : Q) : nearest_ties_away x (decimal.quantize x).
Proof.
  destruct (quantize_bounds x) as [Bp Bn].
  destruct (quantize_sign x) as [Sp Sn].
  unfold nearest_ties_away.
  destruct (Qlt_le_dec x 0) as [Hx | Hx].
  - specialize (Bn Hx). specialize (Sn Hx).
    set (q := inject_Z (decimal.quantize x)) in *.
    split.
    + apply Qabs_Qle_condition. lra.
    + intros Htie.
      rewrite (Qabs_neg x) by lra. rewrite (Qabs_neg q) by lra.
      destruct (Qlt_le_dec (x - q) 0) as [Hd | Hd].
      * rewrite (Qabs_neg (x - q)) in Htie by lra. lra.
      * rewrite (Qabs_pos (x - q)) in Htie by lra. lra.
  - specialize (Bp Hx). specialize (Sp Hx).
    set (q := inject_Z (decimal.quantize x)) in *.
    split.
    + apply Qabs_Qle_condition. lra.
    + intros Htie.
      rewrite (Qabs_pos x) by lra. rewrite (Qabs_pos q) by lra.
      destruct (Qlt_le_dec (x - q) 0) as [Hd | Hd].
      * rewrite (Qabs_neg (x - q)) in Htie by lra. lra.
      * rewrite (Qabs_pos (x - q)) in Htie by lra. lra.
Qed.

Lemma nearest_ties_away_step (x : Q) (m : Z) :
  nearest_ties_away x m -> nearest_ties_away x (m + 1) -> False.
Proof.
  intros [Hm Tm] [Hn Tn].
  rewrite inject_Z_plus in Hn, Tn. change (inject_Z 1) with 1%Q in Hn, Tn.
  set (a := inject_Z m) in *.
  apply Qabs_Qle_condition in Hm, Hn.
  assert (Hx : (x == a + (1 # 2))%Q) by lra.
  assert (Em : (Qabs (x - a) == 1 # 2)%Q) by (rewrite Qabs_pos; lra).
  assert (En : (Qabs (x - (a + 1)) == 1 # 2)%Q) by (rewrite Qabs_neg; lra).
  specialize (Tm Em). specialize (Tn En).
  destruct (Z_lt_le_dec m 0) as [Hneg | Hpos].
  - assert (Ha : (a + 1 <= 0)%Q).
    { assert (H : (inject_Z (m + 1) <= inject_Z 0)%Q)
        by (rewrite <- Zle_Qle; lia).
      rewrite inject_Z_plus in H. exact H. }
    rewrite (Qabs_neg x) in Tn by lra.
    rewrite (Qabs_neg (a + 1)) in Tn by lra. lra.
  - assert (Ha : (0 <= a)%Q).
    { change 0%Q with (inject_Z 0). unfold a. now rewrite <- Zle_Qle. }
    rewrite (Qabs_pos x) in Tm by lra.
    rewrite (Qabs_pos a) in Tm by lra. lra.
Qed.

Lemma nearest_ties_away_unique (x : Q) (n m : Z) :
  nearest_ties_away x n -> nearest_ties_away x m -> n = m.
Proof.
  intros Hn Hm.
  assert (Hd : -1 <= n - m <= 1).
  { destruct Hn as [Hn _], Hm as [Hm _].
    apply Qabs_Qle_condition in Hn, Hm.
    assert (H1 : (inject_Z n <= inject_Z (m + 1))%Q)
      by (rewrite inject_Z_plus; change (inject_Z 1) with 1%Q; lra).
    assert (H2 : (inject_Z m <= inject_Z (n + 1))%Q)
      by (rewrite inject_Z_plus; change (inject_Z 1) with 1%Q; lra).
    rewrite <- Zle_Qle in H1, H2. lia. }
  assert (Hc : n = m \/ n = m + 1 \/ m = n + 1) by lia.
  destruct Hc as [E | [E | E]]; [exact E | subst n | subst m].
  - exfalso. exact (nearest_ties_away_step x m Hm Hn).
  - exfalso. exact (nearest_ties_away_step x n Hn Hm).
Qed.

(** ** Calendar values *)

Module datetime.

(** A [datetime.date]; after [astype('datetime64[M]')] the same record
    with [day] 1 stands for the month. *)
Record date : Type := mkdate { year : Z; month : Z; day : Z }.

Definition eqb (a b : date) : bool :=
  (year a =? year b) && (month a =? month b) && (day a =? day b).

Definition leb (a b : date) : bool :=
  (year a <? year b)
  || ((year a =? year b)
      && ((month a <? month b)
          || ((month a =? month b) && (day a <=? day b)))).

Lemma eqb_eq (a b : date) : eqb a b = true <-> a = b.
Proof.
  destruct a as [y m d], b as [y' m' d']. unfold eqb. cbn.
  rewrite !andb_true_iff, !Z.eqb_eq.
  split; [intros [[-> ->] ->]; reflexivity | intros [= -> -> ->]; auto].
Qed.

End datetime.

(** [Series.astype('datetime64[M]')], in the pandas this code runs on: the
    date is cut to its month. *)
Definition astype_datetime64_M (d : datetime.date) : datetime.date :=
  {| datetime.year := datetime.year d;
     datetime.month := datetime.month d;
     datetime.day := 1 |}.

(** Keys of several columns compare column by column. *)
Definition pair_eqb {A B : Type} (ea : A -> A -> bool) (eb : B -> B -> bool)
    (x y : A * B) : bool :=
  ea (fst x) (fst y) && eb (snd x) (snd y).

Definition pair_leb {A B : Type} (ea la : A -> A -> bool) (lb : B -> B -> bool)
    (x y : A * B) : bool :=
  if ea (fst x) (fst y) then lb (snd x) (snd y) else la (fst x) (fst y).

Lemma pair_eqb_eq {A B : Type} (ea : A -> A -> bool) (eb : B -> B -> bool) :
  (forall a a', ea a a' = true <-> a = a') ->
  (forall b b', eb b b' = true <-> b = b') ->
  forall x y, pair_eqb ea eb x y = true <-> x = y.
Proof.
  intros Ha Hb [a b] [a' b']. unfold pair_eqb. cbn.
  rewrite andb_true_iff, Ha, Hb.
  split; [intros [-> ->]; reflexivity | intros [= -> ->]; auto].
Qed.

(** ** Grouping *)

(** [DataFrame.groupby(keys)] with its default [sort=True]: the distinct
    keys in ascending order, each with the rows that carry it, in row
    order. *)
Section GroupBy.
Context {K R : Type}.
Variable key : R -> K.
Variable eqb : K -> K -> bool.
Variable leb : K -> K -> bool.

Fixpoint unique (ks : list K) : list K :=
  match ks with
  | [] => []
  | k :: ks' => k :: filter (fun k' => negb (eqb k' k)) (unique ks')
  end.

Fixpoint insert_key (k : K) (ks : list K) : list K :=
  match ks with
  | [] => [k]
  | k' :: ks' => if leb k k' then k :: ks else k' :: insert_key k ks'
  end.

Fixpoint sort_keys (ks : list K) : list K :=
  match ks with
  | [] => []
  | k :: ks' => insert_key k (sort_keys ks')
  end.

Definition group_keys (rows : list R) : list K :=
  sort_keys (unique (map key rows)).

Definition get_group (k : K) (rows : list R) : list R :=
  filter (fun r => eqb (key r) k) rows.

Definition groupby (rows : list R) : list (K * list R) :=
  map (fun k => (k, get_group k rows)) (group_keys rows).

(** [groupby(keys).filter(func)]: the rows of the groups for which [func]
    holds, in the order of the original frame. *)
Definition groupby_filter (func : list R -> bool) (rows : list R) : list R :=
  filter (fun r => func (get_group (key r) rows)) rows.

Hypothesis eqb_eq : forall a b, eqb a b = true <-> a = b.

Lemma eqb_refl (a : K) : eqb a a = true.
Proof. now apply eqb_eq. Qed.

Lemma in_unique (ks : list K) (k : K) : In k (unique ks) <-> In k ks.
Proof.
  induction ks as [| a ks IH]; cbn; [tauto|].
  rewrite filter_In, IH.
  destruct (eqb k a) eqn:E.
  - apply eqb_eq in E. subst. cbn. intuition congruence.
  - cbn. split; [tauto|].
    intros [-> | H]; [rewrite eqb_refl in E; discriminate | tauto].
Qed.

Lemma NoDup_unique (ks : list K) : NoDup (unique ks).
Proof.
  induction ks as [| a ks IH]; cbn; constructor.
  - rewrite filter_In. intros [_ H]. now rewrite eqb_refl in H.
  - now apply NoDup_filter.
Qed.

Lemma insert_key_perm (k : K) (ks : list K) :
  Permutation (k :: ks) (insert_key k ks).
Proof.
  induction ks as [| a ks IH]; cbn; [reflexivity|].
  destruct (leb k a); [reflexivity|].
  rewrite perm_swap. now constructor.
Qed.

Lemma sort_keys_perm (ks : list K) : Permutation ks (sort_keys ks).
Proof.
  induction ks as [| a ks IH]; cbn; [reflexivity|].
  rewrite <- insert_key_perm. now constructor.
Qed.

Lemma in_group_keys (rows : list R) (k : K) :
  In k (group_keys rows) <-> exists r, In r rows /\ key r = k.
Proof.
  unfold group_keys.
  split.
  - intros H. apply (Permutation_in _ (Permutation_sym (sort_keys_perm _))) in H.
    apply in_unique, in_map_iff in H.
    destruct H as [r [E Hr]]. eauto.
  - intros [r [Hr E]].
    apply (Permutation_in _ (sort_keys_perm _)).
    apply in_unique, in_map_iff. eauto.
Qed.

Lemma NoDup_group_keys (rows : list R) : NoDup (group_keys rows).
Proof.
  unfold group_keys.
  eapply Permutation_NoDup; [apply sort_keys_perm | apply NoDup_unique].
Qed.

Lemma in_get_group (k : K) (rows : list R) (r : R) :
  In r (get_group k rows) <-> In r rows /\ key r = k.
Proof. unfold get_group. now rewrite filter_In, eqb_eq. Qed.

Lemma get_group_nonempty (rows : list R) (k : K) :
  In k (group_keys rows) -> get_group k rows <> [].
Proof.
  intros H. apply in_group_keys in H. destruct H as [r [Hr E]].
  intros Hnil.
  assert (Hin : In r (get_group k rows)) by now apply in_get_group.
  rewrite Hnil in Hin. exact Hin.
Qed.

End GroupBy.

(** [DataFrame.sort_values(by=...)]: the rows in ascending order of their
    key, rows of equal key in their former order. *)
Definition sort_values {K R : Type} (key : R -> K) (leb : K -> K -> bool)
    (rows : list R) : list R :=
  sort_keys (fun a b => leb (key a) (key b)) rows.

Lemma sort_values_perm {K R : Type} (key : R -> K) (leb : K -> K -> bool)
    (rows : list R) :
  Permutation rows (sort_values key leb rows).
Proof. apply sort_keys_perm. Qed.

(** ** Aggregations of the float columns of the daily and monthly stages *)

Definition Qsum (xs : list Q) : Q := fold_right Qplus 0%Q xs.

(** ['mean'] of a column of integers cast to float: their arithmetic mean
    (of a group, which is never empty). *)
Definition mean (xs : list Q) : Q :=
  (Qsum xs / inject_Z (Z.of_nat (List.length xs)))%Q.

Definition Qmin (x y : Q) : Q := if Qle_bool x y then x else y.
Definition Qmax (x y : Q) : Q := if Qle_bool x y then y else x.

(** ['min'] and ['max'] of a group. *)
Definition minimum (xs : list Q) : Q :=
  match xs with
  | [] => 0%Q
  | x :: xs' => fold_left Qmin xs' x
  end.

Definition maximum (xs : list Q) : Q :=
  match xs with
  | [] => 0%Q
  | x :: xs' => fold_left Qmax xs' x
  end.

(** ['max'] of a column of [Decimal] objects. *)
Definition Zmaximum (xs : list Z) : Z :=
  match xs with
  | [] => 0
  | x :: xs' => fold_left Z.max xs' x
  end.

(** [sum(x > threshold)]: Python adds the booleans of the comparison. *)
Definition sum_bool (bs : list bool) : Z :=
  fold_left (fun acc (b : bool) => acc + (if b then 1 else 0)) bs 0.

Definition Qgt_bool (x y : Q) : bool := negb (Qle_bool x y).

(** ** The data frames of the pipeline *)

(** A row as the loader returns it: the time is still text. *)
Module RawReading.
Record t : Type :=
  mk { station_id : Z; measure_time : string; value : float }.
End RawReading.

(** A row of [self.data] after [convert_datetime]: [measure_time] is an
    instant (a time-zone aware [Timestamp]) or [NaT]. *)
Module Reading.
Record t : Type :=
  mk { station_id : Z; measure_time : option Z; value : float }.

(** Two cells of a time column hold the same: [NaT] is the same as
    [NaT]. *)
Definition time_eqb (a b : option Z) : bool :=
  match a, b with
  | Some x, Some y => x =? y
  | None, None => true
  | _, _ => false
  end.

(** Two cells of a float column hold the same, for [drop_duplicates]:
    [a == b], or both are NaN. *)
Definition value_eqb (a b : float) : bool :=
  PrimFloat.eqb a b || (is_nan a && is_nan b).

Definition eqb (a b : t) : bool :=
  (station_id a =? station_id b)
  && time_eqb (measure_time a) (measure_time b)
  && value_eqb (value a) (value b).

(** The order of a time column in [sort_values]: ascending, [NaT] last. *)
Definition time_leb (a b : option Z) : bool :=
  match a, b with
  | Some x, Some y => x <=? y
  | _, None => true
  | None, Some _ => false
  end.

(** [column >= bound] and [column < bound] on one cell: a comparison with
    [NaT] is false. *)
Definition time_ge (a : option Z) (bound : Z) : bool :=
  match a with
  | Some x => x >=? bound
  | None => false
  end.

Definition time_lt (a : option Z) (bound : Z) : bool :=
  match a with
  | Some x => x <? bound
  | None => false
  end.
End Reading.

(** A row of [self.hourly]. *)
Module Hourly.
Record t : Type :=
  mk { station_id : Z; date : datetime.date; hour : Z; value : Z }.
End Hourly.

(** A row of [self.daily].  [perc_of_norm] is [None] until the column is
    added; [mean] is a [Decimal] until [monthly_stats] casts the column. *)
Module Daily.
Record t : Type :=
  mk { station_id : Z; date : datetime.date;
       min : Z; max : Z; mean : pynum;
       perc_of_norm : option Z }.
End Daily.

(** A row of the frame [monthly_stats] returns. *)
Module Monthly.
Record t : Type :=
  mk { station_id : Z; date : datetime.date;
       mean : Z; days_num : Z;
       days_abv_norm : Z; days_abv_200 : Z; days_abv_300 : Z;
       max : Z }.
End Monthly.

(** A row of the station file. *)
Module Station.
Record t : Type :=
  mk { id : Z; station_name : string; station_address : string;
       district_id : Z; district : string; lat : Q; lon : Q }.
End Station.

(** A row of the exported monthly frame: the statistics and, when the
    station is known, its description (null columns otherwise). *)
Module MonthlyOut.
Record t : Type :=
  mk { stats : Monthly.t; info : option Station.t }.
End MonthlyOut.

(** Key types of the three groupings. *)
Definition hour_key : Type := Z * datetime.date * Z.
Definition day_key : Type := Z * datetime.date.

Definition hour_key_eqb : hour_key -> hour_key -> bool :=
  pair_eqb (pair_eqb Z.eqb datetime.eqb) Z.eqb.
Definition hour_key_leb : hour_key -> hour_key -> bool :=
  pair_leb (pair_eqb Z.eqb datetime.eqb)
           (pair_leb Z.eqb Z.leb datetime.leb) Z.leb.
Definition day_key_eqb : day_key -> day_key -> bool :=
  pair_eqb Z.eqb datetime.eqb.
Definition day_key_leb : day_key -> day_key -> bool :=
  pair_leb Z.eqb Z.leb datetime.leb.

Lemma day_key_eqb_eq (a b : day_key) : day_key_eqb a b = true <-> a = b.
Proof. apply pair_eqb_eq; [apply Z.eqb_eq | apply datetime.eqb_eq]. Qed.

Lemma hour_key_eqb_eq (a b : hour_key) : hour_key_eqb a b = true <-> a = b.
Proof. apply pair_eqb_eq; [apply day_key_eqb_eq | apply Z.eqb_eq]. Qed.

(** ** The cleaning steps and the aggregation stages *)

Section Stages.

(** The time zone database and the date parser are outside the source:
    [dt_date] and [dt_hour] are the accessors [.dt.date] and [.dt.hour]
    of an instant in Europe/Vienna, [Timestamp] reads a bound of the
    time window as an instant of that zone, and [to_datetime] is
    [pd.to_datetime(..., utc=True)] followed by [tz_convert] on one cell:
    [Some (Some t)] for the text of a date, [Some None], that is [NaT], for
    an empty cell, and [None] when the text is no date and the call
    raises. *)
Variable dt_date : Z -> datetime.date.
Variable dt_hour : Z -> Z.
Variable Timestamp : string -> Z.
Variable to_datetime : string -> option (option Z).

(** [Awair.convert_datetime]. *)
Fixpoint convert_datetime (data : list RawReading.t) : option (list Reading.t) :=
  match data with
  | [] => Some []
  | r :: data' =>
      match to_datetime (RawReading.measure_time r), convert_datetime data' with
      | Some t, Some rows =>
          Some (Reading.mk (RawReading.station_id r) t (RawReading.value r)
                  :: rows)
      | _, _ => None
      end
  end.

(** [DataFrame.drop_duplicates()]: of equal rows the first is kept. *)
Fixpoint drop_duplicates (data : list Reading.t) : list Reading.t :=
  match data with
  | [] => []
  | r :: data' =>
      r :: filter (fun r' => negb (Reading.eqb r' r)) (drop_duplicates data')
  end.

(** [Awair.remove_duplicates]. *)
Definition remove_duplicates (data : list Reading.t) : list Reading.t :=
  drop_duplicates data.

(** [Awair.sort_values] with the order [['station_id', 'measure_time']]. *)
Definition Awair_sort_values (data : list Reading.t) : list Reading.t :=
  sort_values
    (fun r => (Reading.station_id r, Reading.measure_time r))
    (pair_leb Z.eqb Z.leb Reading.time_leb) data.

(** [Awair.limit_time_range]. *)
Definition limit_time_range (lower_band upper_band : string)
    (data : list Reading.t) : list Reading.t :=
  filter
    (fun r =>
       Reading.time_ge (Reading.measure_time r) (Timestamp lower_band)
       && Reading.time_lt (Reading.measure_time r) (Timestamp upper_band))
    data.

(** A row of the frame [hourly] before the grouping: the columns
    [station_id] and [value] of [self.data] and the columns [date] and
    [hour] of the instant, both null where the instant is [NaT]. *)
Definition hourly_columns (r : Reading.t)
    : Z * option datetime.date * option Z * float :=
  (Reading.station_id r,
   option_map dt_date (Reading.measure_time r),
   option_map dt_hour (Reading.measure_time r),
   Reading.value r).

(** [groupby] leaves out the rows that have a null key. *)
Definition dropna (row : Z * option datetime.date * option Z * float)
    : list (hour_key * float) :=
  match row with
  | (station_id, Some date, Some hour, value) =>
      [((station_id, date, hour), value)]
  | _ => []
  end.

(** The rows [hourly_stats] groups, each with its key. *)
Definition hourly_frame (data : list Reading.t) : list (hour_key * float) :=
  flat_map (fun r => dropna (hourly_columns r)) data.

(** [Awair.hourly_stats]: the grouped mean of the float column [value],
    then [_round_values] on every mean. *)
Definition hourly_stats (data : list Reading.t) : list Hourly.t :=
  map (fun kg : hour_key * list (hour_key * float) =>
         let '(station_id, date, hour) := fst kg in
         Hourly.mk station_id date hour
           (_round_values (PyFloat (binary64.mean (map snd (snd kg))))))
      (groupby fst hour_key_eqb hour_key_leb (hourly_frame data)).

(** The key columns of [daily_stats]. *)
Definition daily_key (r : Hourly.t) : day_key :=
  (Hourly.station_id r, Hourly.date r).

(** [x.hour.count()]: the number of cells of the column. *)
Definition count {A : Type} (column : list A) : Z :=
  Z.of_nat (List.length column).

(** [Awair.daily_stats]. *)
Definition daily_stats (min_hour : Z) (hourly : list Hourly.t) : list Daily.t :=
  let daily :=
    groupby_filter daily_key day_key_eqb
      (fun x => count (map Hourly.hour x) >=? min_hour) hourly in
  map (fun kg : day_key * list Hourly.t =>
         let value :=
           map (fun r => astype_float (PyDecimal (Hourly.value r))) (snd kg) in
         Daily.mk (fst (fst kg)) (snd (fst kg))
           (_round_values (PyFloatQ (minimum value)))
           (_round_values (PyFloatQ (maximum value)))
           (PyDecimal (_round_values (PyFloatQ (mean value))))
           None)
      (groupby daily_key day_key_eqb day_key_leb daily).

(** [Awair.perc_of_norm]: the column is added to [self.daily] in place.
    The cell [x] is a [Decimal], so [x / norm * 100] is decimal
    arithmetic (exact here). *)
Definition perc_of_norm (norm : Z) (daily : list Daily.t) : list Daily.t :=
  map (fun r =>
         let x := Decimal_of_str (Daily.mean r) in
         Daily.mk (Daily.station_id r) (Daily.date r)
           (Daily.min r) (Daily.max r) (Daily.mean r)
           (Some (decimal.quantize (x / inject_Z norm * inject_Z 100)%Q)))
      daily.

(** The key columns of [monthly_stats]. *)
Definition monthly_key (r : Daily.t) : day_key :=
  (Daily.station_id r, Daily.date r).

(** The first two statements of [monthly_stats] assign columns of
    [self.daily]: [mean] is cast to float and [date] is cut to the
    month. *)
Definition monthly_casts (daily : list Daily.t) : list Daily.t :=
  let daily1 :=
    map (fun r =>
           Daily.mk (Daily.station_id r) (Daily.date r)
             (Daily.min r) (Daily.max r)
             (PyFloatQ (astype_float (Daily.mean r)))
             (Daily.perc_of_norm r)) daily in
  map (fun r =>
         Daily.mk (Daily.station_id r) (astype_datetime64_M (Daily.date r))
           (Daily.min r) (Daily.max r) (Daily.mean r)
           (Daily.perc_of_norm r)) daily1.

(** The aggregation of one group of [monthly_stats], with the rounding
    of [mean] and [max]. *)
Definition monthly_agg (kg : day_key * list Daily.t) : Monthly.t :=
  let x := map (fun r => astype_float (Daily.mean r)) (snd kg) in
  Monthly.mk (fst (fst kg)) (snd (fst kg))
    (_round_values (PyFloatQ (mean x)))
    (count (snd kg))
    (sum_bool (map (fun v => Qgt_bool v (inject_Z 50)) x))
    (sum_bool (map (fun v => Qgt_bool v (inject_Z 200)) x))
    (sum_bool (map (fun v => Qgt_bool v (inject_Z 300)) x))
    (_round_values (PyDecimal (Zmaximum (map Daily.max (snd kg))))).

(** [Awair.monthly_stats]: the new value of [self.daily] and the frame
    returned. *)
Definition monthly_stats (daily : list Daily.t)
    : list Daily.t * list Monthly.t :=
  let daily' := monthly_casts daily in
  let monthly :=
    map monthly_agg (groupby monthly_key day_key_eqb day_key_leb daily') in
  (daily',
   sort_values (fun m => (Monthly.station_id m, Monthly.date m))
     day_key_leb monthly).

(** [DataFrame.merge(stations, left_on='station_id', right_on='id',
    how='left')] followed by the drop of [id]. *)
Definition merge_stations (monthly : list Monthly.t)
    (stations : list Station.t) : list MonthlyOut.t :=
  flat_map
    (fun m =>
       match filter (fun s => Station.id s =? Monthly.station_id m) stations with
       | [] => [MonthlyOut.mk m None]
       | found => map (fun s => MonthlyOut.mk m (Some s)) found
       end)
    monthly.

End Stages.

(** ** Paths *)

Module os_path.

Definition sep : ascii := "/"%char.
Definition extsep : ascii := "."%char.

(** [str.rfind] of a character: the last index, or -1. *)
Fixpoint rfind_from (c : ascii) (i : Z) (p : list ascii) : Z :=
  match p with
  | [] => -1
  | a :: p' =>
      let later := rfind_from c (i + 1) p' in
      if 0 <=? later then later else if Ascii.eqb a c then i else -1
  end.

Definition rfind (c : ascii) (p : list ascii) : Z := rfind_from c 0 p.

(** The slice [p[lo:hi]]. *)
Definition slice (lo hi : Z) (p : list ascii) : list ascii :=
  firstn (Z.to_nat (hi - lo)) (skipn (Z.to_nat lo) p).

(** [os.path.splitext(p)[1]]: the text from the last dot of the last
    component, unless that component has only leading dots before it. *)
Definition splitext_ext (path : string) : string :=
  let p := list_ascii_of_string path in
  let sepIndex := rfind sep p in
  let dotIndex := rfind extsep p in
  if (sepIndex <? dotIndex)
     && existsb (fun a => negb (Ascii.eqb a extsep))
                (slice (sepIndex + 1) dotIndex p)
  then string_of_list_ascii (skipn (Z.to_nat dotIndex) p)
  else EmptyString.

(** [str.lower] on ASCII text. *)
Definition lower_ascii (a : ascii) : ascii :=
  let n := nat_of_ascii a in
  if ((65 <=? n) && (n <=? 90))%nat then ascii_of_nat (n + 32) else a.

Definition lower (s : string) : string :=
  string_of_list_ascii (map lower_ascii (list_ascii_of_string s)).

(** [os.path.join(a, b)] for a relative [b]. *)
Definition join (a b : string) : string :=
  match rev (list_ascii_of_string a) with
  | [] => b
  | last :: _ =>
      if Ascii.eqb last sep then (a ++ b)%string
      else (a ++ String sep b)%string
  end.

End os_path.

(** ** The process: files, log, exceptions *)

(** The content of a file the run has written. *)
Inductive csv_frame : Type :=
| DataCsv (rows : list Reading.t)
| HourlyCsv (rows : list Hourly.t)
| DailyCsv (rows : list Daily.t)
| MonthlyCsv (rows : list MonthlyOut.t).

Inductive log_level : Type := INFO | ERROR.

(** What the process sees and leaves behind.  [path_exists], [read_sqlite],
    [read_csv], [read_stations] and [writable] describe the file system at
    the start of the run ([None]: the reader raises); [written] and [log]
    grow during the run, latest entry first. *)
Record world : Type :=
  mkworld {
    path_exists : string -> bool;
    read_sqlite : string -> option (list RawReading.t);
    read_csv : string -> option (list RawReading.t);
    read_stations : string -> option (list Station.t);
    writable : string -> bool;
    written : list (string * csv_frame);
    log : list (log_level * string) }.

(** Exceptions that end the process. *)
Inductive exn : Type :=
| SystemExit (code : Z)
| AssertionError
| TypeError
| OtherError (what : string).

Inductive result (A : Type) : Type :=
| Ok (a : A)
| Raised (e : exn).
Arguments Ok {A} a.
Arguments Raised {A} e.

(** A computation of the process: it may write files and log lines before it
    returns or raises. *)
Definition proc (A : Type) : Type := world -> result A * world.

Definition ret {A : Type} (a : A) : proc A := fun w => (Ok a, w).

Definition bind {A B : Type} (c : proc A) (k : A -> proc B) : proc B :=
  fun w =>
    match c w with
    | (Ok a, w') => k a w'
    | (Raised e, w') => (Raised e, w')
    end.

Definition raise {A : Type} (e : exn) : proc A := fun w => (Raised e, w).

Declare Scope proc_scope.
Delimit Scope proc_scope with proc.
Notation "x <- c ;; k" := (bind c (fun x => k))
  (at level 100, c at next level, right associativity) : proc_scope.
Notation "c ;; k" := (bind c (fun _ => k))
  (at level 100, right associativity) : proc_scope.

(** The exit status of the interpreter: 0 after a normal end, the code of
    [sys.exit], 1 after any other uncaught exception. *)
Definition exit_status {A : Type} (r : result A) : Z :=
  match r with
  | Ok _ => 0
  | Raised (SystemExit code) => code
  | Raised _ => 1
  end.

Definition was_written (path : string) (w : world) : bool :=
  existsb (fun entry => String.eqb (fst entry) path) (written w).

(** [self.log.info] and [self.log.error]. *)
Definition log_msg (level : log_level) (msg : string) : proc unit :=
  fun w =>
    (Ok tt,
     mkworld (path_exists w) (read_sqlite w) (read_csv w) (read_stations w)
       (writable w) (written w) ((level, msg) :: log w)).

(** [sys.exit(code)]. *)
Definition sys_exit {A : Type} (code : Z) : proc A := raise (SystemExit code).

(** [os.path.exists]: a path written by the run exists; [None] is no path
    and raises [TypeError]. *)
Definition os_path_exists (path : option string) : proc bool :=
  fun w =>
    match path with
    | None => (Raised TypeError, w)
    | Some p => (Ok (path_exists w p || was_written p w), w)
    end.

(** [DataFrame.to_csv(output_path, index=False)]. *)
Definition to_csv (data : csv_frame) (output_path : string) : proc unit :=
  fun w =>
    if writable w output_path
    then (Ok tt,
          mkworld (path_exists w) (read_sqlite w) (read_csv w)
            (read_stations w) (writable w)
            ((output_path, data) :: written w) (log w))
    else (Raised (OtherError "OSError"), w).

(** A reader of the process: a file the run has overwritten no longer holds
    what it held at the start. *)
Definition read_with {A : Type} (reader : world -> string -> option A)
    (path : string) : proc A :=
  fun w =>
    if was_written path w then (Raised (OtherError "ParserError"), w)
    else match reader w path with
         | Some a => (Ok a, w)
         | None => (Raised (OtherError "ParserError"), w)
         end.

(** [str] of an integer, for the log lines. *)
Definition str_int (n : Z) : string := NilZero.string_of_int (Z.to_int n).

(** ** The object [Awair] and its methods *)

(** [self.data] holds the loader's rows until [convert_datetime] has run. *)
Inductive data_frame : Type :=
| RawFrame (rows : list RawReading.t)
| CleanFrame (rows : list Reading.t).

(** [self.monthly] before and after the merge with the station file. *)
Inductive monthly_frame : Type :=
| MonthlyStats (rows : list Monthly.t)
| MonthlyMerged (rows : list MonthlyOut.t).

(** The attributes of the object ([None] as in [__init__]); the logger is
    part of [world]. *)
Module Awair.
Record t : Type :=
  mk { data : option data_frame;
       hourly : option (list Hourly.t);
       daily : option (list Daily.t);
       monthly : option monthly_frame }.
End Awair.

(** The parsed command line. *)
Record arguments : Type :=
  mkargs { input_file : string;
           stations_file : option string;
           output_dir : string }.

Section Driver.

Variable dt_date : Z -> datetime.date.
Variable dt_hour : Z -> Z.
Variable Timestamp : string -> Z.
Variable to_datetime : string -> option (option Z).

Local Open Scope proc_scope.
Local Open Scope string_scope.

(** [Awair._read_sqlite] and [Awair._read_csv]. *)
Definition _read_sqlite (db_path : string) : proc (list RawReading.t) :=
  data <- read_with read_sqlite db_path ;;
  log_msg INFO "Loaded database content" ;;
  ret data.

Definition _read_csv (csv_path : string) : proc (list RawReading.t) :=
  data <- read_with read_csv csv_path ;;
  log_msg INFO "Loaded csv file" ;;
  ret data.

(** [Awair.read_data]. *)
Definition read_data (self : Awair.t) (input_file : string) : proc Awair.t :=
  found <- os_path_exists (Some input_file) ;;
  if negb found then
    log_msg ERROR "Input file does not exist" ;;
    sys_exit 1
  else
    let extension := os_path.lower (os_path.splitext_ext input_file) in
    if String.eqb extension ".db" then
      data <- _read_sqlite input_file ;;
      ret (Awair.mk (Some (RawFrame data)) (Awair.hourly self)
             (Awair.daily self) (Awair.monthly self))
    else if String.eqb extension ".csv" then
      data <- _read_csv input_file ;;
      ret (Awair.mk (Some (RawFrame data)) (Awair.hourly self)
             (Awair.daily self) (Awair.monthly self))
    else
      log_msg ERROR
        "Invalid source extension. Permitted extensions are .db for sqlite file or .csv" ;;
      sys_exit 1.

(** [Awair.__init__]. *)
Definition Awair_init (input_file : string) : proc Awair.t :=
  read_data (Awair.mk None None None None) input_file.

(** [Awair.export_to_csv]. *)
Definition export_to_csv (data : csv_frame) (output_dir output_file : string)
    : proc unit :=
  let output_path := os_path.join output_dir output_file in
  to_csv data output_path ;;
  log_msg INFO ("Exported data to the file " ++ output_path).

(** [Awair.preprocess_data] with its default arguments; the four cleaning
    steps each assign [self.data]. *)
Definition preprocess_data (self : Awair.t) (output_dir : string)
    : proc Awair.t :=
  let lower_band := "2019-04-01" in
  let upper_band := "2019-05-01" in
  match Awair.data self with
  | None => raise AssertionError
  | Some frame =>
      let converted :=
        match frame with
        | RawFrame raw => convert_datetime to_datetime raw
        | CleanFrame data => Some data
        end in
      match converted with
      | None => raise (OtherError "ParserError")
      | Some data0 =>
          log_msg INFO "Converted inconsistent date formats" ;;
          let data1 := remove_duplicates data0 in
          let diff := Z.of_nat (List.length data0) - Z.of_nat (List.length data1) in
          log_msg INFO ("Removed " ++ str_int diff ++ " duplicated rows") ;;
          let data2 := Awair_sort_values data1 in
          log_msg INFO "Sorted values by ['station_id', 'measure_time']" ;;
          let data3 := limit_time_range Timestamp lower_band upper_band data2 in
          log_msg INFO
            ("Limited data to the time period between " ++ lower_band
             ++ " and " ++ upper_band) ;;
          export_to_csv (DataCsv data3) output_dir "data.csv" ;;
          ret (Awair.mk (Some (CleanFrame data3)) (Awair.hourly self)
                 (Awair.daily self) (Awair.monthly self))
      end
  end.

(** [Awair.generate_hourly_stats]. *)
Definition generate_hourly_stats (self : Awair.t) (output_dir : string)
    : proc Awair.t :=
  match Awair.data self with
  | None => raise AssertionError
  | Some (RawFrame _) => raise (OtherError "AttributeError")
  | Some (CleanFrame data) =>
      let hourly := hourly_stats dt_date dt_hour data in
      log_msg INFO "Calculated the hourly average" ;;
      export_to_csv (HourlyCsv hourly) output_dir "hourly_stats.csv" ;;
      ret (Awair.mk (Awair.data self) (Some hourly)
             (Awair.daily self) (Awair.monthly self))
  end.

(** [Awair.generate_daily_stats]: [daily_stats] with [min_hour=18], then
    [perc_of_norm] with [norm=50]. *)
Definition generate_daily_stats (self : Awair.t) (output_dir : string)
    : proc Awair.t :=
  match Awair.hourly self with
  | None => raise AssertionError
  | Some hourly =>
      let daily := daily_stats 18 hourly in
      log_msg INFO "Calculated daily average values" ;;
      let daily := perc_of_norm 50 daily in
      log_msg INFO "Calculated percent of an acceptable norm" ;;
      export_to_csv (DailyCsv daily) output_dir "daily_stats.csv" ;;
      ret (Awair.mk (Awair.data self) (Awair.hourly self)
             (Some daily) (Awair.monthly self))
  end.

(** [Awair.add_station_info], on the frame [self.monthly] holds. *)
Definition add_station_info (monthly : list Monthly.t)
    (station_file : option string) : proc (list MonthlyOut.t) :=
  found <- os_path_exists station_file ;;
  if negb found then
    log_msg ERROR "Station file does not exist" ;;
    sys_exit 1
  else
    match station_file with
    | None => raise TypeError
    | Some path =>
        stations <- read_with read_stations path ;;
        let merged := merge_stations monthly stations in
        log_msg INFO "Monthly stats merged with station info" ;;
        ret merged
    end.

(** [Awair.generate_monthly_stats]: [monthly_stats] first rewrites
    [self.daily], then the station file is read and the frame exported. *)
Definition generate_monthly_stats (self : Awair.t)
    (station_file : option string) (output_dir : string) : proc Awair.t :=
  match Awair.daily self with
  | None => raise AssertionError
  | Some daily =>
      let '(daily', monthly) := monthly_stats daily in
      log_msg INFO "Calculated monthly statistics" ;;
      merged <- add_station_info monthly station_file ;;
      export_to_csv (MonthlyCsv merged) output_dir "monthly_stats.csv" ;;
      ret (Awair.mk (Awair.data self) (Awair.hourly self)
             (Some daily') (Some (MonthlyMerged merged)))
  end.

(** [main], after [argparse]. *)
Definition main (args : arguments) : proc unit :=
  awair_analysis <- Awair_init (input_file args) ;;
  awair_analysis <- preprocess_data awair_analysis (output_dir args) ;;
  awair_analysis <- generate_hourly_stats awair_analysis (output_dir args) ;;
  awair_analysis <- generate_daily_stats awair_analysis (output_dir args) ;;
  awair_analysis <-
    generate_monthly_stats awair_analysis (stations_file args)
      (output_dir args) ;;
  ret tt.

End Driver.

(** * Properties *)

(** ** Rounding *)

Lemma round_values_nearest (value : pynum) :
  nearest_ties_away (Decimal_of_str value) (_round_values value).
Proof. apply quantize_nearest. Qed.

Lemma round_values_Decimal (n : Z) : _round_values (PyDecimal n) = n.
Proof. apply quantize_inject_Z. Qed.


(** C5.  Where [_round_values] returns a number (its argument is no NaN
    and no infinity, and the result has at most 28 digits), it is
    idempotent: rounding the [Decimal] it returned, or the float of the
    same value, returns it again.  It returns the nearest integer and, of
    two nearest integers, the one away from zero (the floats 2.5 and -2.5
    give 3 and -3), which determines it.  It rounds the decimal number that
    the text of its argument denotes, not the binary number the float is:
    the float 1.2345678901234567e+20 is the number 123456789012345667584
    and gives 123456789012345670000; the float 0.5 + 2^-53, whose text is
    0.5000000000000001, gives 1. *)
Theorem round_values_idempotent_half_away :
  (forall value : pynum,
      quantizable value = true ->
      quantizable (PyDecimal (_round_values value)) = true /\
      _round_values (PyDecimal (_round_values value)) = _round_values value /\
      _round_values (PyFloatQ (inject_Z (_round_values value)))
      = _round_values value /\
      nearest_ties_away (Decimal_of_str value) (_round_values value) /\
      (forall n : Z,
          nearest_ties_away (Decimal_of_str value) n ->
          n = _round_values value)) /\
  _round_values (PyFloat 2.5%float) = 3 /\
  _round_values (PyFloat (-2.5)%float) = -3 /\
  _round_values (PyFloat 2.4%float) = 2 /\
  _round_values (PyFloat (-2.6)%float) = -3 /\
  _round_values (PyFloat 0.5000000000000001%float) = 1 /\
  _round_values (PyFloat 0.49999999999999994%float) = 0 /\
  _round_values (PyFloat 1.2345678901234567e+20%float)
  = 123456789012345670000 /\
  Qred (binary64.to_Q 1.2345678901234567e+20%float)
  = inject_Z 123456789012345667584 /\
  (forall v w : pynum,
      quantizable v = true -> quantizable w = true ->
      (Decimal_of_str v == Decimal_of_str w)%Q ->
      _round_values v = _round_values w).
Proof.
  split.
  - intros value Hq. unfold quantizable in *.
    apply andb_true_iff in Hq. destruct Hq as [_ Hprec].
    rewrite round_values_Decimal. cbn [finite andb].
    split; [exact Hprec | split; [reflexivity|]].
    split; [unfold _round_values; cbn [Decimal_of_str];
            apply quantize_inject_Z|].
    split; [apply round_values_nearest|].
    intros n Hn.
    exact (nearest_ties_away_unique _ _ _ Hn (round_values_nearest value)).
  - do 8 (split; [vm_compute; reflexivity|]).
    intros v w _ _ E. unfold _round_values. now rewrite E.
Qed.

Lemma round_values_idempotent_half_away_witness :
  quantizable (PyFloat 3.5%float) = true /\
  _round_values (PyDecimal (_round_values (PyFloat 3.5%float)))
  = _round_values (PyFloat 3.5%float) /\
  nearest_ties_away (Decimal_of_str (PyFloat 3.5%float))
    (_round_values (PyFloat 3.5%float)) /\
  _round_values (PyFloat 3.5%float) = _round_values (PyFloatQ (7 # 2)).
Proof.
  assert (H : quantizable (PyFloat 3.5%float) = true)
    by (vm_compute; reflexivity).
  assert (H' : quantizable (PyFloatQ (7 # 2)) = true)
    by (vm_compute; reflexivity).
  destruct round_values_idempotent_half_away as [Hall [_ [_ [_ [_ [_ [_ [_ [_ Hfun]]]]]]]]].
  destruct (Hall (PyFloat 3.5%float) H) as [_ [Hi [_ [Hn _]]]].
  split; [exact H | split; [exact Hi | split; [exact Hn|]]].
  apply (Hfun (PyFloat 3.5%float) (PyFloatQ (7 # 2)) H H').
  vm_compute. reflexivity.
Defined.

(** ** The time window *)

(** C6.  [limit_time_range] keeps exactly the rows whose [measure_time] is
    an instant at or after the lower bound and before the upper bound, both
    bounds read as instants of the column's time zone; a row at the lower
    bound of a non-empty window is kept and a row at the upper bound is
    dropped. *)
Theorem limit_time_range_half_open
    (Timestamp : string -> Z) (lower_band upper_band : string)
    (data : list Reading.t) (r : Reading.t) :
  (In r (limit_time_range Timestamp lower_band upper_band data) <->
   In r data /\
   exists t : Z,
     Reading.measure_time r = Some t /\
     Timestamp lower_band <= t < Timestamp upper_band) /\
  (In r data ->
   Reading.measure_time r = Some (Timestamp lower_band) ->
   Timestamp lower_band < Timestamp upper_band ->
   In r (limit_time_range Timestamp lower_band upper_band data)) /\
  (Reading.measure_time r = Some (Timestamp upper_band) ->
   ~ In r (limit_time_range Timestamp lower_band upper_band data)).
Proof.
  assert (Hiff :
    In r (limit_time_range Timestamp lower_band upper_band data) <->
    In r data /\
    exists t : Z,
      Reading.measure_time r = Some t /\
      Timestamp lower_band <= t < Timestamp upper_band).
  { unfold limit_time_range. rewrite filter_In, andb_true_iff.
    unfold Reading.time_ge, Reading.time_lt.
    destruct (Reading.measure_time r) as [t |].
    - rewrite Z.geb_le, Z.ltb_lt. split.
      + intros [Hin H]. split; [exact Hin|]. exists t. split; [reflexivity | lia].
      + intros [Hin [t' [[= <-] H]]]. split; [exact Hin | lia].
    - split.
      + intros [_ [H _]]. discriminate H.
      + intros [_ [t' [H _]]]. discriminate H. }
  split; [exact Hiff | split].
  - intros Hin Hlo Hlt. apply Hiff. split; [exact Hin|].
    exists (Timestamp lower_band). split; [exact Hlo | lia].
  - intros Hhi Hin. apply Hiff in Hin.
    destruct Hin as [_ [t [Ht H]]]. rewrite Hhi in Ht.
    injection Ht as <-. lia.
Qed.

Lemma limit_time_range_half_open_witness :
  let Timestamp := fun s : string =>
    if String.eqb s "2019-04-01" then 100 else 200 in
  let r := Reading.mk 1 (Some 100) 12%float in
  In r (limit_time_range Timestamp "2019-04-01" "2019-05-01"
          [r; Reading.mk 1 (Some 200) 7%float; Reading.mk 1 None 9%float]) /\
  ~ In (Reading.mk 1 (Some 200) 7%float)
       (limit_time_range Timestamp "2019-04-01" "2019-05-01"
          [r; Reading.mk 1 (Some 200) 7%float; Reading.mk 1 None 9%float]).
Proof.
  intros Timestamp r. split.
  - apply (proj1 (proj2 (limit_time_range_half_open Timestamp
             "2019-04-01" "2019-05-01"
             [r; Reading.mk 1 (Some 200) 7%float; Reading.mk 1 None 9%float]
             r))).
    + left. reflexivity.
    + reflexivity.
    + reflexivity.
  - apply (proj2 (proj2 (limit_time_range_half_open Timestamp
             "2019-04-01" "2019-05-01"
             [r; Reading.mk 1 (Some 200) 7%float; Reading.mk 1 None 9%float]
             (Reading.mk 1 (Some 200) 7%float)))).
    reflexivity.
Defined.

(** ** Aggregations *)

Lemma sum_bool_from (bs : list bool) (acc : Z) :
  fold_left (fun a (b : bool) => a + (if b then 1 else 0)) bs acc
  = acc + sum_bool bs.
Proof.
  unfold sum_bool. revert acc.
  induction bs as [| b bs IH]; intros acc; cbn [fold_left]; [lia|].
  rewrite IH, (IH (0 + _)). lia.
Qed.

(** Adding the booleans of a comparison counts the rows that satisfy it. *)
Lemma sum_bool_count {A : Type} (p : A -> bool) (xs : list A) :
  sum_bool (map p xs) = Z.of_nat (List.length (filter p xs)).
Proof.
  induction xs as [| x xs IH]; [reflexivity|].
  cbn [map filter]. unfold sum_bool at 1. cbn [fold_left].
  rewrite sum_bool_from, IH.
  destruct (p x); cbn [List.length]; lia.
Qed.

Lemma filter_length_impl {A : Type} (p q : A -> bool) (xs : list A) :
  (forall x, p x = true -> q x = true) ->
  (List.length (filter p xs) <= List.length (filter q xs))%nat.
Proof.
  intros Hpq.
  induction xs as [| x xs IH]; cbn [filter]; [lia|].
  destruct (p x) eqn:Ep.
  - rewrite (Hpq x Ep). cbn [List.length]. lia.
  - destruct (q x); cbn [List.length]; lia.
Qed.

Lemma Qgt_bool_iff (x y : Q) : Qgt_bool x y = true <-> (y < x)%Q.
Proof.
  unfold Qgt_bool. rewrite negb_true_iff.
  destruct (Qle_bool x y) eqn:E.
  - apply Qle_bool_iff in E. split; [discriminate | lra].
  - split; [intros _ | reflexivity].
    destruct (Qlt_le_dec y x) as [H | H]; [exact H|].
    apply Qle_bool_iff in H. congruence.
Qed.










Lemma fold_Zmax_spec (xs : list Z) (x : Z) :
  In (fold_left Z.max xs x) (x :: xs) /\
  (forall y, In y (x :: xs) -> y <= fold_left Z.max xs x).
Proof.
  revert x. induction xs as [| a xs IH]; intros x; cbn [fold_left].
  - split; [now left|]. intros y [<- | []]. lia.
  - destruct (IH (Z.max x a)) as [Hin Hle]. split.
    + destruct Hin as [E | Hin]; [| right; now right].
      rewrite <- E.
      destruct (Z.max_spec x a) as [[_ ->] | [_ ->]]; [right; now left | now left].
    + intros y Hy.
      assert (Hm : Z.max x a <= fold_left Z.max xs (Z.max x a))
        by (apply Hle; now left).
      destruct Hy as [<- | [<- | Hy]]; [lia | lia | apply Hle; now right].
Qed.

Lemma Zmaximum_spec (xs : list Z) :
  xs <> [] ->
  In (Zmaximum xs) xs /\ (forall y, In y xs -> y <= Zmaximum xs).
Proof.
  destruct xs as [| x xs]; [congruence | intros _]. apply fold_Zmax_spec.
Qed.

(** ** Groups and their keys *)

Section GroupFacts.
Context {K R : Type}.
Variable key : R -> K.
Variable eqb : K -> K -> bool.
Variable leb : K -> K -> bool.
Hypothesis eqb_eq : forall a b, eqb a b = true <-> a = b.

Lemma group_keys_nonempty (rows : list R) (k : K) :
  In k (group_keys key eqb leb rows) <-> get_group key eqb k rows <> [].
Proof.
  split.
  - now apply get_group_nonempty.
  - intros Hne. apply (in_group_keys key eqb leb eqb_eq).
    destruct (get_group key eqb k rows) as [| r g] eqn:E; [congruence|].
    assert (Hr : In r (get_group key eqb k rows)) by (rewrite E; now left).
    apply (in_get_group key eqb eqb_eq) in Hr. eauto.
Qed.

(** In a list of distinct keys a key is met once or never. *)
Lemma count_key_NoDup (ks : list K) (k : K) :
  NoDup ks ->
  (In k ks -> List.length (filter (fun k' => eqb k' k) ks) = 1%nat) /\
  (~ In k ks -> List.length (filter (fun k' => eqb k' k) ks) = 0%nat).
Proof.
  clear leb key.
  induction 1 as [| a ks Hnotin Hnd IH]; cbn [filter In].
  - split; [intros [] | reflexivity].
  - destruct IH as [IH1 IH0].
    destruct (eqb a k) eqn:E.
    + apply eqb_eq in E. subst a. cbn [List.length].
      split; [intros _; now rewrite (IH0 Hnotin)|].
      intros H. exfalso. apply H. now left.
    + assert (a <> k) by (intros ->; rewrite (proj2 (eqb_eq k k) eq_refl) in E;
                          discriminate).
      split.
      * intros [-> | Hin]; [congruence | now apply IH1].
      * intros Hn. apply IH0. tauto.
Qed.

Lemma filter_map_length {A : Type} (f : A -> K) (p : K -> bool) (l : list A) :
  List.length (filter (fun a => p (f a)) l)
  = List.length (filter p (map f l)).
Proof.
  induction l as [| a l IH]; [reflexivity|].
  cbn [map filter]. destruct (p (f a)); cbn [List.length]; now rewrite IH.
Qed.

(** A group that passes [groupby(...).filter] is kept whole, the others
    are dropped. *)
Lemma get_group_groupby_filter (func : list R -> bool) (rows : list R) (k : K) :
  get_group key eqb k (groupby_filter key eqb func rows)
  = if func (get_group key eqb k rows) then get_group key eqb k rows else [].
Proof.
  unfold get_group at 1. unfold groupby_filter.
  assert (Hgen : forall l,
    filter (fun r => eqb (key r) k)
           (filter (fun r => func (get_group key eqb (key r) rows)) l)
    = if func (get_group key eqb k rows)
      then filter (fun r => eqb (key r) k) l else []).
  { induction l as [| a l IH]; cbn [filter].
    - now destruct (func _).
    - destruct (eqb (key a) k) eqn:E.
      + assert (Ek : key a = k) by now apply eqb_eq.
        destruct (func (get_group key eqb (key a) rows)) eqn:F;
          rewrite Ek in F; rewrite F in *; cbn [filter];
          rewrite ?E, IH; reflexivity.
      + destruct (func (get_group key eqb (key a) rows));
          cbn [filter]; rewrite ?E; exact IH. }
  apply Hgen.
Qed.

End GroupFacts.

(** ** The hourly stage *)

(** The key columns of a row of the hourly frame. *)
Definition hourly_row_key (h : Hourly.t) : hour_key :=
  (Hourly.station_id h, Hourly.date h, Hourly.hour h).

(** The row [hourly_stats] builds for one group. *)
Definition hourly_row (k : hour_key) (group : list (hour_key * float))
    : Hourly.t :=
  Hourly.mk (fst (fst k)) (snd (fst k)) (snd k)
    (_round_values (PyFloat (binary64.mean (map snd group)))).



Section HourlyFacts.
Variable dt_date : Z -> datetime.date.
Variable dt_hour : Z -> Z.

Let frame := hourly_frame dt_date dt_hour.
Let key : hour_key * float -> hour_key := fst.

Lemma in_hourly_frame (data : list Reading.t) (k : hour_key) (v : float) :
  In (k, v) (frame data) <->
  exists r t,
    In r data /\ Reading.measure_time r = Some t /\
    k = (Reading.station_id r, dt_date t, dt_hour t) /\
    v = Reading.value r.
Proof.
  unfold frame, hourly_frame. rewrite in_flat_map. split.
  - intros [r [Hin Hd]]. unfold hourly_columns, dropna in Hd.
    destruct (Reading.measure_time r) as [t |] eqn:Et; cbn in Hd;
      [| contradiction].
    destruct Hd as [[= <- <-] | []]. exists r, t. auto.
  - intros [r [t [Hin [Et [-> ->]]]]]. exists r. split; [exact Hin|].
    unfold hourly_columns, dropna. rewrite Et. cbn. now left.
Qed.



Lemma hourly_stats_rows (data : list Reading.t) :
  hourly_stats dt_date dt_hour data
  = map (fun k => hourly_row k (get_group key hour_key_eqb k (frame data)))
        (group_keys key hour_key_eqb hour_key_leb (frame data)).
Proof.
  unfold hourly_stats, groupby. rewrite map_map.
  apply map_ext. intros [[s d] h]. reflexivity.
Qed.

Lemma map_key_hourly_stats (data : list Reading.t) :
  map hourly_row_key (hourly_stats dt_date dt_hour data)
  = group_keys key hour_key_eqb hour_key_leb (frame data).
Proof.
  rewrite hourly_stats_rows, map_map.
  rewrite <- (map_id (group_keys _ _ _ _)) at 2.
  apply map_ext. intros [[s d] h]. reflexivity.
Qed.





End HourlyFacts.





(** ** The daily stage *)

(** The key columns of a row of the daily frame. *)
Definition daily_row_key (r : Daily.t) : day_key :=
  (Daily.station_id r, Daily.date r).

(** The hourly values of a group, as the float column [daily_stats]
    aggregates. *)
Definition hourly_values (group : list Hourly.t) : list Q :=
  map (fun r => astype_float (PyDecimal (Hourly.value r))) group.

(** The row [daily_stats] builds for one group. *)
Definition daily_row (k : day_key) (group : list Hourly.t) : Daily.t :=
  Daily.mk (fst k) (snd k)
    (_round_values (PyFloatQ (minimum (hourly_values group))))
    (_round_values (PyFloatQ (maximum (hourly_values group))))
    (PyDecimal (_round_values (PyFloatQ (mean (hourly_values group)))))
    None.

(** The completeness gate of [daily_stats]. *)
Definition enough_hours (min_hour : Z) (x : list Hourly.t) : bool :=
  count (map Hourly.hour x) >=? min_hour.

Section DailyFacts.
Variable min_hour : Z.
Variable hourly : list Hourly.t.

Let kept := groupby_filter daily_key day_key_eqb (enough_hours min_hour) hourly.

Lemma daily_stats_rows :
  daily_stats min_hour hourly
  = map (fun k => daily_row k (get_group daily_key day_key_eqb k kept))
        (group_keys daily_key day_key_eqb day_key_leb kept).
Proof.
  unfold daily_stats, groupby. rewrite map_map.
  apply map_ext. intros [s d]. reflexivity.
Qed.

Lemma get_group_kept (k : day_key) :
  get_group daily_key day_key_eqb k kept
  = if enough_hours min_hour (get_group daily_key day_key_eqb k hourly)
    then get_group daily_key day_key_eqb k hourly else [].
Proof. apply get_group_groupby_filter, day_key_eqb_eq. Qed.

Lemma map_key_daily_stats :
  map daily_row_key (daily_stats min_hour hourly)
  = group_keys daily_key day_key_eqb day_key_leb kept.
Proof.
  rewrite daily_stats_rows, map_map.
  rewrite <- (map_id (group_keys _ _ _ _)) at 2.
  apply map_ext. intros [s d]. reflexivity.
Qed.

Lemma in_daily_stats (r : Daily.t) :
  In r (daily_stats min_hour hourly) <->
  get_group daily_key day_key_eqb (daily_row_key r) hourly <> [] /\
  enough_hours min_hour
    (get_group daily_key day_key_eqb (daily_row_key r) hourly) = true /\
  r = daily_row (daily_row_key r)
        (get_group daily_key day_key_eqb (daily_row_key r) hourly).
Proof.
  rewrite daily_stats_rows, in_map_iff. split.
  - intros [k [E Hk]].
    assert (Ek : daily_row_key r = k)
      by (rewrite <- E; destruct k as [s d]; reflexivity).
    rewrite Ek.
    apply (group_keys_nonempty daily_key day_key_eqb day_key_leb day_key_eqb_eq)
      in Hk.
    rewrite get_group_kept in Hk, E.
    destruct (enough_hours min_hour (get_group daily_key day_key_eqb k hourly));
      [| congruence].
    repeat split; [exact Hk | now symmetry].
  - intros [Hne [Hen E]]. exists (daily_row_key r).
    rewrite get_group_kept, Hen. split; [now symmetry|].
    apply (group_keys_nonempty daily_key day_key_eqb day_key_leb day_key_eqb_eq).
    now rewrite get_group_kept, Hen.
Qed.

Lemma count_daily_rows (k : day_key) :
  List.length
    (filter (fun r => day_key_eqb (daily_row_key r) k)
            (daily_stats min_hour hourly))
  = match get_group daily_key day_key_eqb k hourly with
    | [] => 0%nat
    | x => if enough_hours min_hour x then 1%nat else 0%nat
    end.
Proof.
  rewrite (filter_map_length daily_row_key (fun k' => day_key_eqb k' k)).
  rewrite map_key_daily_stats.
  destruct (count_key_NoDup day_key_eqb day_key_eqb_eq
              (group_keys daily_key day_key_eqb day_key_leb kept) k
              (NoDup_group_keys daily_key day_key_eqb day_key_leb
                 day_key_eqb_eq kept))
    as [H1 H0].
  pose proof (group_keys_nonempty daily_key day_key_eqb day_key_leb
                day_key_eqb_eq kept k) as Hk.
  rewrite get_group_kept in Hk.
  destruct (get_group daily_key day_key_eqb k hourly) as [| h g] eqn:E.
  - apply H0. intros Hin. apply Hk in Hin.
    now destruct (enough_hours min_hour []).
  - destruct (enough_hours min_hour (h :: g)).
    + apply H1, Hk. congruence.
    + apply H0. intros Hin. now apply Hk in Hin.
Qed.

End DailyFacts.

(** C2.  For every (station, date) that some hourly row carries, the daily
    frame has a row for it exactly when the number of its hourly rows is at
    least [min_hour], and then it has one row.  With the default threshold
    a group of 17 rows is left out and a group of 18 rows is kept.  Leaving
    groups out is no error: [daily_stats] is a total function, and
    [generate_daily_stats] returns with the frame whenever it can write its
    file. *)
Theorem daily_stats_completeness_gate
    (min_hour : Z) (hourly : list Hourly.t)
    (station_id : Z) (date : datetime.date) :
  let k : day_key := (station_id, date) in
  let group := get_group daily_key day_key_eqb k hourly in
  let rows_of := fun threshold =>
    filter (fun r => day_key_eqb (daily_row_key r) k)
           (daily_stats threshold hourly) in
  (forall h, In h group <->
             In h hourly /\ Hourly.station_id h = station_id /\
             Hourly.date h = date) /\
  (group <> [] ->
   ((exists r, In r (daily_stats min_hour hourly) /\
               Daily.station_id r = station_id /\ Daily.date r = date) <->
    min_hour <= Z.of_nat (List.length group)) /\
   (min_hour <= Z.of_nat (List.length group) ->
    exists r, rows_of min_hour = [r]) /\
   (Z.of_nat (List.length group) < min_hour -> rows_of min_hour = [])) /\
  (List.length group = 17%nat -> rows_of 18 = []) /\
  (List.length group = 18%nat -> exists r, rows_of 18 = [r]) /\
  (forall (self : Awair.t) (output_dir : string) (w : world),
      Awair.hourly self = Some hourly ->
      writable w (os_path.join output_dir "daily_stats.csv") = true ->
      fst (generate_daily_stats self output_dir w)
      = Ok (Awair.mk (Awair.data self) (Awair.hourly self)
              (Some (perc_of_norm 50 (daily_stats 18 hourly)))
              (Awair.monthly self))).
Proof.
  intros k group rows_of.
  assert (Hgroup : forall h, In h group <->
             In h hourly /\ Hourly.station_id h = station_id /\
             Hourly.date h = date).
  { intros h. unfold group.
    rewrite (in_get_group _ _ day_key_eqb_eq). unfold daily_key, k.
    split.
    - intros [Hin [= E1 E2]]. auto.
    - intros [Hin [E1 E2]]. split; [exact Hin | congruence]. }
  assert (Hen : forall threshold,
            enough_hours threshold group = true <->
            threshold <= Z.of_nat (List.length group)).
  { intros threshold. unfold enough_hours, count.
    rewrite length_map, Z.geb_le. tauto. }
  assert (Hcount : forall threshold,
            group <> [] ->
            List.length (rows_of threshold)
            = if enough_hours threshold group then 1%nat else 0%nat).
  { intros threshold Hne. unfold rows_of.
    rewrite (count_daily_rows threshold hourly k). fold group.
    destruct group; [congruence | reflexivity]. }
  assert (Hone : forall threshold,
            group <> [] -> threshold <= Z.of_nat (List.length group) ->
            exists r, rows_of threshold = [r]).
  { intros threshold Hne Hle. specialize (Hcount threshold Hne).
    rewrite (proj2 (Hen threshold) Hle) in Hcount.
    destruct (rows_of threshold) as [| r [| r' l]]; try discriminate.
    now exists r. }
  assert (Hnone : forall threshold,
            group <> [] -> Z.of_nat (List.length group) < threshold ->
            rows_of threshold = []).
  { intros threshold Hne Hlt. specialize (Hcount threshold Hne).
    destruct (enough_hours threshold group) eqn:E.
    - apply Hen in E. lia.
    - destruct (rows_of threshold); [reflexivity | discriminate]. }
  split; [exact Hgroup | split; [| split; [| split]]].
  - intros Hne. split; [| split].
    + split.
      * intros [r [Hin [E1 E2]]].
        apply in_daily_stats in Hin. destruct Hin as [_ [Hin _]].
        unfold daily_row_key in Hin. rewrite E1, E2 in Hin.
        now apply Hen.
      * intros Hle. destruct (Hone min_hour Hne Hle) as [r Hr].
        assert (Hin : In r (rows_of min_hour)) by (rewrite Hr; now left).
        unfold rows_of in Hin. apply filter_In in Hin.
        destruct Hin as [Hin Hk]. apply day_key_eqb_eq in Hk.
        exists r. unfold daily_row_key, k in Hk.
        injection Hk as E1 E2. auto.
    + now apply Hone.
    + now apply Hnone.
  - intros Hlen. apply Hnone; [| lia].
    intros E. rewrite E in Hlen. discriminate.
  - intros Hlen. apply Hone; [| lia].
    intros E. rewrite E in Hlen. discriminate.
  - intros self output_dir w Hh Hw.
    unfold generate_daily_stats. rewrite Hh.
    unfold bind, export_to_csv, bind, to_csv, log_msg.
    cbn [writable]. rewrite Hw. reflexivity.
Qed.

(** A frame with 18 hourly rows for station 1 and 17 for station 2, on the
    same day. *)
Definition eighteen_and_seventeen : list Hourly.t :=
  map (fun h => Hourly.mk 1 (datetime.mkdate 2019 4 1) (Z.of_nat h) 30)
      (seq 0 18)
  ++ map (fun h => Hourly.mk 2 (datetime.mkdate 2019 4 1) (Z.of_nat h) 30)
         (seq 0 17).

Lemma daily_stats_completeness_gate_witness :
  (List.length
     (get_group daily_key day_key_eqb (1, datetime.mkdate 2019 4 1)
        eighteen_and_seventeen) = 18%nat /\
   exists r,
     filter (fun r => day_key_eqb (daily_row_key r)
                        (1, datetime.mkdate 2019 4 1))
            (daily_stats 18 eighteen_and_seventeen) = [r]) /\
  (List.length
     (get_group daily_key day_key_eqb (2, datetime.mkdate 2019 4 1)
        eighteen_and_seventeen) = 17%nat /\
   filter (fun r => day_key_eqb (daily_row_key r)
                      (2, datetime.mkdate 2019 4 1))
          (daily_stats 18 eighteen_and_seventeen) = []).
Proof.
  split; (split; [reflexivity|]).
  - apply (proj1 (proj2 (proj2 (proj2
      (daily_stats_completeness_gate 18 eighteen_and_seventeen
         1 (datetime.mkdate 2019 4 1)))))).
    reflexivity.
  - apply (proj1 (proj2 (proj2
      (daily_stats_completeness_gate 18 eighteen_and_seventeen
         2 (datetime.mkdate 2019 4 1))))).
    reflexivity.
Defined.

Lemma perc_of_norm_rows (norm : Z) (daily : list Daily.t) (r : Daily.t) :
  In r (perc_of_norm norm daily) <->
  exists r0,
    In r0 daily /\
    r = Daily.mk (Daily.station_id r0) (Daily.date r0)
          (Daily.min r0) (Daily.max r0) (Daily.mean r0)
          (Some (decimal.quantize
                   (Decimal_of_str (Daily.mean r0) / inject_Z norm
                    * inject_Z 100)%Q)).
Proof.
  unfold perc_of_norm. rewrite in_map_iff.
  split; intros [r0 [H1 H2]]; exists r0; auto.
Qed.




Lemma quantize_percent_of_50 (m : Z) :
  decimal.quantize (inject_Z m / inject_Z 50 * inject_Z 100)%Q = 2 * m.
Proof.
  assert (E : (inject_Z m / inject_Z 50 * inject_Z 100 == inject_Z (2 * m))%Q).
  { rewrite inject_Z_mult. change (inject_Z 2) with 2%Q.
    change (inject_Z 50) with 50%Q. change (inject_Z 100) with 100%Q.
    field. }
  rewrite E. apply quantize_inject_Z.
Qed.

(** C7.  The column [perc_of_norm] of every daily row is the row's (rounded)
    mean divided by the norm and multiplied by 100, rounded to the nearest
    integer with ties away from zero; with the norm 50 of the pipeline it is
    twice the mean, and a mean of 75 gives 150. *)
Theorem perc_of_norm_rounded_ratio
    (norm : Z) (daily : list Daily.t) (r : Daily.t) :
  In r (perc_of_norm norm daily) ->
  exists p : Z,
    Daily.perc_of_norm r = Some p /\
    nearest_ties_away
      (Decimal_of_str (Daily.mean r) / inject_Z norm * inject_Z 100)%Q p /\
    (exists r0, In r0 daily /\
                Daily.station_id r = Daily.station_id r0 /\
                Daily.date r = Daily.date r0 /\
                Daily.mean r = Daily.mean r0) /\
    (norm = 50 -> forall m : Z, Daily.mean r = PyDecimal m -> p = 2 * m) /\
    (norm = 50 -> Daily.mean r = PyDecimal 75 -> p = 150).
Proof.
  intros Hin. apply perc_of_norm_rows in Hin.
  destruct Hin as [r0 [Hin ->]]. cbn [Daily.perc_of_norm Daily.mean].
  eexists. split; [reflexivity|]. split; [apply quantize_nearest|].
  split; [exists r0; cbn; auto|].
  split.
  - intros -> m ->. cbn [Decimal_of_str]. apply quantize_percent_of_50.
  - intros -> ->. cbn [Decimal_of_str]. apply quantize_percent_of_50.
Qed.

Lemma perc_of_norm_rounded_ratio_witness :
  let daily := [Daily.mk 1 (datetime.mkdate 2019 4 1) 60 90 (PyDecimal 75) None] in
  let r := Daily.mk 1 (datetime.mkdate 2019 4 1) 60 90 (PyDecimal 75) (Some 150) in
  In r (perc_of_norm 50 daily) /\
  exists p : Z, Daily.perc_of_norm r = Some p /\ p = 150.
Proof.
  intros daily r.
  assert (Hin : In r (perc_of_norm 50 daily)) by (left; reflexivity).
  split; [exact Hin|].
  destruct (perc_of_norm_rounded_ratio 50 daily r Hin)
    as [p [Hp [_ [_ [_ H75]]]]].
  exists p. split; [exact Hp | now apply H75].
Defined.

(** ** The monthly stage *)

(** The key columns of a row of the monthly frame. *)
Definition monthly_row_key (m : Monthly.t) : day_key :=
  (Monthly.station_id m, Monthly.date m).

(** The station and the month of a daily row. *)
Definition month_key (r : Daily.t) : day_key :=
  (Daily.station_id r, astype_datetime64_M (Daily.date r)).

(** The daily mean of a row, as a number. *)
Definition daily_mean (r : Daily.t) : Q := astype_float (Daily.mean r).

(** What the two column assignments of [monthly_stats] make of one row. *)
Definition cast_row (r : Daily.t) : Daily.t :=
  Daily.mk (Daily.station_id r) (astype_datetime64_M (Daily.date r))
    (Daily.min r) (Daily.max r) (PyFloatQ (astype_float (Daily.mean r)))
    (Daily.perc_of_norm r).

(** The number of days of a group whose mean is strictly above a
    threshold, in the words of the specification. *)
Definition days_with_mean_above (threshold : Q) (group : list Daily.t) : Z :=
  Z.of_nat
    (List.length
       (filter (fun r => if Qlt_le_dec threshold (daily_mean r)
                         then true else false) group)).

Lemma monthly_casts_map (daily : list Daily.t) :
  monthly_casts daily = map cast_row daily.
Proof. unfold monthly_casts. rewrite map_map. reflexivity. Qed.

Lemma filter_map_comm {A B : Type} (f : A -> B) (p : B -> bool) (l : list A) :
  filter p (map f l) = map f (filter (fun a => p (f a)) l).
Proof.
  induction l as [| a l IH]; [reflexivity|].
  cbn [map filter]. destruct (p (f a)); cbn [map]; now rewrite IH.
Qed.

Lemma get_group_monthly_casts (k : day_key) (daily : list Daily.t) :
  get_group monthly_key day_key_eqb k (monthly_casts daily)
  = monthly_casts (get_group month_key day_key_eqb k daily).
Proof.
  rewrite !monthly_casts_map. unfold get_group.
  now rewrite filter_map_comm.
Qed.

Lemma monthly_agg_casts (k : day_key) (group : list Daily.t) :
  monthly_agg (k, monthly_casts group)
  = Monthly.mk (fst k) (snd k)
      (_round_values (PyFloatQ (mean (map daily_mean group))))
      (Z.of_nat (List.length group))
      (sum_bool (map (fun r => Qgt_bool (daily_mean r) (inject_Z 50)) group))
      (sum_bool (map (fun r => Qgt_bool (daily_mean r) (inject_Z 200)) group))
      (sum_bool (map (fun r => Qgt_bool (daily_mean r) (inject_Z 300)) group))
      (_round_values (PyDecimal (Zmaximum (map Daily.max group)))).
Proof.
  unfold monthly_agg. cbn [fst snd].
  rewrite monthly_casts_map, !map_map. unfold count. rewrite length_map.
  reflexivity.
Qed.

Lemma sum_bool_days_above (threshold : Z) (group : list Daily.t) :
  sum_bool (map (fun r => Qgt_bool (daily_mean r) (inject_Z threshold)) group)
  = days_with_mean_above (inject_Z threshold) group.
Proof.
  rewrite sum_bool_count. unfold days_with_mean_above. do 2 f_equal.
  apply filter_ext. intros r.
  destruct (Qlt_le_dec (inject_Z threshold) (daily_mean r)) as [H | H].
  - now apply Qgt_bool_iff.
  - destruct (Qgt_bool (daily_mean r) (inject_Z threshold)) eqn:E;
      [| reflexivity].
    apply Qgt_bool_iff in E. lra.
Qed.

Section MonthlyFacts.
Variable daily : list Daily.t.

Let casts := monthly_casts daily.

Lemma monthly_stats_perm :
  Permutation
    (map (fun k => monthly_agg (k, get_group monthly_key day_key_eqb k casts))
         (group_keys monthly_key day_key_eqb day_key_leb casts))
    (snd (monthly_stats daily)).
Proof.
  unfold monthly_stats. cbn [snd]. fold casts.
  unfold groupby. rewrite map_map. apply sort_values_perm.
Qed.

Lemma map_key_monthly_stats :
  Permutation (group_keys monthly_key day_key_eqb day_key_leb casts)
              (map monthly_row_key (snd (monthly_stats daily))).
Proof.
  rewrite <- monthly_stats_perm, map_map.
  rewrite <- (map_id (group_keys _ _ _ _)) at 1.
  erewrite map_ext; [reflexivity|].
  intros [s d]. reflexivity.
Qed.

Lemma in_monthly_stats (m : Monthly.t) :
  In m (snd (monthly_stats daily)) <->
  get_group month_key day_key_eqb (monthly_row_key m) daily <> [] /\
  m = monthly_agg (monthly_row_key m,
                   monthly_casts
                     (get_group month_key day_key_eqb (monthly_row_key m) daily)).
Proof.
  assert (Hne : forall k,
            In k (group_keys monthly_key day_key_eqb day_key_leb casts) <->
            get_group month_key day_key_eqb k daily <> []).
  { intros k.
    rewrite (group_keys_nonempty monthly_key day_key_eqb day_key_leb
               day_key_eqb_eq).
    unfold casts. rewrite get_group_monthly_casts, monthly_casts_map.
    destruct (get_group month_key day_key_eqb k daily); cbn [map];
      split; congruence. }
  split.
  - intros Hin.
    apply (Permutation_in _ (Permutation_sym monthly_stats_perm)) in Hin.
    apply in_map_iff in Hin. destruct Hin as [k [E Hk]].
    assert (Ek : monthly_row_key m = k)
      by (rewrite <- E; destruct k as [s d]; reflexivity).
    rewrite Ek. unfold casts in E. rewrite get_group_monthly_casts in E.
    split; [now apply Hne | now symmetry].
  - intros [Hg E].
    apply (Permutation_in _ monthly_stats_perm).
    apply in_map_iff. exists (monthly_row_key m).
    unfold casts. rewrite get_group_monthly_casts.
    split; [now symmetry | now apply Hne].
Qed.

Lemma count_monthly_rows (k : day_key) :
  List.length
    (filter (fun m => day_key_eqb (monthly_row_key m) k)
            (snd (monthly_stats daily)))
  = match get_group month_key day_key_eqb k daily with
    | [] => 0%nat
    | _ :: _ => 1%nat
    end.
Proof.
  rewrite (filter_map_length monthly_row_key (fun k' => day_key_eqb k' k)).
  assert (Hnd : NoDup (map monthly_row_key (snd (monthly_stats daily)))).
  { eapply Permutation_NoDup; [apply map_key_monthly_stats|].
    apply NoDup_group_keys, day_key_eqb_eq. }
  destruct (count_key_NoDup day_key_eqb day_key_eqb_eq _ k Hnd) as [H1 H0].
  assert (Hin : In k (map monthly_row_key (snd (monthly_stats daily))) <->
                get_group month_key day_key_eqb k daily <> []).
  { split.
    - intros Hin.
      apply (Permutation_in _ (Permutation_sym map_key_monthly_stats)) in Hin.
      apply (group_keys_nonempty monthly_key day_key_eqb day_key_leb
               day_key_eqb_eq) in Hin.
      unfold casts in Hin.
      rewrite get_group_monthly_casts, monthly_casts_map in Hin.
      destruct (get_group month_key day_key_eqb k daily); [| congruence].
      now cbn in Hin.
    - intros Hne.
      apply (Permutation_in _ map_key_monthly_stats).
      apply (group_keys_nonempty monthly_key day_key_eqb day_key_leb
               day_key_eqb_eq).
      unfold casts. rewrite get_group_monthly_casts, monthly_casts_map.
      destruct (get_group month_key day_key_eqb k daily); [congruence|].
      cbn [map]. congruence. }
  destruct (get_group month_key day_key_eqb k daily) as [| r g].
  - apply H0. intros H. now apply Hin in H.
  - apply H1, Hin. congruence.
Qed.

End MonthlyFacts.

(** The row of the monthly frame for a key whose group is not empty. *)
Lemma monthly_rows_of_group (daily : list Daily.t) (k : day_key) :
  let group := get_group month_key day_key_eqb k daily in
  let rows := filter (fun m => day_key_eqb (monthly_row_key m) k)
                     (snd (monthly_stats daily)) in
  (group = [] -> rows = []) /\
  (group <> [] -> rows = [monthly_agg (k, monthly_casts group)]).
Proof.
  intros group rows.
  assert (Hcount := count_monthly_rows daily k). fold group rows in Hcount.
  split; intros Hg.
  - rewrite Hg in Hcount. destruct rows; [reflexivity | discriminate].
  - destruct group as [| r0 g0] eqn:Eg; [congruence|].
    destruct rows as [| m [| m' rows']] eqn:Er; try discriminate.
    assert (Hin : In m rows) by (rewrite Er; now left).
    unfold rows in Hin. apply filter_In in Hin. destruct Hin as [Hin Hk].
    apply day_key_eqb_eq in Hk.
    apply in_monthly_stats in Hin. destruct Hin as [_ Hm].
    rewrite Hk in Hm. fold group in Hm. rewrite Eg in Hm. now rewrite Hm.
Qed.

(** C4.  For every (station, month) that some daily row falls in, the
    monthly frame has one row, with: [mean] the mean of the (rounded) daily
    means, rounded half away from zero; [max] the rounded greatest daily
    max; [days_num] the number of daily rows of the group; [days_abv_norm],
    [days_abv_200], [days_abv_300] the numbers of rows whose daily mean is
    strictly above 50, 200 and 300.  Daily means 40, 60, 210, 310 give
    3, 2, 1 and 4 days. *)
Theorem monthly_stats_group_summary
    (daily : list Daily.t) (station_id : Z) (month : datetime.date) :
  let k : day_key := (station_id, month) in
  let group := get_group month_key day_key_eqb k daily in
  let rows := filter (fun m => day_key_eqb (monthly_row_key m) k)
                     (snd (monthly_stats daily)) in
  (forall r, In r group <->
             In r daily /\ Daily.station_id r = station_id /\
             astype_datetime64_M (Daily.date r) = month) /\
  (group <> [] ->
   exists m : Monthly.t,
     rows = [m] /\
     Monthly.station_id m = station_id /\ Monthly.date m = month /\
     nearest_ties_away (mean (map daily_mean group)) (Monthly.mean m) /\
     (exists greatest : Z,
        In greatest (map Daily.max group) /\
        (forall r, In r group -> Daily.max r <= greatest) /\
        nearest_ties_away (inject_Z greatest) (Monthly.max m) /\
        Monthly.max m = greatest) /\
     Monthly.days_num m = Z.of_nat (List.length group) /\
     Monthly.days_abv_norm m = days_with_mean_above (inject_Z 50) group /\
     Monthly.days_abv_200 m = days_with_mean_above (inject_Z 200) group /\
     Monthly.days_abv_300 m = days_with_mean_above (inject_Z 300) group) /\
  (map Daily.mean group
   = [PyDecimal 40; PyDecimal 60; PyDecimal 210; PyDecimal 310] ->
   exists m : Monthly.t,
     rows = [m] /\
     Monthly.days_abv_norm m = 3 /\ Monthly.days_abv_200 m = 2 /\
     Monthly.days_abv_300 m = 1 /\ Monthly.days_num m = 4 /\
     Monthly.mean m = 155).
Proof.
  intros k group rows.
  destruct (monthly_rows_of_group daily k) as [_ Hrows].
  fold group rows in Hrows.
  split; [| split].
  - intros r. unfold group.
    rewrite (in_get_group _ _ day_key_eqb_eq). unfold month_key, k.
    split.
    + intros [Hin [= E1 E2]]. auto.
    + intros [Hin [E1 E2]]. split; [exact Hin | congruence].
  - intros Hne. rewrite (Hrows Hne), monthly_agg_casts.
    eexists. split; [reflexivity|].
    cbn [Monthly.station_id Monthly.date Monthly.mean Monthly.max
         Monthly.days_num Monthly.days_abv_norm Monthly.days_abv_200
         Monthly.days_abv_300 fst snd k].
    assert (Hmx : map Daily.max group <> [])
      by (destruct group; [congruence | discriminate]).
    destruct (Zmaximum_spec _ Hmx) as [Hin Hle].
    repeat split.
    + apply (round_values_nearest (PyFloatQ (mean (map daily_mean group)))).
    + apply (round_values_nearest (PyFloatQ (mean (map daily_mean group)))).
    + exists (Zmaximum (map Daily.max group)).
      repeat split.
      * exact Hin.
      * intros r Hr. apply Hle. now apply in_map.
      * apply (round_values_nearest (PyDecimal (Zmaximum (map Daily.max group)))).
      * apply (round_values_nearest (PyDecimal (Zmaximum (map Daily.max group)))).
      * apply round_values_Decimal.
    + apply sum_bool_days_above.
    + apply sum_bool_days_above.
    + apply sum_bool_days_above.
  - intros Hmeans.
    assert (Hne : group <> []) by (intros E; rewrite E in Hmeans; discriminate).
    rewrite (Hrows Hne), monthly_agg_casts.
    eexists. split; [reflexivity|].
    cbn [Monthly.mean Monthly.days_num Monthly.days_abv_norm
         Monthly.days_abv_200 Monthly.days_abv_300].
    assert (Hlen : List.length group = 4%nat)
      by (rewrite <- (length_map Daily.mean), Hmeans; reflexivity).
    assert (Hdm : map daily_mean group
                  = [inject_Z 40; inject_Z 60; inject_Z 210; inject_Z 310]).
    { change (map daily_mean group)
        with (map (fun r => astype_float (Daily.mean r)) group).
      rewrite <- (map_map Daily.mean astype_float), Hmeans. reflexivity. }
    rewrite <- !(map_map daily_mean
                  (fun x => Qgt_bool x (inject_Z _))), Hdm, Hlen.
    repeat split; reflexivity.
Qed.

(** Four days of April 2019 with means 40, 60, 210, 310 and a day of May. *)
Definition april_and_may : list Daily.t :=
  [Daily.mk 1 (datetime.mkdate 2019 4 2) 30 55 (PyDecimal 40) (Some 80);
   Daily.mk 1 (datetime.mkdate 2019 4 3) 41 90 (PyDecimal 60) (Some 120);
   Daily.mk 1 (datetime.mkdate 2019 5 1) 20 35 (PyDecimal 25) (Some 50);
   Daily.mk 1 (datetime.mkdate 2019 4 9) 150 280 (PyDecimal 210) (Some 420);
   Daily.mk 1 (datetime.mkdate 2019 4 17) 250 400 (PyDecimal 310) (Some 620)].

Lemma monthly_stats_group_summary_witness :
  map Daily.mean
    (get_group month_key day_key_eqb (1, datetime.mkdate 2019 4 1)
       april_and_may)
  = [PyDecimal 40; PyDecimal 60; PyDecimal 210; PyDecimal 310] /\
  exists m : Monthly.t,
    filter (fun m => day_key_eqb (monthly_row_key m)
                       (1, datetime.mkdate 2019 4 1))
           (snd (monthly_stats april_and_may)) = [m] /\
    Monthly.days_abv_norm m = 3 /\ Monthly.days_abv_200 m = 2 /\
    Monthly.days_abv_300 m = 1 /\ Monthly.days_num m = 4 /\
    Monthly.mean m = 155.
Proof.
  split; [reflexivity|].
  apply (proj2 (proj2
    (monthly_stats_group_summary april_and_may 1 (datetime.mkdate 2019 4 1)))).
  reflexivity.
Defined.

Lemma in_merge_stations (monthly : list Monthly.t) (stations : list Station.t)
    (o : MonthlyOut.t) :
  In o (merge_stations monthly stations) -> In (MonthlyOut.stats o) monthly.
Proof.
  unfold merge_stations. rewrite in_flat_map.
  intros [m [Hm Ho]].
  destruct (filter (fun s => Station.id s =? Monthly.station_id m) stations)
    as [| s found].
  - destruct Ho as [<- | []]. exact Hm.
  - apply in_map_iff in Ho. destruct Ho as [s' [<- _]]. exact Hm.
Qed.

Lemma days_with_mean_above_mono (lo hi : Q) (group : list Daily.t) :
  (lo <= hi)%Q ->
  0 <= days_with_mean_above hi group <= days_with_mean_above lo group
  /\ days_with_mean_above lo group <= Z.of_nat (List.length group).
Proof.
  intros Hle. unfold days_with_mean_above. split; [split|].
  - lia.
  - apply Nat2Z.inj_le, filter_length_impl. intros r.
    destruct (Qlt_le_dec hi (daily_mean r)) as [H | H]; [| discriminate].
    intros _. destruct (Qlt_le_dec lo (daily_mean r)); [reflexivity | lra].
  - apply Nat2Z.inj_le, filter_length_le.
Qed.

(** C9.  In every row of the monthly frame, before and after the merge
    with the station file, the day counts are nested:
    0 <= days_abv_300 <= days_abv_200 <= days_abv_norm <= days_num. *)
Theorem monthly_day_counts_nested
    (daily : list Daily.t) (stations : list Station.t) (m : Monthly.t) :
  In m (snd (monthly_stats daily)) \/
  (exists o, In o (merge_stations (snd (monthly_stats daily)) stations) /\
             MonthlyOut.stats o = m) ->
  0 <= Monthly.days_abv_300 m /\
  Monthly.days_abv_300 m <= Monthly.days_abv_200 m /\
  Monthly.days_abv_200 m <= Monthly.days_abv_norm m /\
  Monthly.days_abv_norm m <= Monthly.days_num m.
Proof.
  intros H.
  assert (Hin : In m (snd (monthly_stats daily))).
  { destruct H as [H | [o [Ho <-]]]; [exact H|].
    eapply in_merge_stations; eassumption. }
  apply in_monthly_stats in Hin. destruct Hin as [_ ->].
  rewrite monthly_agg_casts.
  cbn [Monthly.days_num Monthly.days_abv_norm Monthly.days_abv_200
       Monthly.days_abv_300].
  rewrite !sum_bool_days_above.
  set (group := get_group month_key day_key_eqb _ daily).
  assert (H23 : (inject_Z 200 <= inject_Z 300)%Q)
    by (rewrite <- Zle_Qle; lia).
  assert (H52 : (inject_Z 50 <= inject_Z 200)%Q)
    by (rewrite <- Zle_Qle; lia).
  pose proof (days_with_mean_above_mono _ _ group H23).
  pose proof (days_with_mean_above_mono _ _ group H52).
  lia.
Qed.

Lemma monthly_day_counts_nested_witness :
  let m := Monthly.mk 1 (datetime.mkdate 2019 4 1) 155 4 3 2 1 400 in
  In m (snd (monthly_stats april_and_may)) /\
  0 <= Monthly.days_abv_300 m /\
  Monthly.days_abv_300 m <= Monthly.days_abv_200 m /\
  Monthly.days_abv_200 m <= Monthly.days_abv_norm m /\
  Monthly.days_abv_norm m <= Monthly.days_num m.
Proof.
  intros m.
  assert (Hin : In m (snd (monthly_stats april_and_may)))
    by (left; reflexivity).
  split; [exact Hin|].
  exact (monthly_day_counts_nested april_and_may [] m (or_introl Hin)).
Defined.

(** ** What a stage does to the frames of earlier stages *)

(** A file system with a (header-only) station file and nothing else. *)
Definition stations_only : world :=
  mkworld (fun p => String.eqb p "stations.csv")
    (fun _ => None) (fun _ => None)
    (fun p => if String.eqb p "stations.csv" then Some [] else None)
    (fun _ => true) [] [].

(** An object whose hourly frame has 18 rows for 15 April 2019. *)
Definition after_hourly_stage : Awair.t :=
  Awair.mk None
    (Some (map (fun h => Hourly.mk 1 (datetime.mkdate 2019 4 15) (Z.of_nat h) 30)
               (seq 0 18)))
    None None.

Definition after_daily_stage : Awair.t :=
  Awair.mk None (Awair.hourly after_hourly_stage)
    (Some [Daily.mk 1 (datetime.mkdate 2019 4 15) 30 30 (PyDecimal 30) (Some 60)])
    None.

Definition after_monthly_stage : Awair.t :=
  Awair.mk None (Awair.hourly after_hourly_stage)
    (Some [Daily.mk 1 (datetime.mkdate 2019 4 1) 30 30
             (PyFloatQ (inject_Z 30)) (Some 60)])
    (Some (MonthlyMerged
             [MonthlyOut.mk
                (Monthly.mk 1 (datetime.mkdate 2019 4 1) 30 1 0 0 0 30) None])).

(** C1 fails: a run in which the daily frame seen after
    [generate_monthly_stats] differs from the one seen after
    [generate_daily_stats] (the date 15 April has become 1 April and the
    mean a float). *)
Lemma monthly_stage_rewrites_daily :
  fst (generate_daily_stats after_hourly_stage "output" stations_only)
  = Ok after_daily_stage /\
  fst (generate_monthly_stats after_daily_stage (Some "stations.csv"%string)
         "output"
         (snd (generate_daily_stats after_hourly_stage "output" stations_only)))
  = Ok after_monthly_stage /\
  Awair.daily after_monthly_stage <> Awair.daily after_daily_stage.
Proof.
  split; [reflexivity | split; [reflexivity | discriminate]].
Qed.

(** *** Computations that return *)

Lemma bind_returns {A B : Type} (c : proc A) (k : A -> proc B)
    (w w' : world) (b : B) :
  bind c k w = (Ok b, w') ->
  exists a w1, c w = (Ok a, w1) /\ k a w1 = (Ok b, w').
Proof.
  unfold bind. destruct (c w) as [[a | e] w1]; [eauto | discriminate].
Qed.

Lemma log_msg_written (level : log_level) (msg : string) (w w' : world)
    (r : result unit) :
  log_msg level msg w = (r, w') -> r = Ok tt /\ written w' = written w.
Proof. unfold log_msg. intros [= <- <-]. auto. Qed.

Lemma export_to_csv_returns (data : csv_frame) (output_dir output_file : string)
    (w w' : world) (u : unit) :
  export_to_csv data output_dir output_file w = (Ok u, w') ->
  written w' = (os_path.join output_dir output_file, data) :: written w.
Proof.
  unfold export_to_csv. intros H.
  apply bind_returns in H. destruct H as [u1 [w1 [H1 H2]]].
  apply log_msg_written in H2. destruct H2 as [_ ->].
  unfold to_csv in H1.
  destruct (writable w _); [| discriminate].
  injection H1 as _ <-. reflexivity.
Qed.

Lemma read_with_world {A : Type} (reader : world -> string -> option A)
    (path : string) (w w' : world) (r : result A) :
  read_with reader path w = (r, w') -> w' = w.
Proof.
  unfold read_with.
  destruct (was_written path w); [intros [= _ <-]; reflexivity|].
  destruct (reader w path); intros [= _ <-]; reflexivity.
Qed.

Lemma os_path_exists_world (path : option string) (w w' : world)
    (r : result bool) :
  os_path_exists path w = (r, w') -> w' = w.
Proof.
  unfold os_path_exists. destruct path; intros [= _ <-]; reflexivity.
Qed.

Lemma add_station_info_returns (monthly : list Monthly.t)
    (station_file : option string) (w w' : world) (merged : list MonthlyOut.t) :
  add_station_info monthly station_file w = (Ok merged, w') ->
  written w' = written w.
Proof.
  unfold add_station_info. intros H.
  apply bind_returns in H. destruct H as [found [w1 [H1 H2]]].
  apply os_path_exists_world in H1. subst w1.
  destruct (negb found).
  - apply bind_returns in H2. destruct H2 as [u [w2 [_ H2]]]. discriminate.
  - destruct station_file as [path |]; [| discriminate].
    apply bind_returns in H2. destruct H2 as [stations [w2 [H2 H3]]].
    apply read_with_world in H2. subst w2.
    apply bind_returns in H3. destruct H3 as [u [w3 [H3 H4]]].
    apply log_msg_written in H3. destruct H3 as [_ H3].
    injection H4 as _ <-. exact H3.
Qed.

(** What the two column assignments keep of a row and what they change. *)
Definition cast_of (r r' : Daily.t) : Prop :=
  Daily.station_id r' = Daily.station_id r /\
  Daily.min r' = Daily.min r /\
  Daily.max r' = Daily.max r /\
  Daily.perc_of_norm r' = Daily.perc_of_norm r /\
  Daily.mean r' = PyFloatQ (astype_float (Daily.mean r)) /\
  Daily.date r' = astype_datetime64_M (Daily.date r).

Lemma monthly_casts_Forall2 (daily : list Daily.t) :
  Forall2 cast_of daily (monthly_casts daily).
Proof.
  rewrite monthly_casts_map.
  induction daily as [| r daily IH]; cbn [map]; constructor; [| exact IH].
  unfold cast_of, cast_row. cbn. auto 10.
Qed.

Lemma generate_monthly_stats_returns
    (self self' : Awair.t) (station_file : option string)
    (output_dir : string) (w w' : world) :
  generate_monthly_stats self station_file output_dir w = (Ok self', w') ->
  exists daily merged,
    Awair.daily self = Some daily /\
    self' = Awair.mk (Awair.data self) (Awair.hourly self)
              (Some (monthly_casts daily)) (Some (MonthlyMerged merged)) /\
    written w'
    = (os_path.join output_dir "monthly_stats.csv", MonthlyCsv merged)
        :: written w.
Proof.
  unfold generate_monthly_stats. intros H.
  destruct (Awair.daily self) as [daily |]; [| discriminate H].
  change (monthly_stats daily)
    with (monthly_casts daily, snd (monthly_stats daily)) in H.
  cbn beta iota in H.
  apply bind_returns in H. destruct H as [u [w1 [H1 H]]].
  apply log_msg_written in H1. destruct H1 as [_ E1].
  apply bind_returns in H. destruct H as [merged [w2 [H2 H]]].
  apply add_station_info_returns in H2.
  apply bind_returns in H. destruct H as [u' [w3 [H3 H]]].
  apply export_to_csv_returns in H3.
  injection H as <- <-.
  exists daily, merged. rewrite H3, H2, E1. auto.
Qed.

Lemma generate_daily_stats_returns
    (self self' : Awair.t) (output_dir : string) (w w' : world) :
  generate_daily_stats self output_dir w = (Ok self', w') ->
  exists hourly,
    Awair.hourly self = Some hourly /\
    self' = Awair.mk (Awair.data self) (Awair.hourly self)
              (Some (perc_of_norm 50 (daily_stats 18 hourly)))
              (Awair.monthly self) /\
    written w'
    = (os_path.join output_dir "daily_stats.csv",
       DailyCsv (perc_of_norm 50 (daily_stats 18 hourly))) :: written w.
Proof.
  unfold generate_daily_stats. intros H.
  destruct (Awair.hourly self) as [hourly |]; [| discriminate H].
  cbn beta zeta in H.
  apply bind_returns in H. destruct H as [u [w1 [H1 H]]].
  apply log_msg_written in H1. destruct H1 as [_ E1].
  apply bind_returns in H. destruct H as [u2 [w2 [H2 H]]].
  apply log_msg_written in H2. destruct H2 as [_ E2].
  apply bind_returns in H. destruct H as [u3 [w3 [H3 H]]].
  apply export_to_csv_returns in H3.
  injection H as <- <-.
  exists hourly. rewrite H3, E2, E1. auto.
Qed.

(** C1, as the code has it.  In a run of the daily stage followed by the
    monthly stage, the monthly stage rewrites [self.daily] in place: the
    frame keeps its rows, their order and the columns [station_id], [min],
    [max], [perc_of_norm]; [date] becomes the first day of its month and
    [mean] a float of the same value.  [self.data] and [self.hourly] are
    not changed by either stage, and the daily file written before still
    holds the frame of the daily stage. *)
Theorem monthly_stage_rewrites_date_and_mean_only
    (self0 self1 self2 : Awair.t) (station_file : option string)
    (output_dir : string) (w0 w1 w2 : world) :
  generate_daily_stats self0 output_dir w0 = (Ok self1, w1) ->
  generate_monthly_stats self1 station_file output_dir w1 = (Ok self2, w2) ->
  exists daily1 daily2 : list Daily.t,
    Awair.daily self1 = Some daily1 /\
    Awair.daily self2 = Some daily2 /\
    Forall2
      (fun r r' =>
         Daily.station_id r' = Daily.station_id r /\
         Daily.min r' = Daily.min r /\
         Daily.max r' = Daily.max r /\
         Daily.perc_of_norm r' = Daily.perc_of_norm r /\
         Daily.mean r' = PyFloatQ (astype_float (Daily.mean r)) /\
         Daily.date r' = astype_datetime64_M (Daily.date r))
      daily1 daily2 /\
    Awair.data self1 = Awair.data self0 /\
    Awair.data self2 = Awair.data self0 /\
    Awair.hourly self1 = Awair.hourly self0 /\
    Awair.hourly self2 = Awair.hourly self0 /\
    In (os_path.join output_dir "daily_stats.csv", DailyCsv daily1)
       (written w2).
Proof.
  intros Hd Hm.
  apply generate_daily_stats_returns in Hd.
  destruct Hd as [hourly [Eh [-> Ew1]]].
  apply generate_monthly_stats_returns in Hm.
  destruct Hm as [daily [merged [Ed [-> Ew2]]]].
  cbn [Awair.daily Awair.data Awair.hourly] in *.
  injection Ed as <-.
  exists (perc_of_norm 50 (daily_stats 18 hourly)),
         (monthly_casts (perc_of_norm 50 (daily_stats 18 hourly))).
  repeat split; try reflexivity.
  - apply monthly_casts_Forall2.
  - rewrite Ew2, Ew1. right. left. reflexivity.
Qed.

Lemma monthly_stage_rewrites_date_and_mean_only_witness :
  let w1 := snd (generate_daily_stats after_hourly_stage "output" stations_only) in
  let w2 := snd (generate_monthly_stats after_daily_stage
                   (Some "stations.csv"%string) "output" w1) in
  generate_daily_stats after_hourly_stage "output" stations_only
  = (Ok after_daily_stage, w1) /\
  generate_monthly_stats after_daily_stage (Some "stations.csv"%string)
    "output" w1
  = (Ok after_monthly_stage, w2) /\
  exists daily1 daily2 : list Daily.t,
    Awair.daily after_daily_stage = Some daily1 /\
    Awair.daily after_monthly_stage = Some daily2 /\
    List.length daily1 = List.length daily2 /\
    In (os_path.join "output" "daily_stats.csv", DailyCsv daily1) (written w2).
Proof.
  intros w1 w2.
  assert (H1 : generate_daily_stats after_hourly_stage "output" stations_only
               = (Ok after_daily_stage, w1)) by reflexivity.
  assert (H2 : generate_monthly_stats after_daily_stage
                 (Some "stations.csv"%string) "output" w1
               = (Ok after_monthly_stage, w2)) by reflexivity.
  split; [exact H1 | split; [exact H2|]].
  destruct (monthly_stage_rewrites_date_and_mean_only
              after_hourly_stage after_daily_stage after_monthly_stage
              (Some "stations.csv"%string) "output" stations_only w1 w2 H1 H2)
    as [daily1 [daily2 [E1 [E2 [HF [_ [_ [_ [_ Hin]]]]]]]]].
  exists daily1, daily2.
  repeat split; try assumption.
  eapply Forall2_length; eassumption.
Defined.

(** ** Fatal configuration errors *)

(** The files a run writes before the monthly stage. *)
Definition early_output (output_dir : string) (entry : string * csv_frame)
    : Prop :=
  (fst entry = os_path.join output_dir "data.csv"
   \/ fst entry = os_path.join output_dir "hourly_stats.csv"
   \/ fst entry = os_path.join output_dir "daily_stats.csv") /\
  (forall rows, snd entry <> MonthlyCsv rows).

(** [w'] is [w] after some files satisfying [P] were written and some lines
    logged. *)
Definition extends (P : string * csv_frame -> Prop) (w w' : world) : Prop :=
  path_exists w' = path_exists w /\
  (exists files, written w' = files ++ written w /\ Forall P files) /\
  (exists lines, log w' = lines ++ log w).

(** A computation that only writes files satisfying [P] and never leaves
    with [sys.exit(0)]. *)
Definition behaves {A : Type} (P : string * csv_frame -> Prop) (c : proc A)
    : Prop :=
  forall w, extends P w (snd (c w)) /\ fst (c w) <> Raised (SystemExit 0).

Lemma extends_refl (P : string * csv_frame -> Prop) (w : world) :
  extends P w w.
Proof.
  repeat split; [exists []; split; [reflexivity | constructor] | now exists []].
Qed.

Lemma extends_trans (P : string * csv_frame -> Prop) (w1 w2 w3 : world) :
  extends P w1 w2 -> extends P w2 w3 -> extends P w1 w3.
Proof.
  intros [E1 [[f1 [F1 P1]] [l1 L1]]] [E2 [[f2 [F2 P2]] [l2 L2]]].
  split; [congruence | split].
  - exists (f2 ++ f1). rewrite F2, F1, app_assoc.
    split; [reflexivity | now apply Forall_app].
  - exists (l2 ++ l1). now rewrite L2, L1, app_assoc.
Qed.

Lemma behaves_ret {A : Type} P (a : A) : behaves P (ret a).
Proof. intros w. split; [apply extends_refl | discriminate]. Qed.

Lemma behaves_raise {A : Type} P (e : exn) :
  e <> SystemExit 0 -> behaves P (@raise A e).
Proof.
  intros He w. split; [apply extends_refl|].
  cbn. intros [= E]. now apply He.
Qed.

Lemma behaves_sys_exit_1 {A : Type} P : behaves P (@sys_exit A 1).
Proof. apply behaves_raise. discriminate. Qed.

Lemma behaves_bind {A B : Type} P (c : proc A) (k : A -> proc B) :
  behaves P c -> (forall a, behaves P (k a)) -> behaves P (bind c k).
Proof.
  intros Hc Hk w. unfold bind.
  destruct (Hc w) as [Ec Nc].
  destruct (c w) as [[a | e] w1]; cbn [fst snd] in *.
  - destruct (Hk a w1) as [Ek Nk].
    split; [eapply extends_trans; eassumption | exact Nk].
  - split; [exact Ec|]. intros [= E]. apply Nc. now rewrite E.
Qed.

Lemma behaves_log_msg P (level : log_level) (msg : string) :
  behaves P (log_msg level msg).
Proof.
  intros w. split; [| discriminate].
  repeat split; cbn.
  - exists []. split; [reflexivity | constructor].
  - now exists [(level, msg)].
Qed.

Lemma behaves_os_path_exists P (path : option string) :
  behaves P (os_path_exists path).
Proof.
  intros w. unfold os_path_exists.
  destruct path; cbn; (split; [apply extends_refl | discriminate]).
Qed.

Lemma behaves_read_with {A : Type} P
    (reader : world -> string -> option A) (path : string) :
  behaves P (read_with reader path).
Proof.
  intros w. unfold read_with.
  destruct (was_written path w); cbn;
    [split; [apply extends_refl | discriminate]|].
  destruct (reader w path); cbn; (split; [apply extends_refl | discriminate]).
Qed.

Lemma behaves_export_to_csv (P : string * csv_frame -> Prop)
    (data : csv_frame) (output_dir output_file : string) :
  P (os_path.join output_dir output_file, data) ->
  behaves P (export_to_csv data output_dir output_file).
Proof.
  intros HP. unfold export_to_csv.
  apply behaves_bind; [| intros _; apply behaves_log_msg].
  intros w. unfold to_csv.
  destruct (writable w _); cbn; (split; [| discriminate]).
  - repeat split; cbn.
    + exists [(os_path.join output_dir output_file, data)].
      split; [reflexivity | constructor; [exact HP | constructor]].
    + now exists [].
  - apply extends_refl.
Qed.

Lemma exit_status_raised {A : Type} (e : exn) :
  e <> SystemExit 0 -> exit_status (@Raised A e) <> 0.
Proof.
  destruct e as [code | | |]; cbn; try discriminate.
  intros H E. apply H. now rewrite E.
Qed.

Section FatalErrors.
Variable dt_date : Z -> datetime.date.
Variable dt_hour : Z -> Z.
Variable Timestamp : string -> Z.
Variable to_datetime : string -> option (option Z).

(** The part of [main] that comes before the monthly stage. *)
Definition stages_before_monthly (args : arguments) : proc Awair.t :=
  bind (Awair_init (input_file args)) (fun awair_analysis =>
  bind (preprocess_data Timestamp to_datetime awair_analysis (output_dir args))
    (fun awair_analysis =>
  bind (generate_hourly_stats dt_date dt_hour awair_analysis (output_dir args))
    (fun awair_analysis =>
  generate_daily_stats awair_analysis (output_dir args)))).

Lemma main_split (args : arguments) (w : world) :
  main dt_date dt_hour Timestamp to_datetime args w
  = bind (stages_before_monthly args)
      (fun awair_analysis =>
         bind (generate_monthly_stats awair_analysis (stations_file args)
                 (output_dir args))
              (fun _ => ret tt)) w.
Proof.
  unfold main, stages_before_monthly, bind.
  destruct (Awair_init (input_file args) w) as [[a0 | e0] w0]; [| reflexivity].
  destruct (preprocess_data Timestamp to_datetime a0 (output_dir args) w0)
    as [[a1 | e1] w1]; [| reflexivity].
  destruct (generate_hourly_stats dt_date dt_hour a1 (output_dir args) w1)
    as [[a2 | e2] w2]; reflexivity.
Qed.

Lemma behaves_read_data P (self : Awair.t) (path : string) :
  behaves P (read_data self path).
Proof.
  unfold read_data, _read_sqlite, _read_csv.
  apply behaves_bind; [apply behaves_os_path_exists | intros found].
  destruct (negb found).
  - apply behaves_bind; [apply behaves_log_msg | intros _].
    apply behaves_sys_exit_1.
  - destruct (String.eqb _ ".db").
    + apply behaves_bind; [| intros data; apply behaves_ret].
      apply behaves_bind; [apply behaves_read_with | intros data].
      apply behaves_bind; [apply behaves_log_msg | intros _; apply behaves_ret].
    + destruct (String.eqb _ ".csv").
      * apply behaves_bind; [| intros data; apply behaves_ret].
        apply behaves_bind; [apply behaves_read_with | intros data].
        apply behaves_bind; [apply behaves_log_msg | intros _; apply behaves_ret].
      * apply behaves_bind; [apply behaves_log_msg | intros _].
        apply behaves_sys_exit_1.
Qed.

Lemma behaves_preprocess_data (self : Awair.t) (output_dir : string) :
  behaves (early_output output_dir)
    (preprocess_data Timestamp to_datetime self output_dir).
Proof.
  unfold preprocess_data.
  destruct (Awair.data self) as [frame |];
    [| apply behaves_raise; discriminate].
  cbn zeta.
  destruct (match frame with
            | RawFrame raw => convert_datetime to_datetime raw
            | CleanFrame data => Some data
            end) as [data0 |];
    [| apply behaves_raise; discriminate].
  repeat (apply behaves_bind; [apply behaves_log_msg | intros _]).
  apply behaves_bind; [| intros _; apply behaves_ret].
  apply behaves_export_to_csv. split; [cbn; auto | discriminate].
Qed.

Lemma behaves_generate_hourly_stats (self : Awair.t) (output_dir : string) :
  behaves (early_output output_dir)
    (generate_hourly_stats dt_date dt_hour self output_dir).
Proof.
  unfold generate_hourly_stats.
  destruct (Awair.data self) as [[raw | clean] |];
    try (apply behaves_raise; discriminate).
  apply behaves_bind; [apply behaves_log_msg | intros _].
  apply behaves_bind; [| intros _; apply behaves_ret].
  apply behaves_export_to_csv. split; [cbn; auto | discriminate].
Qed.

Lemma behaves_generate_daily_stats (self : Awair.t) (output_dir : string) :
  behaves (early_output output_dir) (generate_daily_stats self output_dir).
Proof.
  unfold generate_daily_stats.
  destruct (Awair.hourly self) as [hourly |];
    [| apply behaves_raise; discriminate].
  repeat (apply behaves_bind; [apply behaves_log_msg | intros _]).
  apply behaves_bind; [| intros _; apply behaves_ret].
  apply behaves_export_to_csv. split; [cbn; auto | discriminate].
Qed.

Lemma behaves_stages_before_monthly (args : arguments) :
  behaves (early_output (output_dir args)) (stages_before_monthly args).
Proof.
  unfold stages_before_monthly, Awair_init.
  apply behaves_bind; [apply behaves_read_data | intros a0].
  apply behaves_bind; [apply behaves_preprocess_data | intros a1].
  apply behaves_bind; [apply behaves_generate_hourly_stats | intros a2].
  apply behaves_generate_daily_stats.
Qed.

End FatalErrors.

(** The station file is missing when [add_station_info] looks for it: no
    path was given, or nothing is at the path. *)
Definition station_file_missing (station_file : option string) (w : world)
    : Prop :=
  match station_file with
  | None => True
  | Some path => path_exists w path || was_written path w = false
  end.

Lemma generate_monthly_stats_missing
    (self : Awair.t) (station_file : option string) (output_dir : string)
    (w : world) :
  station_file_missing station_file w ->
  exists e w',
    generate_monthly_stats self station_file output_dir w = (Raised e, w') /\
    e <> SystemExit 0 /\
    written w' = written w /\
    (forall path daily,
        station_file = Some path -> Awair.daily self = Some daily ->
        e = SystemExit 1 /\
        log w' = (ERROR, "Station file does not exist"%string)
                   :: (INFO, "Calculated monthly statistics"%string)
                   :: log w).
Proof.
  intros Hmiss. unfold generate_monthly_stats.
  destruct (Awair.daily self) as [daily |].
  - change (monthly_stats daily)
      with (monthly_casts daily, snd (monthly_stats daily)).
    cbn beta iota.
    destruct station_file as [path |]; cbn in Hmiss.
    + unfold bind, log_msg, add_station_info, os_path_exists, bind.
      cbn [path_exists written]. unfold was_written in *. cbn [written].
      rewrite Hmiss. cbn.
      do 2 eexists. split; [reflexivity|].
      split; [discriminate | split; [reflexivity|]].
      intros path' daily' _ _. split; reflexivity.
    + unfold bind, log_msg, add_station_info, os_path_exists, bind. cbn.
      do 2 eexists. split; [reflexivity|].
      split; [discriminate | split; [reflexivity|]].
      intros path daily' [=].
  - do 2 eexists. split; [reflexivity|].
    split; [discriminate | split; [reflexivity|]].
    intros path daily' _ [=].
Qed.

Lemma not_written_after (output_dir path : string) (w w' : world) :
  extends (early_output output_dir) w w' ->
  was_written path w = false ->
  path <> os_path.join output_dir "data.csv" ->
  path <> os_path.join output_dir "hourly_stats.csv" ->
  path <> os_path.join output_dir "daily_stats.csv" ->
  was_written path w' = false.
Proof.
  intros [_ [[files [E HF]] _]] Hw N1 N2 N3.
  unfold was_written in *. rewrite E, existsb_app, Hw, orb_false_r.
  clear E. induction HF as [| entry files [Hp _] _ IH]; [reflexivity|].
  cbn [existsb]. rewrite IH, orb_false_r.
  apply String.eqb_neq. intros Eq.
  destruct Hp as [Hp | [Hp | Hp]]; congruence.
Qed.

(** C8.  A run of [main] on a bad configuration.
    - The input file is missing: the process logs the error and leaves with
      [sys.exit(1)]; no stage has run and no file is written.
    - The input file exists but its extension is neither [.db] nor [.csv]:
      the same, with the message about the extension.
    - The station file is missing (no path given, or nothing at the path,
      which is none of the three files the run writes first): the process
      ends with a non-zero exit status and the only files written are those
      of the stages before the monthly one, never the monthly frame; when
      those stages have returned and a path was given, the process logs the
      error and leaves with [sys.exit(1)]. *)
Theorem fatal_configuration_errors
    (dt_date : Z -> datetime.date) (dt_hour : Z -> Z)
    (Timestamp : string -> Z) (to_datetime : string -> option (option Z))
    (args : arguments) (w : world) :
  let run := main dt_date dt_hour Timestamp to_datetime args w in
  let extension := os_path.lower (os_path.splitext_ext (input_file args)) in
  (path_exists w (input_file args) || was_written (input_file args) w = false ->
   fst run = Raised (SystemExit 1) /\
   exit_status (fst run) = 1 /\
   written (snd run) = written w /\
   log (snd run) = (ERROR, "Input file does not exist"%string) :: log w) /\
  (path_exists w (input_file args) || was_written (input_file args) w = true ->
   extension <> ".db"%string -> extension <> ".csv"%string ->
   fst run = Raised (SystemExit 1) /\
   exit_status (fst run) = 1 /\
   written (snd run) = written w /\
   log (snd run)
   = (ERROR,
      "Invalid source extension. Permitted extensions are .db for sqlite file or .csv"%string)
       :: log w) /\
  (match stations_file args with
   | None => True
   | Some path =>
       path_exists w path || was_written path w = false /\
       path <> os_path.join (output_dir args) "data.csv" /\
       path <> os_path.join (output_dir args) "hourly_stats.csv" /\
       path <> os_path.join (output_dir args) "daily_stats.csv"
   end ->
   (exists e, fst run = Raised e) /\
   exit_status (fst run) <> 0 /\
   (exists files,
      written (snd run) = files ++ written w /\
      Forall (early_output (output_dir args)) files) /\
   (forall self w3 path,
      stages_before_monthly dt_date dt_hour Timestamp to_datetime args w
      = (Ok self, w3) ->
      stations_file args = Some path ->
      fst run = Raised (SystemExit 1) /\
      written (snd run) = written w3 /\
      log (snd run)
      = (ERROR, "Station file does not exist"%string)
          :: (INFO, "Calculated monthly statistics"%string) :: log w3)).
Proof.
  intros run extension. split; [| split].
  - intros Hmiss. unfold run, main, Awair_init, read_data, bind, os_path_exists.
    rewrite Hmiss. cbn. auto.
  - intros Hex Hdb Hcsv.
    unfold run, main, Awair_init, read_data, bind, os_path_exists.
    rewrite Hex. cbn [negb].
    fold extension.
    apply String.eqb_neq in Hdb, Hcsv. rewrite Hdb, Hcsv. cbn. auto.
  - intros Hstation.
    unfold run. rewrite main_split. unfold bind.
    destruct (behaves_stages_before_monthly dt_date dt_hour Timestamp
                to_datetime args w) as [Hext Hnz].
    destruct (stages_before_monthly dt_date dt_hour Timestamp to_datetime
                args w) as [[self | e] w3] eqn:Epre; cbn [fst snd] in Hext, Hnz.
    + assert (Hmiss : station_file_missing (stations_file args) w3).
      { unfold station_file_missing.
        destruct (stations_file args) as [path |]; [| exact I].
        destruct Hstation as [Hw [N1 [N2 N3]]].
        apply orb_false_iff in Hw. destruct Hw as [Hp Hw].
        destruct Hext as [Epath Hrest].
        rewrite Epath, Hp. cbn [orb].
        eapply not_written_after; try eassumption.
        split; [exact Epath | exact Hrest]. }
      destruct (generate_monthly_stats_missing self (stations_file args)
                  (output_dir args) w3 Hmiss)
        as [e [w' [Erun [He [Ew Hlog]]]]].
      rewrite Erun. cbn [fst snd].
      split; [now exists e | split; [now apply exit_status_raised | split]].
      * destruct Hext as [_ [[files [Ef HF]] _]].
        exists files. rewrite Ew. auto.
      * intros self' w3' path [= <- <-] Epath.
        assert (Hd : exists daily, Awair.daily self = Some daily).
        { unfold stages_before_monthly in Epre.
          apply bind_returns in Epre. destruct Epre as [a0 [w0 [_ Epre]]].
          apply bind_returns in Epre. destruct Epre as [a1 [w1 [_ Epre]]].
          apply bind_returns in Epre. destruct Epre as [a2 [w2 [_ Epre]]].
          apply generate_daily_stats_returns in Epre.
          destruct Epre as [hourly [_ [-> _]]]. cbn. eauto. }
        destruct Hd as [daily Hd].
        destruct (Hlog path daily Epath Hd) as [-> ->]. auto.
    + cbn [fst snd].
      split; [now exists e | split; [| split]].
      * apply exit_status_raised. intros ->. now apply Hnz.
      * destruct Hext as [_ [[files [Ef HF]] _]]. eauto.
      * intros self w3' path [=].
Qed.

(** A file system with a readable [pm10.csv], a file [pm10.txt], and no
    station file. *)
Definition no_station_file : world :=
  mkworld
    (fun p => String.eqb p "pm10.csv" || String.eqb p "pm10.txt")
    (fun _ => None)
    (fun p =>
       if String.eqb p "pm10.csv"
       then Some [RawReading.mk 1 "2019-04-02T05:10:00Z" 10%float;
                  RawReading.mk 1 "2019-04-02T05:20:00Z" 20%float;
                  RawReading.mk 1 "2019-04-02T05:20:00Z" 20%float]
       else None)
    (fun _ => None)
    (fun _ => true) [] [].

Lemma fatal_configuration_errors_witness :
  let dt_date := fun t : Z => datetime.mkdate 2019 4 (1 + t / 86400) in
  let dt_hour := fun t : Z => (t mod 86400) / 3600 in
  let Timestamp := fun s : string =>
    if String.eqb s "2019-04-01" then 0 else 2592000 in
  let to_datetime := fun s : string =>
    if String.eqb s "2019-04-02T05:10:00Z" then Some (Some 112200) else Some (Some 112800) in
  let run := fun args =>
    main dt_date dt_hour Timestamp to_datetime args no_station_file in
  (fst (run (mkargs "pm10.db" (Some "stations.csv"%string) "output"))
   = Raised (SystemExit 1) /\
   written (snd (run (mkargs "pm10.db" (Some "stations.csv"%string) "output")))
   = []) /\
  (fst (run (mkargs "pm10.txt" (Some "stations.csv"%string) "output"))
   = Raised (SystemExit 1) /\
   written (snd (run (mkargs "pm10.txt" (Some "stations.csv"%string) "output")))
   = []) /\
  (exit_status
     (fst (run (mkargs "pm10.csv" (Some "stations.csv"%string) "output")))
   <> 0 /\
   fst (run (mkargs "pm10.csv" (Some "stations.csv"%string) "output"))
   = Raised (SystemExit 1) /\
   map fst
     (written
        (snd (run (mkargs "pm10.csv" (Some "stations.csv"%string) "output"))))
   = ["output/daily_stats.csv"; "output/hourly_stats.csv";
      "output/data.csv"]%string).
Proof.
  intros dt_date dt_hour Timestamp to_datetime run.
  split; [| split].
  - destruct (proj1 (fatal_configuration_errors dt_date dt_hour Timestamp
                       to_datetime
                       (mkargs "pm10.db" (Some "stations.csv"%string) "output")
                       no_station_file) eq_refl)
      as [H1 [_ [H2 _]]].
    split; [exact H1 | exact H2].
  - destruct (proj1 (proj2 (fatal_configuration_errors dt_date dt_hour
                       Timestamp to_datetime
                       (mkargs "pm10.txt" (Some "stations.csv"%string) "output")
                       no_station_file)) eq_refl)
      as [H1 [_ [H2 _]]]; try (cbn; discriminate).
    split; [exact H1 | exact H2].
  - destruct (proj2 (proj2 (fatal_configuration_errors dt_date dt_hour
                       Timestamp to_datetime
                       (mkargs "pm10.csv" (Some "stations.csv"%string) "output")
                       no_station_file)))
      as [_ [H1 _]].
    + cbn. repeat split; discriminate.
    + split; [exact H1 | split; reflexivity].
Defined.

(** * The cleaning steps *)

(** ** Equality of rows *)

(** What [==] on binary64 decides: the two zeros are equal, an infinity
    equals itself, a finite number equals itself, NaN equals nothing. *)
Definition SFeq (a b : spec_float) : Prop :=
  match a, b with
  | S754_zero _, S754_zero _ => True
  | S754_infinity s, S754_infinity s' => s = s'
  | S754_finite s m e, S754_finite s' m' e' => s = s' /\ m = m' /\ e = e'
  | _, _ => False
  end.

Lemma SFeqb_SFeq (a b : spec_float) : SFeqb a b = true <-> SFeq a b.
Proof.
  unfold SFeqb, SFeq, SFcompare.
  destruct a as [[|] | [|] | | [|] m e], b as [[|] | [|] | | [|] m' e']; cbn;
    try (split; [discriminate | contradiction]);
    try (split; [reflexivity | intros _; reflexivity]);
    try (split; intros H; discriminate);
    try (split; [discriminate | intros [H _]; discriminate]).
  - change (Pos.compare_cont Eq m m') with (Pos.compare m m').
    destruct (Z.compare_spec e e') as [He | He | He];
      destruct (Pos.compare_spec m m') as [Hm | Hm | Hm]; cbn;
      split; try discriminate; try (intros [_ [? ?]]; subst; lia);
      intros _; subst; auto.
  - change (Pos.compare_cont Eq m m') with (Pos.compare m m').
    destruct (Z.compare_spec e e') as [He | He | He];
      destruct (Pos.compare_spec m m') as [Hm | Hm | Hm]; cbn;
      split; try discriminate; try (intros [_ [? ?]]; subst; lia);
      intros _; subst; auto.
Qed.

Lemma SFeq_sym (a b : spec_float) : SFeq a b -> SFeq b a.
Proof.
  destruct a, b; cbn; try tauto; try congruence.
  intros [-> [-> ->]]. auto.
Qed.

Lemma SFeq_trans (a b c : spec_float) : SFeq a b -> SFeq b c -> SFeq a c.
Proof.
  destruct a, b, c; cbn; try tauto; try congruence.
  intros [-> [-> ->]] [-> [-> ->]]. auto.
Qed.

Lemma float_eqb_sym (x y : float) : PrimFloat.eqb x y = PrimFloat.eqb y x.
Proof.
  rewrite !eqb_spec. apply eq_true_iff_eq.
  rewrite !SFeqb_SFeq. split; apply SFeq_sym.
Qed.

Lemma float_eqb_trans (x y z : float) :
  PrimFloat.eqb x y = true -> PrimFloat.eqb x z = PrimFloat.eqb y z.
Proof.
  rewrite !eqb_spec. intros H. apply SFeqb_SFeq in H.
  apply eq_true_iff_eq. rewrite !SFeqb_SFeq.
  split; intros H'.
  - exact (SFeq_trans _ _ _ (SFeq_sym _ _ H) H').
  - exact (SFeq_trans _ _ _ H H').
Qed.

Lemma float_eqb_refl_l (x y : float) :
  PrimFloat.eqb x y = true -> PrimFloat.eqb x x = true.
Proof.
  intros H. rewrite (float_eqb_trans x y x H), float_eqb_sym. exact H.
Qed.

(** Equality of cells, as [drop_duplicates] sees it, is symmetric and
    transitive; with NaN equal to NaN it is also reflexive. *)
Lemma value_eqb_sym (x y : float) :
  Reading.value_eqb x y = Reading.value_eqb y x.
Proof.
  unfold Reading.value_eqb.
  now rewrite (float_eqb_sym x y), (andb_comm (is_nan x)).
Qed.

Lemma value_eqb_trans (x y z : float) :
  Reading.value_eqb x y = true ->
  Reading.value_eqb x z = Reading.value_eqb y z.
Proof.
  unfold Reading.value_eqb, is_nan. intros H.
  apply orb_true_iff in H. destruct H as [H | H].
  - rewrite (float_eqb_trans x y z H).
    rewrite (float_eqb_refl_l x y H).
    rewrite float_eqb_sym in H. rewrite (float_eqb_refl_l y x H).
    reflexivity.
  - apply andb_true_iff in H. destruct H as [Hx Hy].
    apply negb_true_iff in Hx, Hy. rewrite Hx, Hy.
    destruct (PrimFloat.eqb x z) eqn:Exz.
    + rewrite (float_eqb_refl_l x z Exz) in Hx. discriminate.
    + destruct (PrimFloat.eqb y z) eqn:Eyz; [| reflexivity].
      rewrite (float_eqb_refl_l y z Eyz) in Hy. discriminate.
Qed.

Lemma value_eqb_refl (x : float) : Reading.value_eqb x x = true.
Proof.
  unfold Reading.value_eqb, is_nan.
  destruct (PrimFloat.eqb x x); reflexivity.
Qed.

Lemma time_eqb_eq (a b : option Z) : Reading.time_eqb a b = true <-> a = b.
Proof.
  destruct a as [x |], b as [y |]; cbn; try (split; congruence).
  rewrite Z.eqb_eq. split; congruence.
Qed.

Lemma Reading_eqb_sym (a b : Reading.t) : Reading.eqb a b = Reading.eqb b a.
Proof.
  unfold Reading.eqb.
  rewrite (Z.eqb_sym (Reading.station_id a)),
    (value_eqb_sym (Reading.value a)).
  do 2 f_equal. apply eq_true_iff_eq. rewrite !time_eqb_eq.
  split; congruence.
Qed.

Lemma Reading_eqb_trans (a b c : Reading.t) :
  Reading.eqb a b = true -> Reading.eqb a c = Reading.eqb b c.
Proof.
  unfold Reading.eqb. rewrite !andb_true_iff, Z.eqb_eq, time_eqb_eq.
  intros [[Hs Ht] Hv]. rewrite Hs, Ht.
  now rewrite (value_eqb_trans _ _ _ Hv).
Qed.

Lemma Reading_eqb_refl (a : Reading.t) : Reading.eqb a a = true.
Proof.
  unfold Reading.eqb.
  rewrite Z.eqb_refl, value_eqb_refl, (proj2 (time_eqb_eq _ _) eq_refl).
  reflexivity.
Qed.

(** ** Duplicates *)

Lemma filter_filter_comm {A : Type} (p q : A -> bool) (l : list A) :
  filter p (filter q l) = filter q (filter p l).
Proof.
  induction l as [| a l IH]; cbn; [reflexivity|].
  destruct (p a) eqn:Ep, (q a) eqn:Eq; cbn; rewrite ?Ep, ?Eq, IH; reflexivity.
Qed.

Lemma filter_idem {A : Type} (p : A -> bool) (l : list A) :
  filter p (filter p l) = filter p l.
Proof.
  induction l as [| a l IH]; cbn; [reflexivity|].
  destruct (p a) eqn:Ep; cbn; rewrite ?Ep, IH; reflexivity.
Qed.

Lemma filter_all {A : Type} (p : A -> bool) (l : list A) :
  (forall a, In a l -> p a = true) -> filter p l = l.
Proof.
  induction l as [| a l IH]; cbn; intros H; [reflexivity|].
  rewrite (H a (or_introl eq_refl)), IH; auto.
Qed.

Lemma filter_impl {A : Type} (p q : A -> bool) (l : list A) :
  (forall a, In a l -> p a = true -> q a = true) ->
  filter p (filter q l) = filter p l.
Proof.
  induction l as [| a l IH]; cbn; intros H; [reflexivity|].
  destruct (q a) eqn:Eq; cbn.
  - rewrite IH; auto.
  - destruct (p a) eqn:Ep.
    + rewrite (H a (or_introl eq_refl) Ep) in Eq. discriminate.
    + apply IH. auto.
Qed.

Lemma ForallOrdPairs_filter {A : Type} (R : A -> A -> Prop) (p : A -> bool)
    (l : list A) :
  ForallOrdPairs R l -> ForallOrdPairs R (filter p l).
Proof.
  induction 1 as [| a l Ha Hl IH]; cbn; [constructor|].
  destruct (p a); [constructor|]; auto.
  apply Forall_forall. intros b Hb. apply filter_In in Hb.
  rewrite Forall_forall in Ha. apply Ha. tauto.
Qed.

(** A row that is no duplicate of [r] has no duplicate that is one. *)
Definition differs_from (r : Reading.t) : Reading.t -> bool :=
  fun r' => negb (Reading.eqb r' r).

Lemma differs_from_compat (r a b : Reading.t) :
  Reading.eqb a b = true -> differs_from r a = differs_from r b.
Proof.
  intros H. unfold differs_from. now rewrite (Reading_eqb_trans a b r H).
Qed.

Lemma drop_duplicates_filter (p : Reading.t -> bool) (data : list Reading.t) :
  (forall a b, Reading.eqb a b = true -> p a = p b) ->
  drop_duplicates (filter p data) = filter p (drop_duplicates data).
Proof.
  intros Hp.
  induction data as [| a data IH]; cbn; [reflexivity|].
  destruct (p a) eqn:Ea; cbn.
  - rewrite IH. f_equal. apply filter_filter_comm.
  - rewrite IH. symmetry. apply filter_impl.
    intros b _ Hb.
    destruct (Reading.eqb b a) eqn:E; [| reflexivity].
    rewrite (Hp b a E) in Hb. congruence.
Qed.

Lemma drop_duplicates_idempotent (data : list Reading.t) :
  drop_duplicates (drop_duplicates data) = drop_duplicates data.
Proof.
  induction data as [| a data IH]; cbn; [reflexivity|].
  f_equal.
  change (fun r' => negb (Reading.eqb r' a)) with (differs_from a).
  rewrite drop_duplicates_filter by (intros x y; apply differs_from_compat).
  rewrite IH. apply filter_idem.
Qed.

Lemma drop_duplicates_distinct (data : list Reading.t) :
  ForallOrdPairs (fun a b => Reading.eqb a b = false) (drop_duplicates data).
Proof.
  induction data as [| a data IH]; cbn; constructor.
  - apply Forall_forall. intros b Hb. apply filter_In in Hb.
    destruct Hb as [_ Hb]. rewrite Reading_eqb_sym.
    now apply negb_true_iff in Hb.
  - now apply ForallOrdPairs_filter.
Qed.

Lemma in_drop_duplicates (data : list Reading.t) (r : Reading.t) :
  In r (drop_duplicates data) -> In r data.
Proof.
  revert r. induction data as [| a data IH]; cbn; intros r; [tauto|].
  intros [-> | H]; [now left|].
  apply filter_In in H. right. apply IH. tauto.
Qed.

Lemma drop_duplicates_keeps_one (data : list Reading.t) (r : Reading.t) :
  In r data ->
  exists r', In r' (drop_duplicates data)
             /\ (r' = r \/ Reading.eqb r r' = true).
Proof.
  induction data as [| a data IH]; cbn; [tauto|].
  intros [-> | H]; [exists r; auto|].
  destruct (IH H) as [r' [Hin Hr']].
  destruct (Reading.eqb r' a) eqn:E.
  - exists a. split; [now left|].
    destruct Hr' as [-> | Hr']; [now right|].
    right. now rewrite (Reading_eqb_trans r r' a Hr').
  - exists r'. split; [| exact Hr'].
    right. apply filter_In. split; [exact Hin|]. now rewrite E.
Qed.

Lemma drop_duplicates_length (data : list Reading.t) :
  (List.length (drop_duplicates data) <= List.length data)%nat.
Proof.
  induction data as [| a data IH]; cbn; [lia|].
  pose proof (filter_length_le (fun r' => negb (Reading.eqb r' a))
                (drop_duplicates data)).
  lia.
Qed.

(** X2.  [remove_duplicates] run a second time changes nothing; in its
    result no row equals a later one, every row comes from the input, and
    every input row is kept or equals a row that is kept; the number of
    rows does not grow. *)
Theorem remove_duplicates_idempotent_distinct (data : list Reading.t) :
  remove_duplicates (remove_duplicates data) = remove_duplicates data
  /\ ForallOrdPairs (fun a b => Reading.eqb a b = false)
       (remove_duplicates data)
  /\ incl (remove_duplicates data) data
  /\ Forall (fun r => exists r', In r' (remove_duplicates data)
                                 /\ (r' = r \/ Reading.eqb r r' = true)) data
  /\ (List.length (remove_duplicates data) <= List.length data)%nat.
Proof.
  unfold remove_duplicates.
  split; [apply drop_duplicates_idempotent|].
  split; [apply drop_duplicates_distinct|].
  split; [intros r; apply in_drop_duplicates|].
  split; [| apply drop_duplicates_length].
  apply Forall_forall. intros r. apply drop_duplicates_keeps_one.
Qed.

(** ** Sorting *)

Lemma StronglySorted_impl {A : Type} (R S : A -> A -> Prop) (l : list A) :
  (forall a b, R a b -> S a b) -> StronglySorted R l -> StronglySorted S l.
Proof.
  intros HRS. induction 1 as [| a l Hl IH Ha]; constructor; [exact IH|].
  rewrite Forall_forall in *. auto.
Qed.

Lemma StronglySorted_map {A B : Type} (f : A -> B) (R : B -> B -> Prop)
    (l : list A) :
  StronglySorted (fun a b => R (f a) (f b)) l <-> StronglySorted R (map f l).
Proof.
  induction l as [| a l IH]; cbn.
  - split; constructor.
  - split; intros H; inversion H as [| ? ? Hl Ha]; subst; constructor;
      try (now apply IH).
    + rewrite Forall_forall in *. intros b Hb. apply in_map_iff in Hb.
      destruct Hb as [x [<- Hx]]. auto.
    + rewrite Forall_forall in *. intros b Hb. apply Ha. now apply in_map.
Qed.

Lemma StronglySorted_filter {A : Type} (R : A -> A -> Prop) (p : A -> bool)
    (l : list A) :
  StronglySorted R l -> StronglySorted R (filter p l).
Proof.
  induction 1 as [| a l Hl IH Ha]; cbn; [constructor|].
  destruct (p a); [constructor|]; auto.
  rewrite Forall_forall in *. intros b Hb. apply filter_In in Hb.
  apply Ha. tauto.
Qed.

(** The insertion sort behind [sort_values] and [groupby], for a total
    preorder [leb]. *)
Section SortFacts.
Context {A : Type}.
Variable leb : A -> A -> bool.
Hypothesis leb_total : forall a b, leb a b = true \/ leb b a = true.
Hypothesis leb_trans :
  forall a b c, leb a b = true -> leb b c = true -> leb a c = true.

Lemma insert_key_sorted (k : A) (ks : list A) :
  StronglySorted (fun a b => leb a b = true) ks ->
  StronglySorted (fun a b => leb a b = true) (insert_key leb k ks).
Proof.
  induction 1 as [| a ks Hs IH Ha]; cbn.
  - repeat constructor.
  - destruct (leb k a) eqn:E.
    + constructor; [constructor; assumption|].
      constructor; [exact E|].
      rewrite Forall_forall in *. intros b Hb.
      apply (leb_trans k a b E). auto.
    + constructor; [exact IH|].
      apply Forall_forall. intros b Hb.
      apply (Permutation_in _ (Permutation_sym (insert_key_perm leb k ks)))
        in Hb.
      destruct Hb as [<- | Hb].
      * destruct (leb_total a k) as [H | H]; [exact H | congruence].
      * rewrite Forall_forall in Ha. auto.
Qed.

Lemma sort_keys_sorted (ks : list A) :
  StronglySorted (fun a b => leb a b = true) (sort_keys leb ks).
Proof.
  induction ks as [| k ks IH]; cbn; [constructor|].
  now apply insert_key_sorted.
Qed.

(** Rows that the order does not tell apart keep their former order. *)
Lemma filter_insert_key (p : A -> bool) (k : A) (ks : list A) :
  (forall a, leb k a = false -> p k = true -> p a = false) ->
  filter p (insert_key leb k ks)
  = if p k then k :: filter p ks else filter p ks.
Proof.
  intros Hp.
  induction ks as [| a ks IH]; cbn; [reflexivity|].
  destruct (leb k a) eqn:E; cbn; [reflexivity|].
  rewrite IH.
  destruct (p k) eqn:Ek.
  - now rewrite (Hp a E eq_refl).
  - reflexivity.
Qed.

Lemma filter_sort_keys (p : A -> bool) (ks : list A) :
  (forall k a, leb k a = false -> p k = true -> p a = false) ->
  filter p (sort_keys leb ks) = filter p ks.
Proof.
  intros Hp.
  induction ks as [| k ks IH]; cbn; [reflexivity|].
  rewrite filter_insert_key by (apply Hp).
  now rewrite IH.
Qed.

End SortFacts.

(** Keys of several columns: the order column by column is total and
    transitive when the order of each column is. *)
Section PairOrder.
Context {A B : Type}.
Variables (ea la : A -> A -> bool) (lb : B -> B -> bool).
Hypothesis ea_eq : forall a a', ea a a' = true <-> a = a'.
Hypothesis la_total : forall a a', la a a' = true \/ la a' a = true.
Hypothesis la_trans :
  forall a b c, la a b = true -> la b c = true -> la a c = true.
Hypothesis la_antisym : forall a b, la a b = true -> la b a = true -> a = b.
Hypothesis lb_total : forall b b', lb b b' = true \/ lb b' b = true.
Hypothesis lb_trans :
  forall a b c, lb a b = true -> lb b c = true -> lb a c = true.

Lemma ea_refl (a : A) : ea a a = true.
Proof. now apply ea_eq. Qed.

Lemma pair_leb_total (x y : A * B) :
  pair_leb ea la lb x y = true \/ pair_leb ea la lb y x = true.
Proof.
  destruct x as [a b], y as [a' b']. unfold pair_leb. cbn.
  destruct (ea a a') eqn:E.
  - apply ea_eq in E. subst a'. rewrite ea_refl. apply lb_total.
  - destruct (ea a' a) eqn:E'.
    + apply ea_eq in E'. subst a'. rewrite ea_refl in E. discriminate.
    + apply la_total.
Qed.

Lemma pair_leb_trans (x y z : A * B) :
  pair_leb ea la lb x y = true -> pair_leb ea la lb y z = true ->
  pair_leb ea la lb x z = true.
Proof.
  destruct x as [a b], y as [a' b'], z as [a'' b'']. unfold pair_leb. cbn.
  destruct (ea a a') eqn:E1.
  - apply ea_eq in E1. subst a'.
    destruct (ea a a''); [apply lb_trans | auto].
  - destruct (ea a' a'') eqn:E2.
    + apply ea_eq in E2. subst a''. rewrite E1. auto.
    + intros H1 H2.
      destruct (ea a a'') eqn:E3.
      * apply ea_eq in E3. subst a''.
        rewrite (la_antisym a a' H1 H2), ea_refl in E1. discriminate.
      * apply (la_trans a a' a''); assumption.
Qed.

Lemma pair_leb_antisym :
  (forall b b', lb b b' = true -> lb b' b = true -> b = b') ->
  forall x y, pair_leb ea la lb x y = true -> pair_leb ea la lb y x = true ->
              x = y.
Proof.
  intros lb_antisym [a b] [a' b']. unfold pair_leb. cbn.
  destruct (ea a a') eqn:E.
  - apply ea_eq in E. subst a'. rewrite ea_refl. intros H1 H2.
    now rewrite (lb_antisym b b' H1 H2).
  - destruct (ea a' a) eqn:E'.
    + apply ea_eq in E'. subst a'. rewrite ea_refl in E. discriminate.
    + intros H1 H2. rewrite (la_antisym a a' H1 H2), ea_refl in E.
      discriminate.
Qed.

End PairOrder.

Lemma Zleb_total (a b : Z) : (a <=? b) = true \/ (b <=? a) = true.
Proof. rewrite !Z.leb_le. lia. Qed.

Lemma Zleb_trans (a b c : Z) :
  (a <=? b) = true -> (b <=? c) = true -> (a <=? c) = true.
Proof. rewrite !Z.leb_le. lia. Qed.

Lemma Zleb_antisym (a b : Z) : (a <=? b) = true -> (b <=? a) = true -> a = b.
Proof. rewrite !Z.leb_le. lia. Qed.

(** The order of dates, read as a proposition. *)
Definition date_le (a b : datetime.date) : Prop :=
  datetime.year a < datetime.year b
  \/ (datetime.year a = datetime.year b
      /\ (datetime.month a < datetime.month b
          \/ (datetime.month a = datetime.month b
              /\ datetime.day a <= datetime.day b))).

Lemma date_leb_le (a b : datetime.date) :
  datetime.leb a b = true <-> date_le a b.
Proof.
  unfold datetime.leb, date_le.
  rewrite !orb_true_iff, !andb_true_iff, !orb_true_iff, !andb_true_iff,
    !Z.ltb_lt, !Z.eqb_eq, Z.leb_le.
  tauto.
Qed.

Lemma date_leb_total (a b : datetime.date) :
  datetime.leb a b = true \/ datetime.leb b a = true.
Proof. rewrite !date_leb_le. unfold date_le. lia. Qed.

Lemma date_leb_trans (a b c : datetime.date) :
  datetime.leb a b = true -> datetime.leb b c = true ->
  datetime.leb a c = true.
Proof. rewrite !date_leb_le. unfold date_le. lia. Qed.

Lemma date_leb_antisym (a b : datetime.date) :
  datetime.leb a b = true -> datetime.leb b a = true -> a = b.
Proof.
  rewrite !date_leb_le. unfold date_le.
  destruct a as [y m d], b as [y' m' d']. cbn.
  intros H1 H2.
  assert (y = y') by lia. assert (m = m') by lia. assert (d = d') by lia.
  congruence.
Qed.

(** The order of a time column, read as a proposition: [NaT] comes
    last. *)
Definition time_le (a b : option Z) : Prop :=
  match a, b with
  | Some x, Some y => x <= y
  | _, None => True
  | None, Some _ => False
  end.

Lemma time_leb_le (a b : option Z) :
  Reading.time_leb a b = true <-> time_le a b.
Proof.
  destruct a as [x |], b as [y |]; cbn;
    rewrite ?Z.leb_le; split; auto; discriminate.
Qed.

Lemma time_leb_total (a b : option Z) :
  Reading.time_leb a b = true \/ Reading.time_leb b a = true.
Proof.
  destruct a as [x |], b as [y |]; cbn; auto. apply Zleb_total.
Qed.

Lemma time_leb_trans (a b c : option Z) :
  Reading.time_leb a b = true -> Reading.time_leb b c = true ->
  Reading.time_leb a c = true.
Proof.
  destruct a as [x |], b as [y |], c as [z |]; cbn; auto;
    try discriminate.
  apply Zleb_trans.
Qed.

Lemma time_leb_antisym (a b : option Z) :
  Reading.time_leb a b = true -> Reading.time_leb b a = true -> a = b.
Proof.
  destruct a as [x |], b as [y |]; cbn; auto; try discriminate.
  intros H1 H2. f_equal. now apply Zleb_antisym.
Qed.

(** The order [Awair.sort_values] sorts by. *)
Definition reading_key (r : Reading.t) : Z * option Z :=
  (Reading.station_id r, Reading.measure_time r).

Definition reading_le (a b : Reading.t) : Prop :=
  Reading.station_id a < Reading.station_id b
  \/ (Reading.station_id a = Reading.station_id b
      /\ time_le (Reading.measure_time a) (Reading.measure_time b)).

Lemma reading_leb_le (a b : Reading.t) :
  pair_leb Z.eqb Z.leb Reading.time_leb (reading_key a) (reading_key b) = true
  <-> reading_le a b.
Proof.
  unfold pair_leb, reading_key, reading_le. cbn [fst snd].
  destruct (Z.eqb_spec (Reading.station_id a) (Reading.station_id b)).
  - rewrite time_leb_le. split; [intros H; right; auto|].
    intros [H | [_ H]]; [lia | exact H].
  - rewrite Z.leb_le. lia.
Qed.

Lemma Awair_sort_values_sorted (data : list Reading.t) :
  StronglySorted reading_le (Awair_sort_values data).
Proof.
  unfold Awair_sort_values, sort_values.
  eapply StronglySorted_impl;
    [| apply sort_keys_sorted].
  - intros a b H. apply reading_leb_le. exact H.
  - intros a b. apply pair_leb_total;
      [apply Z.eqb_eq | apply Zleb_total | apply time_leb_total].
  - intros a b c. apply pair_leb_trans;
      [apply Z.eqb_eq | apply Zleb_trans | apply Zleb_antisym
       | apply time_leb_trans].
Qed.

Lemma Awair_sort_values_stable (data : list Reading.t) (s : Z)
    (t : option Z) :
  filter (fun r => (Reading.station_id r =? s)
                   && Reading.time_eqb (Reading.measure_time r) t)
    (Awair_sort_values data)
  = filter (fun r => (Reading.station_id r =? s)
                     && Reading.time_eqb (Reading.measure_time r) t)
      data.
Proof.
  unfold Awair_sort_values, sort_values.
  apply filter_sort_keys.
  intros k a Hle Hk.
  apply andb_true_iff in Hk. destruct Hk as [Hs Ht].
  apply Z.eqb_eq in Hs. apply time_eqb_eq in Ht.
  apply andb_false_iff.
  destruct (Z.eqb_spec (Reading.station_id a) s) as [Es |]; [| now left].
  destruct (Reading.time_eqb (Reading.measure_time a) t) eqn:Et;
    [| now right].
  apply time_eqb_eq in Et.
  exfalso. unfold pair_leb in Hle. cbn [fst snd] in Hle.
  rewrite Hs, Es, Z.eqb_refl, Ht, Et in Hle.
  destruct (time_leb_total t t) as [H | H]; congruence.
Qed.

(** X3.  [Awair.sort_values] rearranges the rows without adding or losing
    any; afterwards every row stands before all rows of a larger station
    number and, within a station, before all rows of a later time, the rows
    without a time ([NaT]) last; rows of the same station and time keep the
    order they had. *)
Theorem sort_values_sorted_permutation_stable (data : list Reading.t) :
  Permutation data (Awair_sort_values data)
  /\ StronglySorted reading_le (Awair_sort_values data)
  /\ forall (s : Z) (t : option Z),
       filter (fun r => (Reading.station_id r =? s)
                        && Reading.time_eqb (Reading.measure_time r) t)
         (Awair_sort_values data)
       = filter (fun r => (Reading.station_id r =? s)
                          && Reading.time_eqb (Reading.measure_time r) t)
           data.
Proof.
  split; [apply sort_values_perm|].
  split; [apply Awair_sort_values_sorted|].
  apply Awair_sort_values_stable.
Qed.

(** ** Timestamps *)

(** A loader row whose time text [to_datetime] rejects: the call raises. *)
Definition rejected (to_datetime : string -> option (option Z))
    (raw : RawReading.t) : Prop :=
  to_datetime (RawReading.measure_time raw) = None.

(** A converted row is its loader row with the time cell converted, to an
    instant or to [NaT]. *)
Definition converted (to_datetime : string -> option (option Z))
    (raw : RawReading.t) (r : Reading.t) : Prop :=
  to_datetime (RawReading.measure_time raw) = Some (Reading.measure_time r)
  /\ Reading.station_id r = RawReading.station_id raw
  /\ Reading.value r = RawReading.value raw.

Lemma convert_datetime_Some (to_datetime : string -> option (option Z))
    (data : list RawReading.t) (rows : list Reading.t) :
  convert_datetime to_datetime data = Some rows ->
  Forall2 (converted to_datetime) data rows.
Proof.
  revert rows. induction data as [| raw data IH]; cbn; intros rows.
  - intros [= <-]. constructor.
  - destruct (to_datetime (RawReading.measure_time raw)) as [t |] eqn:Et;
      [| discriminate].
    destruct (convert_datetime to_datetime data) as [rows' |];
      [| discriminate].
    intros [= <-]. constructor; [| now apply IH].
    unfold converted. cbn. auto.
Qed.

Lemma convert_datetime_None (to_datetime : string -> option (option Z))
    (data : list RawReading.t) :
  convert_datetime to_datetime data = None ->
  Exists (rejected to_datetime) data.
Proof.
  induction data as [| raw data IH]; cbn; [discriminate|].
  destruct (to_datetime (RawReading.measure_time raw)) as [t |] eqn:Et.
  - destruct (convert_datetime to_datetime data) as [rows' |];
      [discriminate|].
    intros _. apply Exists_cons_tl. now apply IH.
  - intros _. now apply Exists_cons_hd.
Qed.

Lemma convert_datetime_rejected (to_datetime : string -> option (option Z))
    (data : list RawReading.t) :
  Exists (rejected to_datetime) data ->
  convert_datetime to_datetime data = None.
Proof.
  induction 1 as [raw data H | raw data H IH]; cbn.
  - unfold rejected in H. now rewrite H.
  - rewrite IH. now destruct (to_datetime (RawReading.measure_time raw)).
Qed.

(** ** The cleaning pipeline *)

(** The row has an instant, and the instant lies in the window from
    1 April 2019 up to, not including, 1 May 2019. *)
Definition in_window (Timestamp : string -> Z) (r : Reading.t) : Prop :=
  exists t : Z,
    Reading.measure_time r = Some t /\
    Timestamp "2019-04-01"%string <= t < Timestamp "2019-05-01"%string.

Lemma in_limit_time_range (Timestamp : string -> Z) (data : list Reading.t)
    (r : Reading.t) :
  In r (limit_time_range Timestamp "2019-04-01" "2019-05-01" data) <->
  In r data /\ in_window Timestamp r.
Proof.
  unfold limit_time_range, in_window. rewrite filter_In, andb_true_iff.
  unfold Reading.time_ge, Reading.time_lt.
  destruct (Reading.measure_time r) as [t |].
  - rewrite Z.geb_le, Z.ltb_lt. split.
    + intros [Hin H]. split; [exact Hin|]. exists t. split; [reflexivity | lia].
    + intros [Hin [t' [[= <-] H]]]. split; [exact Hin | lia].
  - split.
    + intros [_ [H _]]. discriminate H.
    + intros [_ [t' [H _]]]. discriminate H.
Qed.

Lemma ForallOrdPairs_perm {A : Type} (R : A -> A -> Prop) (l l' : list A) :
  (forall a b, R a b -> R b a) ->
  Permutation l l' -> ForallOrdPairs R l -> ForallOrdPairs R l'.
Proof.
  intros Hsym. induction 1 as [| x l l' Hp IH | x y l | l l' l'' H1 IH1 H2 IH2].
  - auto.
  - intros H. inversion H as [| ? ? Hx Hl]; subst.
    constructor; [| auto].
    eapply Permutation_Forall; eauto.
  - intros H. inversion H as [| ? ? Hy Hl]; subst.
    inversion Hl as [| ? ? Hx Hl']; subst.
    inversion Hy as [| ? ? Hyx Hy']; subst.
    constructor; [| constructor; assumption].
    constructor; [apply Hsym; exact Hyx | exact Hx].
  - auto.
Qed.

Lemma Reading_eqb_true_time (a b : Reading.t) :
  Reading.eqb a b = true -> Reading.measure_time a = Reading.measure_time b.
Proof.
  unfold Reading.eqb. rewrite !andb_true_iff, time_eqb_eq. tauto.
Qed.

(** The three steps after the conversion, as [preprocess_data] chains
    them. *)
Definition cleaned (Timestamp : string -> Z) (data0 : list Reading.t)
    : list Reading.t :=
  limit_time_range Timestamp "2019-04-01"%string "2019-05-01"
    (Awair_sort_values (remove_duplicates data0)).

Lemma preprocess_data_returns (Timestamp : string -> Z)
    (to_datetime : string -> option (option Z)) (self self' : Awair.t)
    (output_dir : string) (w w' : world) :
  preprocess_data Timestamp to_datetime self output_dir w = (Ok self', w') ->
  exists frame data0,
    Awair.data self = Some frame /\
    match frame with
    | RawFrame raw => convert_datetime to_datetime raw
    | CleanFrame data => Some data
    end = Some data0 /\
    self' = Awair.mk (Some (CleanFrame (cleaned Timestamp data0)))
              (Awair.hourly self) (Awair.daily self) (Awair.monthly self) /\
    written w'
    = (os_path.join output_dir "data.csv", DataCsv (cleaned Timestamp data0))
        :: written w.
Proof.
  unfold preprocess_data. intros H.
  destruct (Awair.data self) as [frame |]; [| discriminate H].
  cbn zeta in H.
  destruct (match frame with
            | RawFrame raw => convert_datetime to_datetime raw
            | CleanFrame data => Some data
            end) as [data0 |] eqn:E; [| discriminate H].
  apply bind_returns in H. destruct H as [u1 [w1 [H1 H]]].
  apply log_msg_written in H1. destruct H1 as [_ E1].
  apply bind_returns in H. destruct H as [u2 [w2 [H2 H]]].
  apply log_msg_written in H2. destruct H2 as [_ E2].
  apply bind_returns in H. destruct H as [u3 [w3 [H3 H]]].
  apply log_msg_written in H3. destruct H3 as [_ E3].
  apply bind_returns in H. destruct H as [u4 [w4 [H4 H]]].
  apply log_msg_written in H4. destruct H4 as [_ E4].
  apply bind_returns in H. destruct H as [u5 [w5 [H5 H]]].
  apply export_to_csv_returns in H5.
  injection H as <- <-.
  exists frame, data0. unfold cleaned.
  rewrite H5, E4, E3, E2, E1. auto.
Qed.

Lemma cleaned_sorted (Timestamp : string -> Z) (data0 : list Reading.t) :
  StronglySorted reading_le (cleaned Timestamp data0).
Proof.
  unfold cleaned, limit_time_range.
  apply StronglySorted_filter, Awair_sort_values_sorted.
Qed.

Lemma cleaned_distinct (Timestamp : string -> Z) (data0 : list Reading.t) :
  ForallOrdPairs (fun a b => Reading.eqb a b = false)
    (cleaned Timestamp data0).
Proof.
  unfold cleaned, limit_time_range.
  apply ForallOrdPairs_filter.
  apply (ForallOrdPairs_perm _ (remove_duplicates data0)).
  - intros a b H. now rewrite Reading_eqb_sym.
  - apply sort_values_perm.
  - apply drop_duplicates_distinct.
Qed.

Lemma in_cleaned (Timestamp : string -> Z) (data0 : list Reading.t)
    (r : Reading.t) :
  In r (cleaned Timestamp data0) -> In r data0 /\ in_window Timestamp r.
Proof.
  unfold cleaned. intros H. apply in_limit_time_range in H.
  destruct H as [H Hw]. split; [| exact Hw].
  apply (Permutation_in _ (Permutation_sym (sort_values_perm _ _ _))) in H.
  now apply in_drop_duplicates.
Qed.

Lemma in_window_compat (Timestamp : string -> Z) (a b : Reading.t) :
  Reading.eqb a b = true -> in_window Timestamp a -> in_window Timestamp b.
Proof.
  intros E [t [Ht H]]. exists t. split; [| exact H].
  now rewrite <- (Reading_eqb_true_time a b E).
Qed.

Lemma cleaned_keeps_one (Timestamp : string -> Z) (data0 : list Reading.t)
    (r : Reading.t) :
  In r data0 -> in_window Timestamp r ->
  exists r', In r' (cleaned Timestamp data0)
             /\ (r' = r \/ Reading.eqb r r' = true).
Proof.
  intros Hin Hw.
  destruct (drop_duplicates_keeps_one data0 r Hin) as [r' [Hr' Heq]].
  exists r'. split; [| exact Heq].
  unfold cleaned. apply in_limit_time_range. split.
  - apply (Permutation_in _ (sort_values_perm _ _ _)). exact Hr'.
  - destruct Heq as [-> | Heq]; [exact Hw|].
    exact (in_window_compat Timestamp r r' Heq Hw).
Qed.

(** *** The window filter first or last *)

Section SortFilter.
Context {A : Type}.
Variable leb : A -> A -> bool.
Hypothesis leb_total : forall a b, leb a b = true \/ leb b a = true.
Hypothesis leb_trans :
  forall a b c, leb a b = true -> leb b c = true -> leb a c = true.

Lemma insert_key_least (k : A) (ks : list A) :
  (forall a, In a ks -> leb k a = true) -> insert_key leb k ks = k :: ks.
Proof.
  destruct ks as [| a ks]; [reflexivity|].
  intros H. cbn. now rewrite (H a (or_introl eq_refl)).
Qed.

Lemma filter_insert_key_sorted (p : A -> bool) (k : A) (ks : list A) :
  StronglySorted (fun a b => leb a b = true) ks ->
  filter p (insert_key leb k ks)
  = if p k then insert_key leb k (filter p ks) else filter p ks.
Proof.
  induction 1 as [| a ks Hs IH Ha]; cbn [insert_key filter].
  - destruct (p k); reflexivity.
  - destruct (leb k a) eqn:E.
    + cbn [filter].
      destruct (p k); [| reflexivity].
      symmetry.
      apply (insert_key_least k (if p a then a :: filter p ks else filter p ks)).
      intros b Hb.
      assert (Hin : In b (a :: ks)).
      { destruct (p a); [destruct Hb as [<- | Hb]; [now left|]|];
          right; apply filter_In in Hb; tauto. }
      destruct Hin as [<- | Hin]; [exact E|].
      rewrite Forall_forall in Ha. exact (leb_trans k a b E (Ha b Hin)).
    + cbn [filter]. rewrite IH.
      destruct (p a), (p k); cbn [insert_key]; rewrite ?E; reflexivity.
Qed.

(** A filter and a stable sort can be applied in either order. *)
Lemma filter_sort_keys_comm (p : A -> bool) (ks : list A) :
  filter p (sort_keys leb ks) = sort_keys leb (filter p ks).
Proof.
  induction ks as [| k ks IH]; cbn [sort_keys filter]; [reflexivity|].
  rewrite filter_insert_key_sorted
    by (apply sort_keys_sorted; assumption).
  rewrite IH. destruct (p k); reflexivity.
Qed.

End SortFilter.

(** The row has an instant. *)
Definition notna_time (r : Reading.t) : bool :=
  match Reading.measure_time r with
  | Some _ => true
  | None => false
  end.

Lemma limit_time_range_notna (Timestamp : string -> Z)
    (lower_band upper_band : string) (data : list Reading.t) :
  limit_time_range Timestamp lower_band upper_band (filter notna_time data)
  = limit_time_range Timestamp lower_band upper_band data.
Proof.
  unfold limit_time_range. apply filter_impl.
  intros r _ H. unfold notna_time.
  destruct (Reading.measure_time r); [reflexivity | discriminate H].
Qed.

Lemma limit_time_range_first (Timestamp : string -> Z)
    (lower_band upper_band : string) (data : list Reading.t) :
  limit_time_range Timestamp lower_band upper_band
    (Awair_sort_values (remove_duplicates data))
  = Awair_sort_values
      (remove_duplicates
         (limit_time_range Timestamp lower_band upper_band data)).
Proof.
  unfold limit_time_range, Awair_sort_values, sort_values, remove_duplicates.
  rewrite filter_sort_keys_comm.
  - f_equal. symmetry. apply drop_duplicates_filter.
    intros a b E. now rewrite (Reading_eqb_true_time a b E).
  - intros a b. apply pair_leb_total;
      [apply Z.eqb_eq | apply Zleb_total | apply time_leb_total].
  - intros a b c. apply pair_leb_trans;
      [apply Z.eqb_eq | apply Zleb_trans | apply Zleb_antisym
       | apply time_leb_trans].
Qed.

(** X4.  In the cleaning of [preprocess_data] the time window can be
    applied first or last: the frame is the one that results when the rows
    outside the window are taken out before the duplicates are removed and
    the rows sorted.  The rows without a time ([NaT], from an empty cell)
    make no difference: the frame is the same as without them, and none of
    them is in it. *)
Theorem cleaning_applies_window_first_or_last (Timestamp : string -> Z)
    (data0 : list Reading.t) :
  cleaned Timestamp data0
  = Awair_sort_values
      (remove_duplicates
         (limit_time_range Timestamp "2019-04-01" "2019-05-01" data0))
  /\ cleaned Timestamp data0 = cleaned Timestamp (filter notna_time data0)
  /\ Forall (fun r => Reading.measure_time r <> None)
       (cleaned Timestamp data0).
Proof.
  split; [apply limit_time_range_first|].
  split.
  - unfold cleaned. rewrite !limit_time_range_first.
    now rewrite limit_time_range_notna.
  - apply Forall_forall. intros r Hr. apply in_cleaned in Hr.
    destruct Hr as [_ [t [Ht _]]]. congruence.
Qed.

(** X5.  When [preprocess_data] returns on loader rows, no time text was
    rejected: every row was converted, to an instant or, for an empty
    cell, to [NaT].  The frame it leaves in [self.data] is the one it wrote
    to [data.csv], the only file it wrote; that frame is sorted by station
    and time, has no two equal rows, holds only converted input rows whose
    instant lies in the window from 1 April 2019 up to, not including,
    1 May 2019 (so no row without a time), and holds every such row or a
    row equal to it. *)
Theorem preprocess_data_cleans (Timestamp : string -> Z)
    (to_datetime : string -> option (option Z)) (self self' : Awair.t)
    (raw : list RawReading.t) (output_dir : string) (w w' : world) :
  Awair.data self = Some (RawFrame raw) ->
  preprocess_data Timestamp to_datetime self output_dir w = (Ok self', w') ->
  exists data0 data,
    Forall2 (converted to_datetime) raw data0 /\
    ~ Exists (rejected to_datetime) raw /\
    Awair.data self' = Some (CleanFrame data) /\
    written w'
    = (os_path.join output_dir "data.csv", DataCsv data) :: written w /\
    StronglySorted reading_le data /\
    ForallOrdPairs (fun a b => Reading.eqb a b = false) data /\
    (forall r, In r data -> In r data0 /\ in_window Timestamp r) /\
    (forall r, In r data0 -> in_window Timestamp r ->
       exists r', In r' data /\ (r' = r \/ Reading.eqb r r' = true)).
Proof.
  intros Hraw H.
  apply preprocess_data_returns in H.
  destruct H as [frame [data0 [Hf [Hc [-> Hw]]]]].
  rewrite Hraw in Hf. injection Hf as <-.
  exists data0, (cleaned Timestamp data0).
  split; [now apply convert_datetime_Some|].
  split.
  { intros Hx. apply convert_datetime_rejected in Hx. congruence. }
  split; [reflexivity|].
  split; [exact Hw|].
  split; [apply cleaned_sorted|].
  split; [apply cleaned_distinct|].
  split; [apply in_cleaned | apply cleaned_keeps_one].
Qed.

(** A loader frame with a duplicate, a row out of order, a row of May and a
    row with an empty time cell. *)
Definition raw_sample : list RawReading.t :=
  [RawReading.mk 2 "b" 30%float;
   RawReading.mk 1 "b" 20%float;
   RawReading.mk 1 EmptyString 50%float;
   RawReading.mk 1 "a" 10%float;
   RawReading.mk 1 "b" 20%float;
   RawReading.mk 1 "c" 40%float].

Definition writable_world : world :=
  mkworld (fun _ => true) (fun _ => None) (fun _ => None) (fun _ => None)
    (fun _ => true) [] [].

Lemma preprocess_data_cleans_witness :
  let Timestamp := fun s : string =>
    if String.eqb s "2019-04-01" then 0 else 2592000 in
  let to_datetime := fun s : string =>
    if String.eqb s "a" then Some (Some 100)
    else if String.eqb s "b" then Some (Some 200)
    else if String.eqb s "c" then Some (Some 2592000)
    else if String.eqb s EmptyString then Some None
    else None in
  let self := Awair.mk (Some (RawFrame raw_sample)) None None None in
  let run :=
    preprocess_data Timestamp to_datetime self "output" writable_world in
  exists data0 data,
    Forall2 (converted to_datetime) raw_sample data0 /\
    ~ Exists (rejected to_datetime) raw_sample /\
    Awair.data
      (Awair.mk
         (Some (CleanFrame [Reading.mk 1 (Some 100) 10%float;
                            Reading.mk 1 (Some 200) 20%float;
                            Reading.mk 2 (Some 200) 30%float]))
         None None None)
    = Some (CleanFrame data) /\
    written (snd run)
    = (os_path.join "output" "data.csv", DataCsv data)
        :: written writable_world /\
    StronglySorted reading_le data /\
    ForallOrdPairs (fun a b => Reading.eqb a b = false) data /\
    (forall r, In r data -> In r data0 /\ in_window Timestamp r) /\
    (forall r, In r data0 -> in_window Timestamp r ->
       exists r', In r' data /\ (r' = r \/ Reading.eqb r r' = true)).
Proof.
  intros Timestamp to_datetime self run.
  apply (preprocess_data_cleans Timestamp to_datetime self _ raw_sample
           "output" writable_world (snd run)).
  - reflexivity.
  - vm_compute. reflexivity.
Defined.

(** * The merge with the station file *)

(** The stations a monthly row is joined with. *)
Definition stations_of (m : Monthly.t) (stations : list Station.t)
    : list Station.t :=
  filter (fun s => Station.id s =? Monthly.station_id m) stations.

Lemma merge_stations_cons (m : Monthly.t) (monthly : list Monthly.t)
    (stations : list Station.t) :
  merge_stations (m :: monthly) stations
  = match stations_of m stations with
    | [] => [MonthlyOut.mk m None]
    | found => map (fun s => MonthlyOut.mk m (Some s)) found
    end ++ merge_stations monthly stations.
Proof. reflexivity. Qed.

Lemma map_const_repeat {A B : Type} (b : B) (l : list A) :
  map (fun _ => b) l = repeat b (List.length l).
Proof. induction l as [| a l IH]; cbn; [| rewrite IH]; reflexivity. Qed.

Lemma in_merge_stations_iff (monthly : list Monthly.t)
    (stations : list Station.t) (o : MonthlyOut.t) :
  In o (merge_stations monthly stations) <->
  In (MonthlyOut.stats o) monthly /\
  match MonthlyOut.info o with
  | Some s =>
      In s stations
      /\ Station.id s = Monthly.station_id (MonthlyOut.stats o)
  | None =>
      forall s, In s stations ->
                Station.id s <> Monthly.station_id (MonthlyOut.stats o)
  end.
Proof.
  unfold merge_stations. rewrite in_flat_map.
  destruct o as [m' info]. cbn.
  split.
  - intros [m [Hm Ho]].
    fold (stations_of m stations) in Ho.
    destruct (stations_of m stations) as [| s found] eqn:E.
    + destruct Ho as [[= <- <-] | []].
      split; [exact Hm|].
      intros s Hs Hid.
      assert (Hin : In s (stations_of m stations)).
      { apply filter_In. split; [exact Hs | now apply Z.eqb_eq]. }
      rewrite E in Hin. exact Hin.
    + assert (Ho' : In (MonthlyOut.mk m' info)
                      (map (fun s1 => MonthlyOut.mk m (Some s1)) (s :: found)))
        by exact Ho.
      apply in_map_iff in Ho'. destruct Ho' as [s' [[= <- <-] Hs']].
      split; [exact Hm|].
      rewrite <- E in Hs'. apply filter_In in Hs'.
      destruct Hs' as [Hs' Hid]. apply Z.eqb_eq in Hid. auto.
  - intros [Hm Hinfo].
    exists m'. split; [exact Hm|].
    fold (stations_of m' stations).
    destruct info as [s |].
    + destruct Hinfo as [Hs Hid].
      assert (Hin : In s (stations_of m' stations)).
      { apply filter_In. split; [exact Hs | now apply Z.eqb_eq]. }
      destruct (stations_of m' stations) as [| s0 found]; [contradiction|].
      exact (in_map (fun s1 => MonthlyOut.mk m' (Some s1)) _ s Hin).
    + destruct (stations_of m' stations) as [| s0 found] eqn:E;
        [now left|].
      exfalso.
      assert (Hin : In s0 (stations_of m' stations))
        by (rewrite E; now left).
      apply filter_In in Hin. destruct Hin as [Hs0 Hid].
      apply Z.eqb_eq in Hid. exact (Hinfo s0 Hs0 Hid).
Qed.

Lemma map_stats_merge_stations (monthly : list Monthly.t)
    (stations : list Station.t) :
  map MonthlyOut.stats (merge_stations monthly stations)
  = flat_map
      (fun m => repeat m (Nat.max 1 (List.length (stations_of m stations))))
      monthly.
Proof.
  induction monthly as [| m monthly IH]; [reflexivity|].
  rewrite merge_stations_cons, map_app, IH. cbn [flat_map]. f_equal.
  destruct (stations_of m stations) as [| s found]; [reflexivity|].
  rewrite map_map. cbn [MonthlyOut.stats].
  now rewrite map_const_repeat.
Qed.

Lemma merge_stations_length (monthly : list Monthly.t)
    (stations : list Station.t) :
  (List.length monthly
   <= List.length (merge_stations monthly stations))%nat.
Proof.
  induction monthly as [| m monthly IH]; [cbn; lia|].
  rewrite merge_stations_cons, length_app.
  destruct (stations_of m stations) as [| s found]; cbn in *; lia.
Qed.

(** X6.  The merge is a left join on the station number.  A row of the
    result is a monthly row together with a station of that number, or
    with no station when the file has none of that number; no monthly row
    is dropped; the rows follow the order of the monthly frame, a monthly
    row being repeated once per station of its number. *)
Theorem merge_stations_left_join (monthly : list Monthly.t)
    (stations : list Station.t) :
  (forall o : MonthlyOut.t,
     In o (merge_stations monthly stations) <->
     In (MonthlyOut.stats o) monthly /\
     match MonthlyOut.info o with
     | Some s =>
         In s stations
         /\ Station.id s = Monthly.station_id (MonthlyOut.stats o)
     | None =>
         forall s, In s stations ->
                   Station.id s <> Monthly.station_id (MonthlyOut.stats o)
     end)
  /\ map MonthlyOut.stats (merge_stations monthly stations)
     = flat_map
         (fun m =>
            repeat m (Nat.max 1 (List.length (stations_of m stations))))
         monthly
  /\ (List.length monthly
      <= List.length (merge_stations monthly stations))%nat.
Proof.
  split; [apply in_merge_stations_iff|].
  split; [apply map_stats_merge_stations | apply merge_stations_length].
Qed.

Lemma stations_of_unique (m : Monthly.t) (stations : list Station.t) :
  NoDup (map Station.id stations) ->
  (List.length (stations_of m stations) <= 1)%nat.
Proof.
  unfold stations_of.
  induction stations as [| s stations IH]; cbn; [lia|].
  intros H. inversion H as [| ? ? Hnotin Hnd]; subst.
  destruct (Z.eqb_spec (Station.id s) (Monthly.station_id m)) as [E |].
  - cbn.
    assert (Hnil :
      filter (fun s0 => Station.id s0 =? Monthly.station_id m) stations = []).
    { destruct (filter (fun s0 => Station.id s0 =? Monthly.station_id m)
                  stations) as [| s1 found] eqn:Ef; [reflexivity|].
      exfalso. apply Hnotin.
      assert (Hin : In s1 (filter (fun s0 => Station.id s0
                                             =? Monthly.station_id m)
                             stations))
        by (rewrite Ef; now left).
      apply filter_In in Hin. destruct Hin as [Hin Hid].
      apply Z.eqb_eq in Hid. rewrite E, <- Hid. now apply in_map. }
    rewrite Hnil. cbn. lia.
  - now apply IH.
Qed.

(** X7.  When no two stations of the file share a number, the merge
    returns exactly one row per monthly row, in the same order, with the
    statistics unchanged. *)
Theorem merge_stations_one_row_each (monthly : list Monthly.t)
    (stations : list Station.t) :
  NoDup (map Station.id stations) ->
  map MonthlyOut.stats (merge_stations monthly stations) = monthly.
Proof.
  intros Hnd. rewrite map_stats_merge_stations.
  induction monthly as [| m monthly IH]; [reflexivity|].
  cbn [flat_map]. rewrite IH.
  pose proof (stations_of_unique m stations Hnd) as Hle.
  destruct (stations_of m stations) as [| s [| s' found]];
    cbn in *; [reflexivity | reflexivity | lia].
Qed.

Lemma merge_stations_one_row_each_witness :
  let m1 := Monthly.mk 1 (datetime.mkdate 2019 4 1) 40 20 3 0 0 90 in
  let m7 := Monthly.mk 7 (datetime.mkdate 2019 4 1) 55 25 12 1 0 210 in
  let s1 := Station.mk 1 "Centrum" "Rynek 1" 3 "Srodmiescie"
              (502591 # 10000) (190216 # 10000) in
  let s2 := Station.mk 2 "Ligota" "Panewnicka 5" 9 "Ligota"
              (502263 # 10000) (189711 # 10000) in
  NoDup (map Station.id [s1; s2]) /\
  map MonthlyOut.stats (merge_stations [m1; m7] [s1; s2]) = [m1; m7] /\
  merge_stations [m1; m7] [s1; s2]
  = [MonthlyOut.mk m1 (Some s1); MonthlyOut.mk m7 None].
Proof.
  intros m1 m7 s1 s2.
  assert (Hnd : NoDup (map Station.id [s1; s2])).
  { cbn. repeat constructor; cbn; intuition discriminate. }
  split; [exact Hnd|].
  split; [exact (merge_stations_one_row_each [m1; m7] [s1; s2] Hnd)|].
  reflexivity.
Defined.

(** * The stages as steps of the process *)

(** The file system as the process found it: no step changes what exists,
    what the readers return or what can be written. *)
Definition same_files (w w' : world) : Prop :=
  path_exists w' = path_exists w
  /\ read_sqlite w' = read_sqlite w
  /\ read_csv w' = read_csv w
  /\ read_stations w' = read_stations w
  /\ writable w' = writable w.

Lemma same_files_refl (w : world) : same_files w w.
Proof. repeat split. Qed.

Lemma same_files_trans (w1 w2 w3 : world) :
  same_files w1 w2 -> same_files w2 w3 -> same_files w1 w3.
Proof.
  unfold same_files. intros [A1 [B1 [C1 [D1 E1]]]] [A2 [B2 [C2 [D2 E2]]]].
  repeat split; congruence.
Qed.

(** A computation that writes no file. *)
Definition silent {A : Type} (c : proc A) : Prop :=
  forall w,
    same_files w (snd (c w))
    /\ written (snd (c w)) = written w
    /\ fst (c w) <> Raised (SystemExit 0).

(** A computation that writes the file [path] as its last act when it
    returns, and no file when it raises. *)
Definition writes_last {A : Type} (path : string) (c : proc A) : Prop :=
  forall w,
    same_files w (snd (c w))
    /\ fst (c w) <> Raised (SystemExit 0)
    /\ match fst (c w) with
       | Ok _ => exists data, written (snd (c w)) = (path, data) :: written w
       | Raised _ => written (snd (c w)) = written w
       end.

Lemma silent_ret {A : Type} (a : A) : silent (ret a).
Proof. intros w. cbn. repeat split. discriminate. Qed.

Lemma silent_raise {A : Type} (e : exn) :
  e <> SystemExit 0 -> silent (@raise A e).
Proof. intros He w. cbn. repeat split. intros [= E]. now apply He. Qed.

Lemma silent_log_msg (level : log_level) (msg : string) :
  silent (log_msg level msg).
Proof. intros w. cbn. repeat split. discriminate. Qed.

Lemma silent_os_path_exists (path : option string) :
  silent (os_path_exists path).
Proof.
  intros w. unfold os_path_exists.
  destruct path; cbn; repeat split; discriminate.
Qed.

Lemma silent_read_with {A : Type} (reader : world -> string -> option A)
    (path : string) :
  silent (read_with reader path).
Proof.
  intros w. unfold read_with.
  destruct (was_written path w); cbn; [repeat split; discriminate|].
  destruct (reader w path); cbn; repeat split; discriminate.
Qed.

Lemma silent_bind {A B : Type} (c : proc A) (k : A -> proc B) :
  silent c -> (forall a, silent (k a)) -> silent (bind c k).
Proof.
  intros Hc Hk w. unfold bind.
  destruct (Hc w) as [Fc [Wc Nc]].
  destruct (c w) as [[a | e] w1]; cbn [fst snd] in *.
  - destruct (Hk a w1) as [Fk [Wk Nk]].
    split; [eapply same_files_trans; eassumption|].
    split; [congruence | exact Nk].
  - split; [exact Fc | split; [exact Wc|]].
    intros [= E]. apply Nc. now rewrite E.
Qed.

Lemma writes_last_raise {A : Type} (path : string) (e : exn) :
  e <> SystemExit 0 -> writes_last path (@raise A e).
Proof.
  intros He w. cbn. split; [apply same_files_refl|].
  split; [| reflexivity]. intros [= E]. now apply He.
Qed.

Lemma writes_last_bind {A B : Type} (path : string) (c : proc A)
    (k : A -> proc B) :
  silent c -> (forall a, writes_last path (k a)) ->
  writes_last path (bind c k).
Proof.
  intros Hc Hk w. unfold bind.
  destruct (Hc w) as [Fc [Wc Nc]].
  destruct (c w) as [[a | e] w1]; cbn [fst snd] in *.
  - destruct (Hk a w1) as [Fk [Nk Wk]].
    split; [eapply same_files_trans; eassumption|].
    split; [exact Nk|].
    destruct (fst (k a w1)); [| congruence].
    destruct Wk as [data Wk]. exists data. congruence.
  - split; [exact Fc|]. split; [| exact Wc].
    intros [= E]. apply Nc. now rewrite E.
Qed.

Lemma writes_last_export_to_csv {A : Type} (data : csv_frame)
    (output_dir output_file : string) (a : A) :
  writes_last (os_path.join output_dir output_file)
    (bind (export_to_csv data output_dir output_file) (fun _ => ret a)).
Proof.
  intros w. unfold export_to_csv, bind, to_csv, log_msg, ret.
  destruct (writable w (os_path.join output_dir output_file)); cbn.
  - repeat split; [discriminate | now exists data].
  - repeat split. discriminate.
Qed.

Lemma silent_read_data (self : Awair.t) (input_file : string) :
  silent (read_data self input_file).
Proof.
  unfold read_data, _read_sqlite, _read_csv.
  apply silent_bind; [apply silent_os_path_exists | intros found].
  destruct (negb found).
  - apply silent_bind; [apply silent_log_msg | intros _].
    apply silent_raise. discriminate.
  - destruct (String.eqb _ ".db").
    + apply silent_bind; [| intros data; apply silent_ret].
      apply silent_bind; [apply silent_read_with | intros data].
      apply silent_bind; [apply silent_log_msg | intros _; apply silent_ret].
    + destruct (String.eqb _ ".csv").
      * apply silent_bind; [| intros data; apply silent_ret].
        apply silent_bind; [apply silent_read_with | intros data].
        apply silent_bind; [apply silent_log_msg | intros _; apply silent_ret].
      * apply silent_bind; [apply silent_log_msg | intros _].
        apply silent_raise. discriminate.
Qed.

Lemma silent_add_station_info (monthly : list Monthly.t)
    (station_file : option string) :
  silent (add_station_info monthly station_file).
Proof.
  unfold add_station_info.
  apply silent_bind; [apply silent_os_path_exists | intros found].
  destruct (negb found).
  - apply silent_bind; [apply silent_log_msg | intros _].
    apply silent_raise. discriminate.
  - destruct station_file as [path |]; [| apply silent_raise; discriminate].
    apply silent_bind; [apply silent_read_with | intros stations].
    apply silent_bind; [apply silent_log_msg | intros _; apply silent_ret].
Qed.

Lemma writes_last_preprocess_data (Timestamp : string -> Z)
    (to_datetime : string -> option (option Z)) (self : Awair.t) (output_dir : string) :
  writes_last (os_path.join output_dir "data.csv")
    (preprocess_data Timestamp to_datetime self output_dir).
Proof.
  unfold preprocess_data.
  destruct (Awair.data self) as [frame |];
    [| apply writes_last_raise; discriminate].
  cbn zeta.
  destruct (match frame with
            | RawFrame raw => convert_datetime to_datetime raw
            | CleanFrame data => Some data
            end) as [data0 |];
    [| apply writes_last_raise; discriminate].
  repeat (apply writes_last_bind; [apply silent_log_msg | intros _]).
  apply writes_last_export_to_csv.
Qed.

Lemma writes_last_generate_hourly_stats (dt_date : Z -> datetime.date)
    (dt_hour : Z -> Z) (self : Awair.t) (output_dir : string) :
  writes_last (os_path.join output_dir "hourly_stats.csv")
    (generate_hourly_stats dt_date dt_hour self output_dir).
Proof.
  unfold generate_hourly_stats.
  destruct (Awair.data self) as [[raw | clean] |];
    try (apply writes_last_raise; discriminate).
  apply writes_last_bind; [apply silent_log_msg | intros _].
  apply writes_last_export_to_csv.
Qed.

Lemma writes_last_generate_daily_stats (self : Awair.t)
    (output_dir : string) :
  writes_last (os_path.join output_dir "daily_stats.csv")
    (generate_daily_stats self output_dir).
Proof.
  unfold generate_daily_stats.
  destruct (Awair.hourly self) as [hourly |];
    [| apply writes_last_raise; discriminate].
  repeat (apply writes_last_bind; [apply silent_log_msg | intros _]).
  apply writes_last_export_to_csv.
Qed.

Lemma writes_last_generate_monthly_stats (self : Awair.t)
    (station_file : option string) (output_dir : string) :
  writes_last (os_path.join output_dir "monthly_stats.csv")
    (generate_monthly_stats self station_file output_dir).
Proof.
  unfold generate_monthly_stats.
  destruct (Awair.daily self) as [daily |];
    [| apply writes_last_raise; discriminate].
  destruct (monthly_stats daily) as [daily' monthly].
  apply writes_last_bind; [apply silent_log_msg | intros _].
  apply writes_last_bind; [apply silent_add_station_info | intros merged].
  apply writes_last_export_to_csv.
Qed.

(** The four files of a run, in the order [main] writes them. *)
Definition output_paths (output_dir : string) : list string :=
  [os_path.join output_dir "data.csv";
   os_path.join output_dir "hourly_stats.csv";
   os_path.join output_dir "daily_stats.csv";
   os_path.join output_dir "monthly_stats.csv"].

Lemma exit_status_zero {A : Type} (r : result A) :
  r <> Raised (SystemExit 0) ->
  (exit_status r = 0 <-> exists a, r = Ok a).
Proof.
  intros Hr. destruct r as [a | [code | | |]]; cbn.
  - split; eauto.
  - split; [intros -> | intros [a E]]; [now elim Hr | discriminate].
  - split; [discriminate | intros [a E]; discriminate].
  - split; [discriminate | intros [a E]; discriminate].
  - split; [discriminate | intros [a E]; discriminate].
Qed.

(** X8.  Whatever the arguments and the file system, [main] writes only
    the files data.csv, hourly_stats.csv, daily_stats.csv and
    monthly_stats.csv of the output directory, each at most once and in
    this order, a later one never without the earlier ones; it returns
    normally exactly when all four were written, and the exit status is 0
    exactly when it returns normally. *)
Theorem main_writes_its_four_files_in_order
    (dt_date : Z -> datetime.date) (dt_hour : Z -> Z)
    (Timestamp : string -> Z) (to_datetime : string -> option (option Z))
    (args : arguments) (w : world) :
  let run := main dt_date dt_hour Timestamp to_datetime args w in
  exists (n : nat) (files : list (string * csv_frame)),
    written (snd run) = files ++ written w
    /\ map fst files = rev (firstn n (output_paths (output_dir args)))
    /\ (fst run = Ok tt <-> n = 4%nat)
    /\ (exit_status (fst run) = 0 <-> fst run = Ok tt).
Proof.
  intros run.
  assert (Hrun : run = main dt_date dt_hour Timestamp to_datetime args w)
    by reflexivity.
  clearbody run.
  unfold main, Awair_init in Hrun.
  set (out := output_dir args) in *.
  unfold bind at 1 in Hrun.
  destruct (silent_read_data (Awair.mk None None None None)
              (input_file args) w) as [_ [W0 N0]].
  destruct (read_data _ (input_file args) w) as [[a0 | e0] w0];
    cbn [fst snd] in *.
  2:{ subst run. exists 0%nat, []. cbn [fst snd app]. rewrite W0.
      split; [reflexivity | split; [reflexivity|]].
      split; [split; [discriminate | discriminate]|].
      split; [| discriminate].
      intros H. exfalso. revert H. apply exit_status_raised.
      intros E. apply N0. now rewrite E. }
  unfold bind at 1 in Hrun.
  destruct (writes_last_preprocess_data Timestamp to_datetime a0 out w0)
    as [_ [N1 W1]].
  destruct (preprocess_data Timestamp to_datetime a0 out w0)
    as [[a1 | e1] w1]; cbn [fst snd] in *.
  2:{ subst run. exists 0%nat, []. cbn [fst snd app]. rewrite W1, W0.
      split; [reflexivity | split; [reflexivity|]].
      split; [split; [discriminate | discriminate]|].
      split; [| discriminate].
      intros H. exfalso. revert H. apply exit_status_raised.
      intros E. apply N1. now rewrite E. }
  destruct W1 as [d1 W1].
  unfold bind at 1 in Hrun.
  destruct (writes_last_generate_hourly_stats dt_date dt_hour a1 out w1)
    as [_ [N2 W2]].
  destruct (generate_hourly_stats dt_date dt_hour a1 out w1)
    as [[a2 | e2] w2]; cbn [fst snd] in *.
  2:{ subst run. exists 1%nat, [(os_path.join out "data.csv", d1)]. cbn [fst snd app].
      rewrite W2, W1, W0.
      split; [reflexivity | split; [reflexivity|]].
      split; [split; [discriminate | discriminate]|].
      split; [| discriminate].
      intros H. exfalso. revert H. apply exit_status_raised.
      intros E. apply N2. now rewrite E. }
  destruct W2 as [d2 W2].
  unfold bind at 1 in Hrun.
  destruct (writes_last_generate_daily_stats a2 out w2) as [_ [N3 W3]].
  destruct (generate_daily_stats a2 out w2) as [[a3 | e3] w3];
    cbn [fst snd] in *.
  2:{ subst run. exists 2%nat, [(os_path.join out "hourly_stats.csv", d2);
                                (os_path.join out "data.csv", d1)]. cbn [fst snd app].
      rewrite W3, W2, W1, W0.
      split; [reflexivity | split; [reflexivity|]].
      split; [split; [discriminate | discriminate]|].
      split; [| discriminate].
      intros H. exfalso. revert H. apply exit_status_raised.
      intros E. apply N3. now rewrite E. }
  destruct W3 as [d3 W3].
  unfold bind at 1 in Hrun.
  destruct (writes_last_generate_monthly_stats a3 (stations_file args) out w3)
    as [_ [N4 W4]].
  destruct (generate_monthly_stats a3 (stations_file args) out w3)
    as [[a4 | e4] w4]; cbn [fst snd] in *.
  2:{ subst run. exists 3%nat, [(os_path.join out "daily_stats.csv", d3);
                                (os_path.join out "hourly_stats.csv", d2);
                                (os_path.join out "data.csv", d1)]. cbn [fst snd app].
      rewrite W4, W3, W2, W1, W0.
      split; [reflexivity | split; [reflexivity|]].
      split; [split; [discriminate | discriminate]|].
      split; [| discriminate].
      intros H. exfalso. revert H. apply exit_status_raised.
      intros E. apply N4. now rewrite E. }
  destruct W4 as [d4 W4].
  subst run. unfold ret.
  exists 4%nat, [(os_path.join out "monthly_stats.csv", d4);
                 (os_path.join out "daily_stats.csv", d3);
                 (os_path.join out "hourly_stats.csv", d2);
                 (os_path.join out "data.csv", d1)]. cbn [fst snd app].
  rewrite W4, W3, W2, W1, W0.
  repeat split; reflexivity.
Qed.

(** * Complete runs *)

(** The input file is there, was not overwritten, has one of the two
    extensions (in any letter case) and its reader returns [raw]. *)
Definition loads (w : world) (input_file : string) (raw : list RawReading.t)
    : Prop :=
  path_exists w input_file = true
  /\ was_written input_file w = false
  /\ ((os_path.lower (os_path.splitext_ext input_file) = ".db"%string
       /\ read_sqlite w input_file = Some raw)
      \/ (os_path.lower (os_path.splitext_ext input_file) = ".csv"%string
          /\ read_csv w input_file = Some raw)).

(** The station file is there, was not overwritten and its reader returns
    [stations]. *)
Definition loads_stations (w : world) (station_file : option string)
    (stations : list Station.t) : Prop :=
  exists path,
    station_file = Some path
    /\ path_exists w path = true
    /\ was_written path w = false
    /\ read_stations w path = Some stations.








Lemma read_data_loads (self : Awair.t) (input_file : string) (w : world)
    (raw : list RawReading.t) :
  loads w input_file raw ->
  fst (read_data self input_file w)
  = Ok (Awair.mk (Some (RawFrame raw)) (Awair.hourly self)
          (Awair.daily self) (Awair.monthly self)).
Proof.
  intros [Hex [Hw Hread]].
  unfold read_data, _read_sqlite, _read_csv, bind, os_path_exists, read_with,
    log_msg, ret.
  cbn beta. rewrite Hex. cbn [orb negb].
  destruct Hread as [[-> Hr] | [-> Hr]];
    cbn [String.eqb Ascii.eqb Bool.eqb andb];
    rewrite Hw, Hr; reflexivity.
Qed.




Lemma was_written_same (path : string) (w w' : world) :
  written w' = written w -> was_written path w' = was_written path w.
Proof. unfold was_written. now intros ->. Qed.

Lemma loads_stations_same (w w' : world) (station_file : option string)
    (stations : list Station.t) :
  same_files w w' -> written w' = written w ->
  loads_stations w' station_file stations ->
  loads_stations w station_file stations.
Proof.
  intros [Fe [_ [_ [Fr _]]]] Hw [p [Hp [He [Hn Hr]]]].
  exists p. rewrite <- Fe, <- Fr, <- (was_written_same p w w' Hw). auto.
Qed.



(** ** Runs that come to an end *)

Lemma bind_step {A B : Type} (c : proc A) (k : A -> proc B) (w : world)
    (a : A) :
  fst (c w) = Ok a -> bind c k w = k a (snd (c w)).
Proof.
  unfold bind. destruct (c w) as [[a' | e] w1]; cbn; [| discriminate].
  now intros [= ->].
Qed.

Lemma bind_raised {A B : Type} (c : proc A) (k : A -> proc B) (w : world)
    (e : exn) :
  fst (c w) = Raised e -> bind c k w = (Raised e, snd (c w)).
Proof.
  unfold bind. destruct (c w) as [[a' | e'] w1]; cbn; [discriminate|].
  now intros [= ->].
Qed.


Lemma preprocess_data_rejected (Timestamp : string -> Z)
    (to_datetime : string -> option (option Z)) (self : Awair.t)
    (raw : list RawReading.t) (output_dir : string) (w : world) :
  Awair.data self = Some (RawFrame raw) ->
  Exists (rejected to_datetime) raw ->
  preprocess_data Timestamp to_datetime self output_dir w
  = (Raised (OtherError "ParserError"), w).
Proof.
  intros Hd Hx. unfold preprocess_data. rewrite Hd. cbn zeta iota.
  now rewrite (convert_datetime_rejected to_datetime raw Hx).
Qed.

Lemma preprocess_data_unwritable (Timestamp : string -> Z)
    (to_datetime : string -> option (option Z)) (self : Awair.t)
    (raw : list RawReading.t) (data0 : list Reading.t)
    (output_dir : string) (w : world) :
  Awair.data self = Some (RawFrame raw) ->
  convert_datetime to_datetime raw = Some data0 ->
  writable w (os_path.join output_dir "data.csv") = false ->
  fst (preprocess_data Timestamp to_datetime self output_dir w)
  = Raised (OtherError "OSError").
Proof.
  intros Hd Hc Hw. unfold preprocess_data. rewrite Hd. cbn zeta iota.
  rewrite Hc.
  destruct w as [pe rs rc rst wr wrt lg]. cbn [writable] in Hw.
  cbv beta iota zeta delta [bind log_msg export_to_csv to_csv ret writable
                            path_exists read_sqlite read_csv read_stations
                            written log].
  rewrite Hw. reflexivity.
Qed.









(** A file system in which a run comes to its end: the input file
    pm10.CSV with the rows of [raw_sample], a station file, and an output
    directory that can be written. *)
Definition complete_world : world :=
  mkworld
    (fun p => String.eqb p "pm10.CSV" || String.eqb p "stations.csv")%bool
    (fun _ => None)
    (fun p => if String.eqb p "pm10.CSV" then Some raw_sample else None)
    (fun p =>
       if String.eqb p "stations.csv"
       then Some [Station.mk 1 "Centrum" "Rynek 1" 3 "Srodmiescie"
                    (502591 # 10000) (190216 # 10000)]
       else None)
    (fun _ => true) [] [].

Definition complete_args : arguments :=
  mkargs "pm10.CSV" (Some "stations.csv"%string) "output".



(** ** Runs that stop in the cleaning step *)

Lemma main_stops_in_preprocess_data
    (dt_date : Z -> datetime.date) (dt_hour : Z -> Z)
    (Timestamp : string -> Z) (to_datetime : string -> option (option Z))
    (args : arguments) (w : world) (raw : list RawReading.t) (e : exn) :
  loads w (input_file args) raw ->
  (forall w0,
     fst (preprocess_data Timestamp to_datetime
            (Awair.mk (Some (RawFrame raw)) None None None)
            (output_dir args) w0) = Raised e) ->
  let run := main dt_date dt_hour Timestamp to_datetime args w in
  fst run = Raised e /\ written (snd run) = written w.
Proof.
  intros Hl Hp run. subst run. unfold main, Awair_init.
  pose proof (read_data_loads (Awair.mk None None None None) _ _ _ Hl) as R0.
  destruct (silent_read_data (Awair.mk None None None None)
              (input_file args) w) as [_ [W0 _]].
  rewrite (bind_step _ _ _ _ R0).
  set (w0 := snd (read_data _ (input_file args) w)) in *.
  cbn [Awair.hourly Awair.daily Awair.monthly].
  rewrite (bind_raised _ _ _ _ (Hp w0)). cbn [fst snd].
  split; [reflexivity|].
  destruct (writes_last_preprocess_data Timestamp to_datetime
              (Awair.mk (Some (RawFrame raw)) None None None)
              (output_dir args) w0) as [_ [_ W1]].
  rewrite (Hp w0) in W1. now rewrite W1.
Qed.

(** X11.  A time text that the conversion rejects is fatal: when the input
    file can be read and [to_datetime] raises on the time text of one of
    its rows, [main] ends with an uncaught exception, exit status 1, and
    has written no file; the row is not skipped.  (An empty cell is not
    rejected: it becomes [NaT].) *)
Theorem rejected_time_text_is_fatal
    (dt_date : Z -> datetime.date) (dt_hour : Z -> Z)
    (Timestamp : string -> Z) (to_datetime : string -> option (option Z))
    (args : arguments) (w : world) (raw : list RawReading.t) :
  loads w (input_file args) raw ->
  Exists (rejected to_datetime) raw ->
  let run := main dt_date dt_hour Timestamp to_datetime args w in
  (exists what, fst run = Raised (OtherError what))
  /\ exit_status (fst run) = 1
  /\ written (snd run) = written w.
Proof.
  intros Hl Hx run.
  destruct (main_stops_in_preprocess_data dt_date dt_hour Timestamp
              to_datetime args w raw (OtherError "ParserError") Hl)
    as [R W].
  - intros w0.
    now rewrite (preprocess_data_rejected Timestamp to_datetime
                   (Awair.mk (Some (RawFrame raw)) None None None) raw
                   (output_dir args) w0 eq_refl Hx).
  - fold run in R, W. rewrite R. cbn [exit_status]. eauto.
Qed.

Lemma rejected_time_text_is_fatal_witness :
  let dt_date := fun t : Z => datetime.mkdate 2019 4 (1 + t / 86400) in
  let dt_hour := fun t : Z => (t mod 86400) / 3600 in
  let Timestamp := fun s : string =>
    if String.eqb s "2019-04-01" then 0 else 2592000 in
  let to_datetime := fun s : string =>
    if String.eqb s "a" then Some (Some 100)
    else if String.eqb s "b" then Some (Some 200)
    else if String.eqb s EmptyString then Some None
    else None in
  let run :=
    main dt_date dt_hour Timestamp to_datetime complete_args complete_world in
  (exists what, fst run = Raised (OtherError what))
  /\ exit_status (fst run) = 1
  /\ written (snd run) = written complete_world.
Proof.
  intros dt_date dt_hour Timestamp to_datetime run.
  apply (rejected_time_text_is_fatal dt_date dt_hour Timestamp to_datetime
           complete_args complete_world raw_sample).
  - split; [reflexivity | split; [reflexivity|]].
    right. split; vm_compute; reflexivity.
  - unfold raw_sample.
    do 5 apply Exists_cons_tl. apply Exists_cons_hd. reflexivity.
Defined.

(** X12.  A first output file that cannot be written, for instance
    because the output directory is missing, is fatal: when the input file
    can be read and no time text is rejected, [main] ends with an uncaught
    exception, exit status 1, and has written no file. *)
Theorem unwritable_output_is_fatal
    (dt_date : Z -> datetime.date) (dt_hour : Z -> Z)
    (Timestamp : string -> Z) (to_datetime : string -> option (option Z))
    (args : arguments) (w : world) (raw : list RawReading.t)
    (data0 : list Reading.t) :
  loads w (input_file args) raw ->
  convert_datetime to_datetime raw = Some data0 ->
  writable w (os_path.join (output_dir args) "data.csv") = false ->
  let run := main dt_date dt_hour Timestamp to_datetime args w in
  (exists what, fst run = Raised (OtherError what))
  /\ exit_status (fst run) = 1
  /\ written (snd run) = written w.
Proof.
  intros Hl Hc Hw run.
  destruct (silent_read_data (Awair.mk None None None None)
              (input_file args) w) as [[_ [_ [_ [_ G0]]]] _].
  pose proof (read_data_loads (Awair.mk None None None None) _ _ _ Hl) as R0.
  assert (Hp :
    fst (preprocess_data Timestamp to_datetime
           (Awair.mk (Some (RawFrame raw)) None None None) (output_dir args)
           (snd (read_data (Awair.mk None None None None)
                   (input_file args) w)))
    = Raised (OtherError "OSError")).
  { apply (preprocess_data_unwritable Timestamp to_datetime
             (Awair.mk (Some (RawFrame raw)) None None None) raw data0);
      [reflexivity | exact Hc | now rewrite G0]. }
  subst run. unfold main, Awair_init.
  destruct (silent_read_data (Awair.mk None None None None)
              (input_file args) w) as [_ [W0 _]].
  rewrite (bind_step _ _ _ _ R0).
  cbn [Awair.hourly Awair.daily Awair.monthly].
  rewrite (bind_raised _ _ _ _ Hp). cbn [fst snd exit_status].
  split; [eauto | split; [reflexivity|]].
  destruct (writes_last_preprocess_data Timestamp to_datetime
              (Awair.mk (Some (RawFrame raw)) None None None)
              (output_dir args)
              (snd (read_data (Awair.mk None None None None)
                      (input_file args) w))) as [_ [_ W1]].
  rewrite Hp in W1. now rewrite W1.
Qed.

Lemma unwritable_output_is_fatal_witness :
  let dt_date := fun t : Z => datetime.mkdate 2019 4 (1 + t / 86400) in
  let dt_hour := fun t : Z => (t mod 86400) / 3600 in
  let Timestamp := fun s : string =>
    if String.eqb s "2019-04-01" then 0 else 2592000 in
  let to_datetime := fun s : string =>
    if String.eqb s "a" then Some (Some 100)
    else if String.eqb s "b" then Some (Some 200)
    else if String.eqb s "c" then Some (Some 2592000)
    else if String.eqb s EmptyString then Some None
    else None in
  let w :=
    mkworld (path_exists complete_world) (read_sqlite complete_world)
      (read_csv complete_world) (read_stations complete_world)
      (fun _ => false) [] [] in
  let run := main dt_date dt_hour Timestamp to_datetime complete_args w in
  (exists what, fst run = Raised (OtherError what))
  /\ exit_status (fst run) = 1
  /\ written (snd run) = written w.
Proof.
  intros dt_date dt_hour Timestamp to_datetime w run.
  apply (unwritable_output_is_fatal dt_date dt_hour Timestamp to_datetime
           complete_args w raw_sample
           [Reading.mk 2 (Some 200) 30%float; Reading.mk 1 (Some 200) 20%float;
            Reading.mk 1 None 50%float; Reading.mk 1 (Some 100) 10%float;
            Reading.mk 1 (Some 200) 20%float;
            Reading.mk 1 (Some 2592000) 40%float]).
  - split; [reflexivity | split; [reflexivity|]].
    right. split; vm_compute; reflexivity.
  - reflexivity.
  - reflexivity.
Defined.

(** * The order of the aggregated frames *)

(** Strictly earlier dates and strictly smaller keys. *)
Definition date_lt (a b : datetime.date) : Prop :=
  datetime.year a < datetime.year b
  \/ (datetime.year a = datetime.year b
      /\ (datetime.month a < datetime.month b
          \/ (datetime.month a = datetime.month b
              /\ datetime.day a < datetime.day b))).

Definition day_key_lt (a b : day_key) : Prop :=
  fst a < fst b \/ (fst a = fst b /\ date_lt (snd a) (snd b)).

Definition hour_key_lt (a b : hour_key) : Prop :=
  day_key_lt (fst a) (fst b) \/ (fst a = fst b /\ snd a < snd b).

Lemma date_leb_lt (a b : datetime.date) :
  datetime.leb a b = true -> a <> b -> date_lt a b.
Proof.
  rewrite date_leb_le. unfold date_le, date_lt.
  destruct a as [y m d], b as [y' m' d']. cbn. intros H Hne.
  assert (Hd : y <> y' \/ m <> m' \/ d <> d').
  { destruct (Z.eq_dec y y') as [-> |]; [| now left].
    destruct (Z.eq_dec m m') as [-> |]; [| now right; left].
    destruct (Z.eq_dec d d') as [-> |]; [| now right; right].
    now elim Hne. }
  lia.
Qed.

Lemma day_key_leb_total (a b : day_key) :
  day_key_leb a b = true \/ day_key_leb b a = true.
Proof.
  apply pair_leb_total;
    [apply Z.eqb_eq | apply Zleb_total | apply date_leb_total].
Qed.

Lemma day_key_leb_trans (a b c : day_key) :
  day_key_leb a b = true -> day_key_leb b c = true -> day_key_leb a c = true.
Proof.
  apply pair_leb_trans;
    [apply Z.eqb_eq | apply Zleb_trans | apply Zleb_antisym
     | apply date_leb_trans].
Qed.

Lemma day_key_leb_antisym (a b : day_key) :
  day_key_leb a b = true -> day_key_leb b a = true -> a = b.
Proof.
  apply pair_leb_antisym;
    [apply Z.eqb_eq | apply Zleb_antisym | apply date_leb_antisym].
Qed.

Lemma hour_key_leb_total (a b : hour_key) :
  hour_key_leb a b = true \/ hour_key_leb b a = true.
Proof.
  apply pair_leb_total;
    [apply day_key_eqb_eq | apply day_key_leb_total | apply Zleb_total].
Qed.

Lemma hour_key_leb_trans (a b c : hour_key) :
  hour_key_leb a b = true -> hour_key_leb b c = true ->
  hour_key_leb a c = true.
Proof.
  apply pair_leb_trans;
    [apply day_key_eqb_eq | apply day_key_leb_trans
     | apply day_key_leb_antisym | apply Zleb_trans].
Qed.

Lemma day_key_leb_lt (a b : day_key) :
  day_key_leb a b = true -> a <> b -> day_key_lt a b.
Proof.
  destruct a as [s d], b as [s' d'].
  unfold day_key_leb, pair_leb, day_key_lt. cbn.
  destruct (Z.eqb_spec s s') as [-> | Hs].
  - intros H Hne. right. split; [reflexivity|].
    apply date_leb_lt; [exact H | congruence].
  - rewrite Z.leb_le. lia.
Qed.

Lemma hour_key_leb_lt (a b : hour_key) :
  hour_key_leb a b = true -> a <> b -> hour_key_lt a b.
Proof.
  destruct a as [k h], b as [k' h'].
  unfold hour_key_leb, pair_leb, hour_key_lt. cbn [fst snd].
  fold day_key_eqb. fold day_key_leb.
  destruct (day_key_eqb k k') eqn:E.
  - apply day_key_eqb_eq in E. subst k'. rewrite Z.leb_le.
    intros H Hne. right. split; [reflexivity|].
    assert (h <> h') by congruence. lia.
  - intros H _. left. apply day_key_leb_lt; [exact H|].
    intros ->. rewrite (proj2 (day_key_eqb_eq k' k') eq_refl) in E.
    discriminate.
Qed.

Lemma StronglySorted_strict {A : Type} (leb : A -> A -> bool) (l : list A) :
  StronglySorted (fun a b => leb a b = true) l -> NoDup l ->
  StronglySorted (fun a b => leb a b = true /\ a <> b) l.
Proof.
  induction 1 as [| a l Hl IH Ha]; intros Hnd; constructor;
    inversion Hnd as [| ? ? Hnotin Hnd']; subst.
  - now apply IH.
  - rewrite Forall_forall in *. intros b Hb.
    split; [now apply Ha|]. intros ->. contradiction.
Qed.

(** The keys of [groupby] come in strictly ascending order. *)
Section GroupOrder.
Context {K R : Type}.
Variable key : R -> K.
Variable eqb : K -> K -> bool.
Variable leb : K -> K -> bool.
Hypothesis eqb_eq : forall a b, eqb a b = true <-> a = b.
Hypothesis leb_total : forall a b, leb a b = true \/ leb b a = true.
Hypothesis leb_trans :
  forall a b c, leb a b = true -> leb b c = true -> leb a c = true.

Lemma group_keys_sorted (rows : list R) :
  StronglySorted (fun a b => leb a b = true /\ a <> b)
    (group_keys key eqb leb rows).
Proof.
  apply StronglySorted_strict.
  - unfold group_keys. now apply sort_keys_sorted.
  - now apply NoDup_group_keys.
Qed.

End GroupOrder.

Lemma hourly_stats_sorted (dt_date : Z -> datetime.date) (dt_hour : Z -> Z)
    (data : list Reading.t) :
  StronglySorted hour_key_lt
    (map hourly_row_key (hourly_stats dt_date dt_hour data)).
Proof.
  rewrite map_key_hourly_stats.
  eapply StronglySorted_impl;
    [| apply (group_keys_sorted _ hour_key_eqb hour_key_leb hour_key_eqb_eq
                hour_key_leb_total hour_key_leb_trans)].
  intros a b [H Hne]. now apply hour_key_leb_lt.
Qed.

Lemma daily_stats_sorted (min_hour : Z) (hourly : list Hourly.t) :
  StronglySorted day_key_lt
    (map daily_row_key (daily_stats min_hour hourly)).
Proof.
  rewrite map_key_daily_stats.
  eapply StronglySorted_impl;
    [| apply (group_keys_sorted _ day_key_eqb day_key_leb day_key_eqb_eq
                day_key_leb_total day_key_leb_trans)].
  intros a b [H Hne]. now apply day_key_leb_lt.
Qed.

Lemma monthly_stats_sorted (daily : list Daily.t) :
  StronglySorted day_key_lt
    (map monthly_row_key (snd (monthly_stats daily))).
Proof.
  apply StronglySorted_impl
    with (R := fun a b : day_key => day_key_leb a b = true /\ a <> b);
    [intros a b [H Hne]; apply day_key_leb_lt; [exact H | exact Hne]|].
  apply StronglySorted_strict.
  - apply (proj1 (StronglySorted_map monthly_row_key
                    (fun a b => day_key_leb a b = true) _)).
    unfold monthly_stats, sort_values. cbn [snd].
    apply (sort_keys_sorted
             (fun a b : Monthly.t =>
                day_key_leb (Monthly.station_id a, Monthly.date a)
                  (Monthly.station_id b, Monthly.date b))).
    + intros a b. apply day_key_leb_total.
    + intros a b c. apply day_key_leb_trans.
  - eapply Permutation_NoDup; [apply map_key_monthly_stats|].
    apply NoDup_group_keys, day_key_eqb_eq.
Qed.

(** X13.  The three aggregated frames come out in strictly ascending order
    of their key columns: the hourly frame by (station_id, date, hour), the
    daily frame by (station_id, date), the monthly frame by (station_id,
    month); in particular no key occurs twice. *)
Theorem aggregated_frames_strictly_sorted
    (dt_date : Z -> datetime.date) (dt_hour : Z -> Z)
    (data : list Reading.t) (min_hour : Z) (hourly : list Hourly.t)
    (daily : list Daily.t) :
  StronglySorted hour_key_lt
    (map hourly_row_key (hourly_stats dt_date dt_hour data))
  /\ StronglySorted day_key_lt
       (map daily_row_key (daily_stats min_hour hourly))
  /\ StronglySorted day_key_lt
       (map monthly_row_key (snd (monthly_stats daily))).
Proof.
  split; [apply hourly_stats_sorted|].
  split; [apply daily_stats_sorted | apply monthly_stats_sorted].
Qed.

(** * The day counts of the monthly frame *)

Definition Zsum (xs : list Z) : Z := fold_right Z.add 0 xs.

Lemma Zsum_perm (xs ys : list Z) : Permutation xs ys -> Zsum xs = Zsum ys.
Proof.
  induction 1 as [| x xs ys Hp IH | x y xs | xs ys zs H1 IH1 H2 IH2];
    unfold Zsum in *; cbn [fold_right]; lia.
Qed.

Lemma Zsum_cons (x : Z) (xs : list Z) : Zsum (x :: xs) = x + Zsum xs.
Proof. reflexivity. Qed.

Lemma Zsum_zero {A : Type} (l : list A) : Zsum (map (fun _ => 0) l) = 0.
Proof.
  induction l as [| a l IH]; [reflexivity|].
  cbn [map]. now rewrite Zsum_cons, IH.
Qed.

Lemma Zsum_add {A : Type} (f g : A -> Z) (l : list A) :
  Zsum (map (fun a => f a + g a) l) = Zsum (map f l) + Zsum (map g l).
Proof.
  induction l as [| a l IH]; [reflexivity|].
  cbn [map]. rewrite !Zsum_cons, IH. lia.
Qed.

(** Every row falls into exactly one group. *)
Section Partition.
Context {K R : Type}.
Variable key : R -> K.
Variable eqb : K -> K -> bool.
Hypothesis eqb_eq : forall a b, eqb a b = true <-> a = b.

Lemma count_none (ks : list K) (x : K) :
  ~ In x ks -> Zsum (map (fun k => if eqb x k then 1 else 0) ks) = 0.
Proof.
  induction ks as [| b ks IH]; [reflexivity|].
  intros Hnotin. cbn [map]. rewrite Zsum_cons.
  destruct (eqb x b) eqn:E.
  - apply eqb_eq in E. subst b. elim Hnotin. now left.
  - rewrite IH; [reflexivity|]. intros H. apply Hnotin. now right.
Qed.

Lemma count_one (ks : list K) (x : K) :
  NoDup ks -> In x ks ->
  Zsum (map (fun k => if eqb x k then 1 else 0) ks) = 1.
Proof.
  induction 1 as [| a ks Hnotin Hnd IH]; [intros []|].
  cbn [map]. rewrite Zsum_cons. intros [-> | Hin].
  - rewrite (proj2 (eqb_eq x x) eq_refl), (count_none ks x Hnotin).
    reflexivity.
  - destruct (eqb x a) eqn:E.
    + apply eqb_eq in E. subst a. contradiction.
    + now rewrite (IH Hin).
Qed.

Lemma groups_partition (p : R -> bool) (ks : list K) (rows : list R) :
  NoDup ks -> (forall r, In r rows -> In (key r) ks) ->
  Zsum (map (fun k =>
               Z.of_nat (List.length (filter p (get_group key eqb k rows))))
          ks)
  = Z.of_nat (List.length (filter p rows)).
Proof.
  intros Hnd. induction rows as [| r rows IH]; intros Hin.
  - cbn. apply Zsum_zero.
  - assert (Hstep : forall k,
      Z.of_nat (List.length (filter p (get_group key eqb k (r :: rows))))
      = Z.of_nat (List.length (filter p (get_group key eqb k rows)))
        + (if p r then (if eqb (key r) k then 1 else 0) else 0)).
    { intros k. unfold get_group. cbn [filter].
      destruct (eqb (key r) k); cbn [filter];
        destruct (p r); cbn [List.length]; lia. }
    rewrite (map_ext _ _ Hstep), Zsum_add.
    rewrite IH by (intros r' Hr'; apply Hin; now right).
    cbn [filter].
    destruct (p r); cbn [List.length].
    + rewrite count_one; [lia | exact Hnd | apply Hin; now left].
    + rewrite Zsum_zero. lia.
Qed.

End Partition.

Lemma month_key_in_group_keys (daily : list Daily.t) (r : Daily.t) :
  In r daily ->
  In (month_key r)
     (group_keys monthly_key day_key_eqb day_key_leb (monthly_casts daily)).
Proof.
  intros Hr. apply (in_group_keys _ _ _ day_key_eqb_eq).
  exists (cast_row r). split; [| reflexivity].
  rewrite monthly_casts_map. now apply in_map.
Qed.

Lemma monthly_column_total (daily : list Daily.t) (column : Monthly.t -> Z)
    (p : Daily.t -> bool) :
  (forall k group,
     column (monthly_agg (k, monthly_casts group))
     = Z.of_nat (List.length (filter p group))) ->
  Zsum (map column (snd (monthly_stats daily)))
  = Z.of_nat (List.length (filter p daily)).
Proof.
  intros Hcol.
  rewrite <- (Zsum_perm _ _ (Permutation_map column
                               (monthly_stats_perm daily))).
  rewrite map_map.
  erewrite map_ext
    by (intros k; rewrite get_group_monthly_casts; apply Hcol).
  apply (groups_partition month_key day_key_eqb day_key_eqb_eq).
  - apply NoDup_group_keys, day_key_eqb_eq.
  - apply month_key_in_group_keys.
Qed.

Lemma days_with_mean_above_count (threshold : Z) (group : list Daily.t) :
  days_with_mean_above (inject_Z threshold) group
  = Z.of_nat
      (List.length
         (filter (fun r => Qgt_bool (daily_mean r) (inject_Z threshold))
            group)).
Proof. now rewrite <- sum_bool_days_above, sum_bool_count. Qed.

(** X14.  Every daily row is counted in exactly one monthly row: over the
    whole monthly frame [days_num] adds up to the number of daily rows,
    and [days_abv_norm], [days_abv_200] and [days_abv_300] add up to the
    number of daily rows whose mean is above 50, 200 and 300. *)
Theorem monthly_day_counts_add_up (daily : list Daily.t) :
  let monthly := snd (monthly_stats daily) in
  Zsum (map Monthly.days_num monthly) = Z.of_nat (List.length daily)
  /\ Zsum (map Monthly.days_abv_norm monthly)
     = days_with_mean_above (inject_Z 50) daily
  /\ Zsum (map Monthly.days_abv_200 monthly)
     = days_with_mean_above (inject_Z 200) daily
  /\ Zsum (map Monthly.days_abv_300 monthly)
     = days_with_mean_above (inject_Z 300) daily.
Proof.
  cbn zeta. rewrite !days_with_mean_above_count.
  split; [| split; [| split]].
  - rewrite (monthly_column_total daily Monthly.days_num (fun _ => true)).
    + now rewrite (filter_all (fun _ => true)).
    + intros k group. rewrite monthly_agg_casts. cbn [Monthly.days_num].
      now rewrite (filter_all (fun _ => true)).
  - apply monthly_column_total. intros k group.
    rewrite monthly_agg_casts. cbn [Monthly.days_abv_norm].
    apply sum_bool_count.
  - apply monthly_column_total. intros k group.
    rewrite monthly_agg_casts. cbn [Monthly.days_abv_200].
    apply sum_bool_count.
  - apply monthly_column_total. intros k group.
    rewrite monthly_agg_casts. cbn [Monthly.days_abv_300].
    apply sum_bool_count.
Qed.

(** * Missing cells in the hourly stage *)






